(** * Brighter-fatter kernel calibration (lsst.ip.isr.brighterFatterKernel)

    A shallow embedding of the [BrighterFatterKernel] calibration class:
    its data model, [getLengths], the mapping codec ([fromDict], [toDict]),
    the tabular codec ([fromTable], [toTable]), [repackCorrelations] and
    [makeDetectorKernelFromAmpwiseKernels].

    Conventions.
    - Python [int] is [Z]; a [len(...)] and an entry of a numpy [.shape]
      are [nat]; Python [float] and numpy [float64] are the binary64
      floats of [PrimFloat].
    - A Python [dict] keyed by amplifier or detector name is an
      insertion-ordered association list; assignment to an existing key
      keeps its position, assignment to a new key appends.
    - A numpy array is its shape together with its row-major buffer.
    - A Python exception is a value of [exn]; a method that assigns to
      [self] is a function from the calibration to the calibration after
      the call paired with the outcome of the call. *)

From Stdlib Require Import ZArith String Bool Lia PrimFloat PeanoNat List.
Import ListNotations.

Set Warnings "-inexact-float".

Local Open Scope string_scope.
Local Open Scope list_scope.
Local Open Scope Z_scope.

(** ** Exceptions and outcomes *)

Inductive exn : Type :=
| IncorrectKernel (found : string)
    (* RuntimeError("Incorrect brighter-fatter kernel supplied. ...") *)
| UnknownVersion (calibVersion : float)
    (* RuntimeError("Unknown version for brighter-fatter kernel: ...") *)
| InconsistentObservations
    (* RuntimeError("Inconsistent number of observations found.") *)
| CouldNotCoerce (have expect : nat)
    (* ValueError("Could not coerce rawXcorrs into appropriate shape ...") *)
| KeyError (key : string)
| IndexError
| ValueError
    (* numpy: cannot reshape / inhomogeneous shape / int(nan) *)
| OverflowError
    (* OverflowError("integer division result too large for a float") *)
| TypeError.
    (* numpy: an integer beyond 64 bits has no sqrt loop *)

Inductive result (A : Type) : Type :=
| OK (a : A)
| Raise (e : exn).

Arguments OK {A} a.
Arguments Raise {A} e.

Definition rbind {A B} (r : result A) (k : A -> result B) : result B :=
  match r with
  | OK a => k a
  | Raise e => Raise e
  end.

Declare Scope result_scope.
Delimit Scope result_scope with result.
Notation "x <- r ;; k" := (rbind r (fun x => k))
  (at level 61, r at next level, right associativity) : result_scope.
Notation "' p <- r ;; k" := (rbind r (fun x => match x with p => k end))
  (at level 61, p pattern, r at next level, right associativity) : result_scope.

Definition is_ok {A} (r : result A) : bool :=
  match r with OK _ => true | Raise _ => false end.

Fixpoint mapM {A B} (f : A -> result B) (l : list A) : result (list B) :=
  match l with
  | [] => OK []
  | a :: l' =>
      (b <- f a ;; bs <- mapM f l' ;; OK (b :: bs))%result
  end.

(** ** Python dictionaries *)

Definition dict (V : Type) : Type := list (string * V).

Definition keys {V} (d : dict V) : list string := map fst d.
Definition values {V} (d : dict V) : list V := map snd d.

Fixpoint dict_get {V} (d : dict V) (k : string) : option V :=
  match d with
  | [] => None
  | (k', v) :: d' => if String.eqb k k' then Some v else dict_get d' k
  end.

(** [d[k] = v] *)
Fixpoint dict_set {V} (d : dict V) (k : string) (v : V) : dict V :=
  match d with
  | [] => [(k, v)]
  | (k', v') :: d' =>
      if String.eqb k k' then (k', v) :: d' else (k', v') :: dict_set d' k v
  end.

(** [d[k]], raising [KeyError] *)
Definition getitem {V} (d : dict V) (k : string) : result V :=
  match dict_get d k with
  | Some v => OK v
  | None => Raise (KeyError k)
  end.

(** [{k: f(k) for k in ks}] *)
Fixpoint dict_comp_from {V} (acc : dict V) (f : string -> result V)
  (ks : list string) : result (dict V) :=
  match ks with
  | [] => OK acc
  | k :: ks' => (v <- f k ;; dict_comp_from (dict_set acc k v) f ks')%result
  end.

Definition dict_comp {V} (f : string -> result V) (ks : list string)
  : result (dict V) :=
  dict_comp_from [] f ks.

(** [{k: v for k, v in zip(ks, vs)}] *)
Definition dict_zip {V} (ks : list string) (vs : list V) : dict V :=
  fold_left (fun d kv => dict_set d (fst kv) (snd kv)) (combine ks vs) [].

(** [k in l] for a list of names *)
Definition py_in (k : string) (l : list string) : bool :=
  existsb (String.eqb k) l.

(** The invariant of a Python dict: no key occurs twice. *)
Definition dict_wf {V} (d : dict V) : Prop := NoDup (keys d).

(** ** numpy arrays *)

Record ndarray : Type := mkArray {
  arr_shape : list nat;
  arr_data : list float
}.

Definition nprod (l : list nat) : nat := fold_right Nat.mul 1%nat l.

Definition array_wf (a : ndarray) : Prop :=
  length (arr_data a) = nprod (arr_shape a).

(** [np.array(l)] for a flat Python list of numbers *)
Definition np_array_flat (l : list float) : ndarray :=
  mkArray [length l] l.

(** [a.tolist()] for a one-dimensional array *)
Definition tolist (a : ndarray) : list float := arr_data a.

Definition shape_eqb (s t : list nat) : bool :=
  (length s =? length t)%nat && forallb (fun p => (fst p =? snd p)%nat) (combine s t).

(** [np.array([a1, ..., an])]: the arrays stacked along a new leading axis;
    arrays of different shapes do not stack. *)
Definition np_stack (l : list ndarray) : result ndarray :=
  match l with
  | [] => OK (mkArray [0%nat] [])
  | a :: _ =>
      if forallb (fun b => shape_eqb (arr_shape b) (arr_shape a)) l
      then OK (mkArray (length l :: arr_shape a) (concat (map arr_data l)))
      else Raise ValueError
  end.

(** [a.reshape(dims)].  A negative entry asks numpy to infer that axis
    from the size of the buffer; at most one entry may do so. *)
Definition reshape (a : ndarray) (dims : list Z) : result ndarray :=
  let size := Z.of_nat (length (arr_data a)) in
  let known := fold_right Z.mul 1 (filter (fun d => 0 <=? d) dims) in
  match filter (fun d => d <? 0) dims with
  | [] =>
      if size =? known
      then OK (mkArray (map Z.to_nat dims) (arr_data a))
      else Raise ValueError
  | [_] =>
      if (known =? 0) || negb (size mod known =? 0)
      then Raise ValueError
      else OK (mkArray
                 (map (fun d => if d <? 0 then Z.to_nat (size / known)
                                else Z.to_nat d) dims)
                 (arr_data a))
  | _ => Raise ValueError
  end.

(** [np.full((r, c), v)] *)
Definition np_full (r c : nat) (v : float) : ndarray :=
  mkArray [r; c] (repeat v (r * c)).

(** [a[idx]] along the leading axis *)
Definition arr_getitem (a : ndarray) (idx : nat) : result ndarray :=
  match arr_shape a with
  | [] => Raise IndexError
  | n :: rest =>
      if (idx <? n)%nat
      then OK (mkArray rest
                 (firstn (nprod rest) (skipn (idx * nprod rest) (arr_data a))))
      else Raise IndexError
  end.

(** What [rawXcorrs[amp]] holds: a Python list of two-dimensional arrays
    (as [repackCorrelations] leaves it) or one three-dimensional array
    (as [fromDict] leaves it). *)
Inductive pyseq : Type :=
| PyList (l : list ndarray)
| NdArray (a : ndarray).

Definition np_array (x : pyseq) : result ndarray :=
  match x with
  | PyList l => np_stack l
  | NdArray a => OK a
  end.

Definition seq_getitem (x : pyseq) (idx : nat) : result ndarray :=
  match x with
  | PyList l =>
      match nth_error l idx with
      | Some a => OK a
      | None => Raise IndexError
      end
  | NdArray a => arr_getitem a idx
  end.

(** [len(x)]; an array without axes has no length. *)
Definition seq_length (x : pyseq) : option nat :=
  match x with
  | PyList l => Some (length l)
  | NdArray a => hd_error (arr_shape a)
  end.

(** [t[i]] for a shape tuple *)
Definition tuple_getitem (t : list nat) (i : nat) : result nat :=
  match nth_error t i with
  | Some n => OK n
  | None => Raise IndexError
  end.

(** ** Validity values

    The values a validity entry takes: a Python [bool], a numpy
    [bool_], or an integer. *)

Inductive pyval : Type :=
| PyBool (b : bool)
| NpBool (b : bool)
| PyInt (z : Z).

(** [bool(v)] *)
Definition py_bool (v : pyval) : bool :=
  match v with
  | PyBool b => b
  | NpBool b => b
  | PyInt z => negb (z =? 0)
  end.

(** [v is False] *)
Definition is_False (v : pyval) : bool :=
  match v with
  | PyBool false => true
  | _ => false
  end.

(** [int(v)] *)
Definition py_int (v : pyval) : Z :=
  match v with
  | PyBool b => if b then 1 else 0
  | NpBool b => if b then 1 else 0
  | PyInt z => z
  end.

(** [v and w] *)
Definition py_and (v w : pyval) : pyval :=
  if py_bool v then w else v.

(** ** Level and metadata *)

Inductive pylevel : Type :=
| LevelNone
| LevelStr (s : string).

Definition level_eqb (l : pylevel) (s : string) : bool :=
  match l with
  | LevelNone => false
  | LevelStr s' => String.eqb s' s
  end.

(** The metadata keys the calibration reads and writes; [None] is an
    absent key. *)
Record Metadata : Type := mkMetadata {
  OBSTYPE : option string;
  bfk_VERSION : option float;
  LEVEL : option pylevel;
  KERNEL_DX : option Z;
  KERNEL_DY : option Z
}.

Definition _OBSTYPE : string := "bfk".
Definition _VERSION : float := 1.1%float.

(** ** The calibration *)

Record BrighterFatterKernel : Type := mkBFK {
  metadata : Metadata;
  level : pylevel;
  expIdMask : dict (list bool);
  rawMeans : dict (list float);
  rawVariances : dict (list float);
  rawXcorrs : dict pyseq;
  badAmps : list string;
  shape : Z * Z;
  gain : dict float;
  noise : dict float;
  meanXcorrs : dict ndarray;
  valid : dict pyval;
  ampKernels : dict ndarray;
  detKernels : dict ndarray
}.

(** [BrighterFatterKernel(level=level)]: the constructor without a camera. *)
Definition new (level : pylevel) : BrighterFatterKernel :=
  {| metadata := mkMetadata None None None None None;
     level := level;
     expIdMask := []; rawMeans := []; rawVariances := []; rawXcorrs := [];
     badAmps := []; shape := (17, 17); gain := []; noise := [];
     meanXcorrs := []; valid := []; ampKernels := []; detKernels := [] |}.

(** [cls()] *)
Definition init : BrighterFatterKernel := new LevelNone.

(** [set(l)] for a list of lengths, and its [pop()] *)
Definition py_set (l : list nat) : list nat := nodup Nat.eq_dec l.

(** [float(p)] for an integer [p], as the number it denotes: [p] rounded
    to 53 significant bits, ties to the even significand.  Below [2^53] in
    magnitude every integer is its own binary64 value; above, the result is
    still an integer.  The range of binary64 is not checked here. *)
Definition float_of_int (p : Z) : Z :=
  let n := Z.abs p in
  let shift := Z.log2 n + 1 - 53 in
  if shift <=? 0 then p
  else
    let m := Z.shiftr n shift in
    let rem := n - Z.shiftl m shift in
    let half := Z.shiftl 1 (shift - 1) in
    let m' := if (half <? rem) || ((rem =? half) && Z.odd m)
              then m + 1 else m in
    Z.sgn p * Z.shiftl m' shift.

(** [int(p / 4)] for an integer [p].  Python's true division of integers
    returns the binary64 value nearest to the exact quotient, and raises
    [OverflowError] when that value is beyond the range of binary64; the
    divisor being a power of two, the quotient is [float(p) / 4] exactly.
    [int] then truncates towards zero. *)
Definition int_truediv4 (p : Z) : result Z :=
  let x := float_of_int p in
  if 2 ^ 1026 <=? Z.abs x then Raise OverflowError else OK (Z.quot x 4).

Definition getLengths (self : BrighterFatterKernel) : result (Z * Z * nat) :=
  let kernelLength := fst (shape self) * snd (shape self) in
  (smallLength <- int_truediv4 ((fst (shape self) - 1) * (snd (shape self) - 1)) ;;
   if level_eqb (level self) "AMP" then
     let nObservations :=
       py_set (map (fun v => length v) (values (rawMeans self))) in
     if negb (length nObservations =? 1)%nat
     then Raise InconsistentObservations
     else OK (kernelLength, smallLength, hd 0%nat nObservations)
   else OK (kernelLength, smallLength, 0%nat))%result.

(** ** Assignment to attributes *)

Definition set_metadata (c : BrighterFatterKernel) (x : Metadata) :=
  mkBFK x (level c) (expIdMask c) (rawMeans c) (rawVariances c) (rawXcorrs c)
    (badAmps c) (shape c) (gain c) (noise c) (meanXcorrs c) (valid c)
    (ampKernels c) (detKernels c).
Definition set_level (c : BrighterFatterKernel) (x : pylevel) :=
  mkBFK (metadata c) x (expIdMask c) (rawMeans c) (rawVariances c) (rawXcorrs c)
    (badAmps c) (shape c) (gain c) (noise c) (meanXcorrs c) (valid c)
    (ampKernels c) (detKernels c).
Definition set_expIdMask (c : BrighterFatterKernel) (x : dict (list bool)) :=
  mkBFK (metadata c) (level c) x (rawMeans c) (rawVariances c) (rawXcorrs c)
    (badAmps c) (shape c) (gain c) (noise c) (meanXcorrs c) (valid c)
    (ampKernels c) (detKernels c).
Definition set_rawMeans (c : BrighterFatterKernel) (x : dict (list float)) :=
  mkBFK (metadata c) (level c) (expIdMask c) x (rawVariances c) (rawXcorrs c)
    (badAmps c) (shape c) (gain c) (noise c) (meanXcorrs c) (valid c)
    (ampKernels c) (detKernels c).
Definition set_rawVariances (c : BrighterFatterKernel) (x : dict (list float)) :=
  mkBFK (metadata c) (level c) (expIdMask c) (rawMeans c) x (rawXcorrs c)
    (badAmps c) (shape c) (gain c) (noise c) (meanXcorrs c) (valid c)
    (ampKernels c) (detKernels c).
Definition set_rawXcorrs (c : BrighterFatterKernel) (x : dict pyseq) :=
  mkBFK (metadata c) (level c) (expIdMask c) (rawMeans c) (rawVariances c) x
    (badAmps c) (shape c) (gain c) (noise c) (meanXcorrs c) (valid c)
    (ampKernels c) (detKernels c).
Definition set_badAmps (c : BrighterFatterKernel) (x : list string) :=
  mkBFK (metadata c) (level c) (expIdMask c) (rawMeans c) (rawVariances c)
    (rawXcorrs c) x (shape c) (gain c) (noise c) (meanXcorrs c) (valid c)
    (ampKernels c) (detKernels c).
Definition set_shape (c : BrighterFatterKernel) (x : Z * Z) :=
  mkBFK (metadata c) (level c) (expIdMask c) (rawMeans c) (rawVariances c)
    (rawXcorrs c) (badAmps c) x (gain c) (noise c) (meanXcorrs c) (valid c)
    (ampKernels c) (detKernels c).
Definition set_gain (c : BrighterFatterKernel) (x : dict float) :=
  mkBFK (metadata c) (level c) (expIdMask c) (rawMeans c) (rawVariances c)
    (rawXcorrs c) (badAmps c) (shape c) x (noise c) (meanXcorrs c) (valid c)
    (ampKernels c) (detKernels c).
Definition set_noise (c : BrighterFatterKernel) (x : dict float) :=
  mkBFK (metadata c) (level c) (expIdMask c) (rawMeans c) (rawVariances c)
    (rawXcorrs c) (badAmps c) (shape c) (gain c) x (meanXcorrs c) (valid c)
    (ampKernels c) (detKernels c).
Definition set_meanXcorrs (c : BrighterFatterKernel) (x : dict ndarray) :=
  mkBFK (metadata c) (level c) (expIdMask c) (rawMeans c) (rawVariances c)
    (rawXcorrs c) (badAmps c) (shape c) (gain c) (noise c) x (valid c)
    (ampKernels c) (detKernels c).
Definition set_valid (c : BrighterFatterKernel) (x : dict pyval) :=
  mkBFK (metadata c) (level c) (expIdMask c) (rawMeans c) (rawVariances c)
    (rawXcorrs c) (badAmps c) (shape c) (gain c) (noise c) (meanXcorrs c) x
    (ampKernels c) (detKernels c).
Definition set_ampKernels (c : BrighterFatterKernel) (x : dict ndarray) :=
  mkBFK (metadata c) (level c) (expIdMask c) (rawMeans c) (rawVariances c)
    (rawXcorrs c) (badAmps c) (shape c) (gain c) (noise c) (meanXcorrs c)
    (valid c) x (detKernels c).
Definition set_detKernels (c : BrighterFatterKernel) (x : dict ndarray) :=
  mkBFK (metadata c) (level c) (expIdMask c) (rawMeans c) (rawVariances c)
    (rawXcorrs c) (badAmps c) (shape c) (gain c) (noise c) (meanXcorrs c)
    (valid c) (ampKernels c) x.

(** ** Methods that assign to [self] *)

Definition M (A : Type) : Type :=
  BrighterFatterKernel -> BrighterFatterKernel * result A.

Definition mret {A} (a : A) : M A := fun self => (self, OK a).

Definition mbind {A B} (m : M A) (k : A -> M B) : M B :=
  fun self =>
    match m self with
    | (self', OK a) => k a self'
    | (self', Raise e) => (self', Raise e)
    end.

Definition mlift {A} (r : result A) : M A := fun self => (self, r).
Definition mget : M BrighterFatterKernel := fun self => (self, OK self).
Definition mmodify (f : BrighterFatterKernel -> BrighterFatterKernel) : M unit :=
  fun self => (f self, OK tt).

Declare Scope method_scope.
Delimit Scope method_scope with method.
Notation "x <- m ;; k" := (mbind m (fun x => k))
  (at level 61, m at next level, right associativity) : method_scope.
Notation "' p <- m ;; k" := (mbind m (fun x => match x with p => k end))
  (at level 61, p pattern, m at next level, right associativity) : method_scope.

(** [for x in l: body(x)] *)
Fixpoint forM_ {A} (l : list A) (body : A -> M unit) : M unit :=
  match l with
  | [] => mret tt
  | x :: l' => (_ <- body x ;; forM_ l' body)%method
  end.

(** [for x in l: acc.append(body(x))] *)
Fixpoint forM {A B} (l : list A) (body : A -> M B) : M (list B) :=
  match l with
  | [] => mret []
  | x :: l' => (b <- body x ;; bs <- forM l' body ;; mret (b :: bs))%method
  end.

(** The state after a call and its outcome. *)
Definition state_after {A} (r : BrighterFatterKernel * result A) := fst r.
Definition outcome {A} (r : BrighterFatterKernel * result A) := snd r.

(** [y] is [x] up to the attribute [rawXcorrs]. *)
Definition same_but_rawXcorrs (x y : BrighterFatterKernel) : Prop :=
  y = set_rawXcorrs x (rawXcorrs y).

(** A method that assigns at most to [rawXcorrs], whatever its outcome. *)
Definition frames {A} (m : M A) : Prop :=
  forall self, same_but_rawXcorrs self (state_after (m self)).

(** A method that maintains the property [P] of [self], whatever its
    outcome. *)
Definition preserves {A} (P : BrighterFatterKernel -> Prop) (m : M A) : Prop :=
  forall self, P self -> P (state_after (m self)).

(** A call that leaves [self] as it was, whatever its outcome. *)
Definition noop {A} (m : M A) (self : BrighterFatterKernel) : Prop :=
  state_after (m self) = self.

(** ** Metadata handling of the parent class *)

(** Modelled from the spec: [IsrCalib.updateMetadata] is not among the
    sources.  The metadata carries the identity tag, the schema version of
    the class, the level and the kernel shape: the parent stores the
    keywords it is handed and stamps the identity tag and the version. *)
Definition IsrCalib_updateMetadata (md : Metadata)
  (kwLEVEL : pylevel) (kwKERNEL_DX kwKERNEL_DY : Z) : Metadata :=
  {| OBSTYPE := Some _OBSTYPE;
     bfk_VERSION := Some _VERSION;
     LEVEL := Some kwLEVEL;
     KERNEL_DX := Some kwKERNEL_DX;
     KERNEL_DY := Some kwKERNEL_DY |}.

(** Modelled from the spec: [IsrCalib.setMetadata] and
    [IsrCalib.calibInfoFromDict] are not among the sources.  The supplied
    key-value store becomes the metadata of the calibration; the fields
    [calibInfoFromDict] fills are none of the fields modelled here. *)
Definition setMetadata (calib : BrighterFatterKernel) (md : Metadata)
  : BrighterFatterKernel :=
  set_metadata calib md.

Definition updateMetadata (self : BrighterFatterKernel) : BrighterFatterKernel :=
  set_metadata self
    (IsrCalib_updateMetadata (metadata self)
       (level self) (fst (shape self)) (snd (shape self))).

Definition getMetadata (self : BrighterFatterKernel) : Metadata := metadata self.

(** ** repackCorrelations *)

Fixpoint repack_loop (self : BrighterFatterKernel) (amp : string)
  (correlationShape : list nat) (mask : list bool) (idx : nat)
  (repackedCorrelations : list ndarray) : result (list ndarray) :=
  match mask with
  | [] => OK repackedCorrelations
  | maskValue :: mask' =>
      if maskValue then
        (x <- getitem (rawXcorrs self) amp ;;
         a <- seq_getitem x idx ;;
         repack_loop self amp correlationShape mask' (S idx)
           (repackedCorrelations ++ [a]))%result
      else
        (r <- tuple_getitem correlationShape 1 ;;
         c <- tuple_getitem correlationShape 2 ;;
         repack_loop self amp correlationShape mask' idx
           (repackedCorrelations ++ [np_full r c nan]))%result
  end.

Definition repackCorrelations (amp : string) (correlationShape : list nat)
  : M unit :=
  fun self =>
    match (mask <- getitem (expIdMask self) amp ;;
           repack_loop self amp correlationShape mask 0 [])%result with
    | OK repackedCorrelations =>
        (set_rawXcorrs self
           (dict_set (rawXcorrs self) amp (PyList repackedCorrelations)),
         OK tt)
    | Raise e => (self, Raise e)
    end.

(** [np.sum(mask)] *)
Definition np_sum (mask : list bool) : nat := length (filter (fun b => b) mask).

(** The check both exports make on [rawXcorrs[amp]] before flattening it
    (toDict, lines 339-347; toTable, lines 484-492). *)
Definition checkRepack (amp : string) (nObs : nat) : M unit :=
  (self <- mget ;;
   a <- mlift (x <- getitem (rawXcorrs self) amp ;; np_array x)%result ;;
   let correlationShape := arr_shape a in
   n0 <- mlift (tuple_getitem correlationShape 0) ;;
   if negb (nObs =? n0)%nat then
     mask <- mlift (getitem (expIdMask self) amp) ;;
     if (n0 =? np_sum mask)%nat
     then repackCorrelations amp correlationShape
     else mlift (Raise (CouldNotCoerce n0 (np_sum mask)))
   else mret tt)%method.

(** ** The mapping form *)

Record Dictionary : Type := mkDictionary {
  d_metadata : Metadata;
  d_expIdMask : option (dict (list bool));
  d_rawMeans : option (dict (list float));
  d_rawVariances : option (dict (list float));
  d_means : option (dict (list float));
  d_variances : option (dict (list float));
  d_rawXcorrs : dict (list float);
  d_badAmps : list string;
  d_gain : dict float;
  d_noise : dict float;
  d_meanXcorrs : dict (list float);
  d_ampKernels : dict (list float);
  d_valid : dict pyval;
  d_detKernels : dict (list float)
}.

(** [o[key]] for a key that may be absent *)
Definition lookup {A} (o : option A) (key : string) : result A :=
  match o with
  | Some a => OK a
  | None => Raise (KeyError key)
  end.

(** [{k: f(d[k]) for k in d}] *)
Definition comp_over {V W} (d : dict V) (f : V -> result W) : result (dict W) :=
  dict_comp (fun k => v <- getitem d k ;; f v)%result (keys d).

(** [{k: f(v) for k, v in items}] *)
Definition dict_of_items {V} (items : list (string * V)) : dict V :=
  fold_left (fun d kv => dict_set d (fst kv) (snd kv)) items [].

(** [a.reshape(n).tolist()] *)
Definition ravel (n : Z) (a : ndarray) : result (list float) :=
  (b <- reshape a [n] ;; OK (tolist b))%result.

Definition toDict : M Dictionary :=
  (_ <- mmodify updateMetadata ;;
   self <- mget ;;
   let metadata := getMetadata self in
   '(kernelLength, smallLength, nObs) <- mlift (getLengths self) ;;
   outExpIdMask <- mlift (comp_over (expIdMask self) (fun l => OK l)) ;;
   outRawMeans <- mlift (comp_over (rawMeans self)
                           (fun l => OK (tolist (np_array_flat l)))) ;;
   outRawVariances <- mlift (comp_over (rawVariances self)
                               (fun l => OK (tolist (np_array_flat l)))) ;;
   _ <- forM_ (keys (rawXcorrs self)) (fun amp => checkRepack amp nObs) ;;
   self <- mget ;;
   outRawXcorrs <- mlift (comp_over (rawXcorrs self)
                            (fun x => a <- np_array x ;;
                                      ravel (Z.of_nat nObs * smallLength) a)%result) ;;
   outMeanXcorrs <- mlift (comp_over (meanXcorrs self) (ravel kernelLength)) ;;
   outAmpKernels <- mlift (comp_over (ampKernels self) (ravel kernelLength)) ;;
   outDetKernels <- mlift (comp_over (detKernels self) (ravel kernelLength)) ;;
   mret {| d_metadata := metadata;
           d_expIdMask := Some outExpIdMask;
           d_rawMeans := Some outRawMeans;
           d_rawVariances := Some outRawVariances;
           d_means := None;
           d_variances := None;
           d_rawXcorrs := outRawXcorrs;
           d_badAmps := badAmps self;
           d_gain := gain self;
           d_noise := noise self;
           d_meanXcorrs := outMeanXcorrs;
           d_ampKernels := outAmpKernels;
           d_valid := valid self;
           d_detKernels := outDetKernels |})%method.

(** [int(np.sqrt(n))] for a Python integer [n].  The square root of a
    negative number is not a number, which [int] refuses; an integer of
    more than 64 bits becomes an object for which numpy has no square
    root.  Otherwise [n] is converted to binary64, the square root is
    rounded to the nearest binary64 value and [int] truncates it: for [m]
    not a perfect square with [k = floor(sqrt(m))] the rounded root reaches
    [k + 1] exactly when [sqrt(m)] lies above [k + 1] minus half the spacing
    [2^(log2 k - 52)] of the values below [k + 1].  Below [2^52] this never
    happens and the result is the integer square root. *)
Definition int_sqrt (n : Z) : result Z :=
  if n <? 0 then Raise ValueError
  else if 2 ^ 64 <=? n then Raise TypeError
  else
    let m := float_of_int n in
    let k := Z.sqrt m in
    if k * k =? m then OK k
    else
      let s := 53 - Z.log2 k in
      if ((k + 1) * 2 ^ s - 1) ^ 2 <? m * 2 ^ (2 * s)
      then OK (k + 1) else OK k.

(** [md.get(key, default)] *)
Definition md_get {A} (o : option A) (default : A) : A :=
  match o with Some a => a | None => default end.

Definition fromDict (dictionary : Dictionary) : result BrighterFatterKernel :=
  (let calib := init in
   found <- lookup (OBSTYPE (d_metadata dictionary)) "OBSTYPE" ;;
   if negb (String.eqb _OBSTYPE found) then Raise (IncorrectKernel found) else
   let calib := setMetadata calib (d_metadata dictionary) in
   let calib := set_level calib
                  (md_get (LEVEL (d_metadata dictionary)) (LevelStr "AMP")) in
   let calib := set_shape calib
                  (md_get (KERNEL_DX (d_metadata dictionary)) 0,
                   md_get (KERNEL_DY (d_metadata dictionary)) 0) in
   calibVersion <- lookup (bfk_VERSION (d_metadata dictionary)) "bfk_VERSION" ;;
   calib <-
     (if PrimFloat.eqb calibVersion 1.0 then
        means <- lookup (d_means dictionary) "means" ;;
        newMask <- comp_over means (fun l => OK (repeat true (length l))) ;;
        newMeans <- comp_over means (fun l => OK l) ;;
        variances <- lookup (d_variances dictionary) "variances" ;;
        newVariances <- comp_over variances (fun l => OK l) ;;
        OK (set_rawVariances
              (set_rawMeans (set_expIdMask calib newMask) newMeans) newVariances)
      else if PrimFloat.eqb calibVersion 1.1 then
        masks <- lookup (d_expIdMask dictionary) "expIdMask" ;;
        newMask <- comp_over masks (fun l => OK l) ;;
        means <- lookup (d_rawMeans dictionary) "rawMeans" ;;
        newMeans <- comp_over means (fun l => OK l) ;;
        variances <- lookup (d_rawVariances dictionary) "rawVariances" ;;
        newVariances <- comp_over variances (fun l => OK l) ;;
        OK (set_rawVariances
              (set_rawMeans (set_expIdMask calib newMask) newMeans) newVariances)
      else Raise (UnknownVersion calibVersion)) ;;
   '(_, smallLength, nObs) <- getLengths calib ;;
   smallShapeSide <- int_sqrt smallLength ;;
   newXcorrs <- comp_over (d_rawXcorrs dictionary)
                  (fun l => a <- reshape (np_array_flat l)
                                   [Z.of_nat nObs; smallShapeSide; smallShapeSide] ;;
                            OK (NdArray a)) ;;
   let calib := set_rawXcorrs calib newXcorrs in
   let calib := set_gain calib (d_gain dictionary) in
   let calib := set_noise calib (d_noise dictionary) in
   newMeanXcorrs <- dict_comp
                      (fun amp => l <- getitem (d_meanXcorrs dictionary) amp ;;
                                  reshape (np_array_flat l)
                                    [fst (shape calib); snd (shape calib)])
                      (keys (d_rawXcorrs dictionary)) ;;
   let calib := set_meanXcorrs calib newMeanXcorrs in
   newAmpKernels <- comp_over (d_ampKernels dictionary)
                      (fun l => reshape (np_array_flat l)
                                  [fst (shape calib); snd (shape calib)]) ;;
   let calib := set_ampKernels calib newAmpKernels in
   let calib := set_valid calib
                  (dict_of_items
                     (map (fun kv => (fst kv, PyBool (py_bool (snd kv))))
                        (d_valid dictionary))) in
   let calib := set_badAmps calib
                  (map fst (filter (fun kv => is_False (snd kv))
                              (d_valid dictionary))) in
   newDetKernels <- comp_over (d_detKernels dictionary)
                      (fun l => reshape (np_array_flat l)
                                  [fst (shape calib); snd (shape calib)]) ;;
   let calib := set_detKernels calib newDetKernels in
   OK (updateMetadata calib))%result.

(** ** The tabular form *)

(** The amplifier table: one entry of every column per row.  A table
    written for schema 1.0 carries [MEANS] and [VARIANCES]; one written for
    schema 1.1 carries [EXP_ID_MASK], [RAW_MEANS] and [RAW_VARIANCES]. *)
Record AmpTable : Type := mkAmpTable {
  amp_meta : Metadata;
  AMPLIFIER : list string;
  EXP_ID_MASK : option (list (list bool));
  RAW_MEANS : option (list (list float));
  RAW_VARIANCES : option (list (list float));
  MEANS : option (list (list float));
  VARIANCES : option (list (list float));
  RAW_XCORRS : list (list float);
  GAIN : list float;
  NOISE : list float;
  MEAN_XCORRS : list (list float);
  KERNEL : list (list float);
  VALID : list Z
}.

Record DetTable : Type := mkDetTable {
  det_meta : Metadata;
  DETECTOR : list string;
  det_KERNEL : list (list float)
}.

(** A list of tables: the amplifier table, then possibly the detector
    table. *)
Record TableList : Type := mkTableList {
  ampTable : AmpTable;
  detTable : option DetTable
}.

(** The dictionary [fromTable] hands to [fromDict]. *)
Definition fromTable_inDict (tableList : TableList) : result Dictionary :=
  (let ampTable := ampTable tableList in
   let metadata := amp_meta ampTable in
   let amps := AMPLIFIER ampTable in
   calibVersion <- lookup (bfk_VERSION metadata) "bfk_VERSION" ;;
   '(inMeans, inVariances, inMask, inRawMeans, inRawVariances) <-
     (if PrimFloat.eqb calibVersion 1.0 then
        rawMeanList <- lookup (MEANS ampTable) "MEANS" ;;
        rawVarianceList <- lookup (VARIANCES ampTable) "VARIANCES" ;;
        OK (Some (dict_zip amps rawMeanList),
            Some (dict_zip amps rawVarianceList), None, None, None)
      else if PrimFloat.eqb calibVersion 1.1 then
        expIdMaskList <- lookup (EXP_ID_MASK ampTable) "EXP_ID_MASK" ;;
        rawMeanList <- lookup (RAW_MEANS ampTable) "RAW_MEANS" ;;
        rawVarianceList <- lookup (RAW_VARIANCES ampTable) "RAW_VARIANCES" ;;
        OK (None, None, Some (dict_zip amps expIdMaskList),
            Some (dict_zip amps rawMeanList),
            Some (dict_zip amps rawVarianceList))
      else Raise (UnknownVersion calibVersion)) ;;
   let inValid :=
     dict_zip amps (map (fun v => PyBool (py_bool (PyInt v))) (VALID ampTable)) in
   OK {| d_metadata := metadata;
         d_expIdMask := inMask;
         d_rawMeans := inRawMeans;
         d_rawVariances := inRawVariances;
         d_means := inMeans;
         d_variances := inVariances;
         d_rawXcorrs := dict_zip amps (RAW_XCORRS ampTable);
         d_badAmps := map fst (filter (fun kv => is_False (snd kv)) inValid);
         d_gain := dict_zip amps (GAIN ampTable);
         d_noise := dict_zip amps (NOISE ampTable);
         d_meanXcorrs := dict_zip amps (MEAN_XCORRS ampTable);
         d_ampKernels := dict_zip amps (KERNEL ampTable);
         d_valid := inValid;
         d_detKernels :=
           match detTable tableList with
           | Some detTable => dict_zip (DETECTOR detTable) (det_KERNEL detTable)
           | None => []
           end |})%result.

Definition fromTable (tableList : TableList) : result BrighterFatterKernel :=
  (inDict <- fromTable_inDict tableList ;; fromDict inDict)%result.

(** What one pass of the loop over amplifiers in [toTable] appends to the
    ten column lists. *)
Record AmpRow : Type := mkAmpRow {
  row_amp : string;
  row_expIdMask : list bool;
  row_rawMean : list float;
  row_rawVariance : list float;
  row_rawXcorrs : list float;
  row_gain : float;
  row_noise : float;
  row_meanXcorrs : list float;
  row_kernel : list float;
  row_valid : Z
}.

Definition toTable_row (kernelLength smallLength : Z) (nObs : nat) (amp : string)
  : M AmpRow :=
  (self <- mget ;;
   mask <- mlift (getitem (expIdMask self) amp) ;;
   mean <- mlift (getitem (rawMeans self) amp) ;;
   variance <- mlift (getitem (rawVariances self) amp) ;;
   _ <- checkRepack amp nObs ;;
   self <- mget ;;
   xcorrs <- mlift (x <- getitem (rawXcorrs self) amp ;;
                    a <- np_array x ;;
                    ravel (Z.of_nat nObs * smallLength) a)%result ;;
   g <- mlift (getitem (gain self) amp) ;;
   n <- mlift (getitem (noise self) amp) ;;
   mx <- mlift (a <- getitem (meanXcorrs self) amp ;; ravel kernelLength a)%result ;;
   k <- mlift (a <- getitem (ampKernels self) amp ;; ravel kernelLength a)%result ;;
   v <- mlift (getitem (valid self) amp) ;;
   mret {| row_amp := amp;
           row_expIdMask := mask;
           row_rawMean := mean;
           row_rawVariance := variance;
           row_rawXcorrs := xcorrs;
           row_gain := g;
           row_noise := n;
           row_meanXcorrs := mx;
           row_kernel := k;
           row_valid :=
             py_int (py_and v (PyBool (negb (py_in amp (badAmps self))))) |})%method.

Definition toTable : M TableList :=
  (_ <- mmodify updateMetadata ;;
   self <- mget ;;
   '(kernelLength, smallLength, nObs) <- mlift (getLengths self) ;;
   rows <- (if level_eqb (level self) "AMP"
            then forM (keys (rawMeans self))
                   (toTable_row kernelLength smallLength nObs)
            else mret []) ;;
   self <- mget ;;
   let ampTable :=
     {| amp_meta := getMetadata self;
        AMPLIFIER := map row_amp rows;
        EXP_ID_MASK := Some (map row_expIdMask rows);
        RAW_MEANS := Some (map row_rawMean rows);
        RAW_VARIANCES := Some (map row_rawVariance rows);
        MEANS := None;
        VARIANCES := None;
        RAW_XCORRS := map row_rawXcorrs rows;
        GAIN := map row_gain rows;
        NOISE := map row_noise rows;
        MEAN_XCORRS := map row_meanXcorrs rows;
        KERNEL := map row_kernel rows;
        VALID := map row_valid rows |} in
   if (0 <? length (detKernels self))%nat then
     kernelList <- mlift (mapM (fun det => a <- getitem (detKernels self) det ;;
                                           ravel kernelLength a)%result
                            (keys (detKernels self))) ;;
     mret {| ampTable := ampTable;
             detTable := Some {| det_meta := getMetadata self;
                                 DETECTOR := keys (detKernels self);
                                 det_KERNEL := kernelList |} |}
   else mret {| ampTable := ampTable; detTable := None |})%method.

(** ** makeDetectorKernelFromAmpwiseKernels *)

(** The multi-indices of an array of the given shape, in row-major order,
    and the position of a multi-index in the buffer. *)
Fixpoint indices (sh : list nat) : list (list nat) :=
  match sh with
  | [] => [[]]
  | n :: rest => flat_map (fun i => map (cons i) (indices rest)) (seq 0 n)
  end.

Definition offset (sh idx : list nat) : nat :=
  fold_left (fun acc ni => (acc * fst ni + snd ni)%nat) (combine sh idx) 0%nat.

(** [np.transpose(a)]: the axes in reverse order. *)
Definition np_transpose (a : ndarray) : ndarray :=
  mkArray (rev (arr_shape a))
    (map (fun idx => nth (offset (arr_shape a) (rev idx)) (arr_data a) nan)
       (indices (rev (arr_shape a)))).

(** [np.zeros_like(a)] *)
Definition np_zeros_like (a : ndarray) : ndarray :=
  mkArray (arr_shape a) (repeat 0%float (length (arr_data a))).

(** [a[i, j] = v] for [a] of shape [(rows, cols, ...)] *)
Definition arr_setitem2 (a : ndarray) (i j : nat) (v : float) : ndarray :=
  match arr_shape a with
  | _ :: cols :: rest =>
      let width := nprod rest in
      let start := ((i * cols + j) * width)%nat in
      mkArray (arr_shape a)
        (firstn start (arr_data a) ++ repeat v width
           ++ skipn (start + width) (arr_data a))
  | _ => a
  end.

(** [for x in range(n): acc = body(x, acc)] *)
Fixpoint for_range {A} (l : list nat) (body : nat -> A -> result A) (acc : A)
  : result A :=
  match l with
  | [] => OK acc
  | x :: l' => (acc' <- body x acc ;; for_range l' body acc')%result
  end.

Section Aggregation.

(** [afwMath.makeStatistics(v, afwMath.MEANCLIP, sctrl).getValue()] with
    the clip threshold of [sctrl] set to 5.0: the statistics primitive of
    another package, taken as given. *)
Variable MEANCLIP : ndarray -> float.

Definition makeDetectorKernelFromAmpwiseKernels
  (detectorName : string) (ampsToExclude : list string) : M unit :=
  fun self =>
    match
      (inKernels <- np_stack
                      (map snd (filter (fun kv => negb (py_in (fst kv) ampsToExclude))
                                  (ampKernels self))) ;;
       let averagingList := np_transpose inKernels in
       first <- arr_getitem inKernels 0 ;;
       let avgKernel := np_zeros_like first in
       rows <- tuple_getitem (arr_shape avgKernel) 0 ;;
       for_range (seq 0 rows)
         (fun i avgKernel =>
            cols <- tuple_getitem (arr_shape avgKernel) 1 ;;
            for_range (seq 0 cols)
              (fun j avgKernel =>
                 ai <- arr_getitem averagingList i ;;
                 aij <- arr_getitem ai j ;;
                 OK (arr_setitem2 avgKernel i j (MEANCLIP aij)))
              avgKernel)
         avgKernel)%result
    with
    | OK avgKernel =>
        (set_detKernels self (dict_set (detKernels self) detectorName avgKernel),
         OK tt)
    | Raise e => (self, Raise e)
    end.

End Aggregation.

(** ** Predicates of the statements *)

(** [x], held in [rawXcorrs], already has the observation count of [self]
    as its leading length. *)
Definition at_full_length (self : BrighterFatterKernel) (x : pyseq) : Prop :=
  forall kernelLength smallLength nObs,
    getLengths self = OK (kernelLength, smallLength, nObs) ->
    exists a, np_array x = OK a /\ tuple_getitem (arr_shape a) 0 = OK nObs.

(** Every [rawXcorrs[amp]] is at full length. *)
Definition full_length (self : BrighterFatterKernel) : Prop :=
  forall amp x, dict_get (rawXcorrs self) amp = Some x -> at_full_length self x.

(** The [VALID] entry of [amp]: 1 when [valid[amp]] is true and [amp] is
    not listed in [badAmps], 0 otherwise. *)
Definition valid_and_not_bad (self : BrighterFatterKernel) (amp : string)
  (column : Z) : Prop :=
  exists v, dict_get (valid self) amp = Some v
            /\ column = if py_bool v && negb (py_in amp (badAmps self))
                        then 1 else 0.

(** The buffer [np.array(x)] holds. *)
Definition xcorr_data (x : pyseq) : list float :=
  match x with
  | PyList l => concat (map arr_data l)
  | NdArray a => arr_data a
  end.

(** [np.array(x)], where it exists. *)
Definition as_array (x : pyseq) : pyseq :=
  match np_array x with
  | OK a => NdArray a
  | Raise _ => x
  end.

(** [a] is an array of the kernel shape of [self]. *)
Definition kernel_shaped (self : BrighterFatterKernel) (a : ndarray) : Prop :=
  arr_shape a = [Z.to_nat (fst (shape self)); Z.to_nat (snd (shape self))]
  /\ array_wf a.

(** A populated calibration at level ['AMP'] with [nObs] observation pairs
    per amplifier: the invariants of the data model, for a shape whose
    lengths binary64 computes exactly. *)
Record populated (self : BrighterFatterKernel) (nObs : nat) : Prop := {
  pop_level : level self = LevelStr "AMP";
  pop_shape : 0 < fst (shape self) /\ 0 < snd (shape self);
  (* the division by 4 is exact in binary64 *)
  pop_exact : (fst (shape self) - 1) * (snd (shape self) - 1) < 2 ^ 53;
  (* the small arrays are square: side * side = smallLength *)
  pop_square :
    let smallLength := Z.quot ((fst (shape self) - 1) * (snd (shape self) - 1)) 4 in
    nObs = 0%nat \/ Z.sqrt smallLength * Z.sqrt smallLength = smallLength;
  (* Python dicts: no key twice *)
  pop_wf_expIdMask : dict_wf (expIdMask self);
  pop_wf_rawMeans : dict_wf (rawMeans self);
  pop_wf_rawVariances : dict_wf (rawVariances self);
  pop_wf_rawXcorrs : dict_wf (rawXcorrs self);
  pop_wf_meanXcorrs : dict_wf (meanXcorrs self);
  pop_wf_ampKernels : dict_wf (ampKernels self);
  pop_wf_valid : dict_wf (valid self);
  pop_wf_detKernels : dict_wf (detKernels self);
  (* one observation count for all amplifiers, and at least one amplifier *)
  pop_amps : rawMeans self <> [];
  pop_nObs : forall amp l, In (amp, l) (rawMeans self) -> length l = nObs;
  (* one entry per amplifier in the per-amplifier mappings *)
  pop_keys : keys (meanXcorrs self) = keys (rawXcorrs self);
  (* rawXcorrs[amp] is an array, or a list, of nObs small square arrays *)
  pop_rawXcorrs :
    let smallLength := Z.quot ((fst (shape self) - 1) * (snd (shape self) - 1)) 4 in
    let side := Z.to_nat (Z.sqrt smallLength) in
    forall amp x, In (amp, x) (rawXcorrs self) ->
      exists a, np_array x = OK a /\ arr_shape a = [nObs; side; side]
                /\ array_wf a;
  (* the kernel arrays have the shape of the calibration *)
  pop_meanXcorrs :
    forall amp a, In (amp, a) (meanXcorrs self) -> kernel_shaped self a;
  pop_ampKernels :
    forall amp a, In (amp, a) (ampKernels self) -> kernel_shaped self a;
  pop_detKernels :
    forall det a, In (det, a) (detKernels self) -> kernel_shaped self a;
  (* valid holds booleans, and badAmps lists the amplifiers that are not valid *)
  pop_valid : forall amp v, In (amp, v) (valid self) -> exists b, v = PyBool b;
  pop_badAmps :
    badAmps self = map fst (filter (fun kv => is_False (snd kv)) (valid self))
}.

(** The mapping form of a calibration whose arrays need no repacking:
    every array replaced by its row-major buffer. *)
Definition mapping_of (self : BrighterFatterKernel) : Dictionary :=
  {| d_metadata := getMetadata (updateMetadata self);
     d_expIdMask := Some (expIdMask self);
     d_rawMeans := Some (rawMeans self);
     d_rawVariances := Some (rawVariances self);
     d_means := None;
     d_variances := None;
     d_rawXcorrs := map (fun kv => (fst kv, xcorr_data (snd kv))) (rawXcorrs self);
     d_badAmps := badAmps self;
     d_gain := gain self;
     d_noise := noise self;
     d_meanXcorrs := map (fun kv => (fst kv, arr_data (snd kv))) (meanXcorrs self);
     d_ampKernels := map (fun kv => (fst kv, arr_data (snd kv))) (ampKernels self);
     d_valid := valid self;
     d_detKernels := map (fun kv => (fst kv, arr_data (snd kv))) (detKernels self) |}.

(** [np.array(v)] exists and has [n] as its leading length. *)
Definition leading (v : pyseq) (n : nat) : Prop :=
  exists a, np_array v = OK a /\ tuple_getitem (arr_shape a) 0 = OK n.

(** The elements of [l] at the positions where [mask] holds [keep]:
    [np.array(l)[mask]] for [keep = true]. *)
Fixpoint compress (keep : bool) (mask : list bool) (l : list ndarray)
  : list ndarray :=
  match mask, l with
  | b :: mask', a :: l' =>
      if Bool.eqb b keep then a :: compress keep mask' l'
      else compress keep mask' l'
  | _, _ => []
  end.

(** The first [n] elements of [x]: [x[0], ..., x[n-1]]. *)
Definition first_elements (x : pyseq) (n : nat) : result (list ndarray) :=
  mapM (seq_getitem x) (seq 0 n).

(** Every mask has the observation count of [self] as its length. *)
Definition masks_at_length (self : BrighterFatterKernel) : Prop :=
  forall kernelLength smallLength nObs,
    getLengths self = OK (kernelLength, smallLength, nObs) ->
    forall amp mask,
      dict_get (expIdMask self) amp = Some mask -> length mask = nObs.

(** Every per-amplifier mapping of [self] lists the amplifiers of
    [rawMeans], in the same order. *)
Definition per_amplifier (self : BrighterFatterKernel) : Prop :=
  keys (expIdMask self) = keys (rawMeans self)
  /\ keys (rawVariances self) = keys (rawMeans self)
  /\ keys (rawXcorrs self) = keys (rawMeans self)
  /\ keys (gain self) = keys (rawMeans self)
  /\ keys (noise self) = keys (rawMeans self)
  /\ keys (ampKernels self) = keys (rawMeans self)
  /\ keys (valid self) = keys (rawMeans self).

(** [d[k]] for a key [k] of [d]. *)
Definition entry {V} (d : dict V) (k : string) (default : V) : V :=
  match dict_get d k with
  | Some v => v
  | None => default
  end.

(** The tabular form of a calibration whose arrays need no repacking: one
    row per amplifier of [rawMeans], every array replaced by its row-major
    buffer, and the detector table when there is a detector kernel. *)
Definition row_of (self : BrighterFatterKernel) (amp : string) : AmpRow :=
  {| row_amp := amp;
     row_expIdMask := entry (expIdMask self) amp [];
     row_rawMean := entry (rawMeans self) amp [];
     row_rawVariance := entry (rawVariances self) amp [];
     row_rawXcorrs := xcorr_data (entry (rawXcorrs self) amp (PyList []));
     row_gain := entry (gain self) amp nan;
     row_noise := entry (noise self) amp nan;
     row_meanXcorrs := arr_data (entry (meanXcorrs self) amp (mkArray [] []));
     row_kernel := arr_data (entry (ampKernels self) amp (mkArray [] []));
     row_valid := if py_bool (entry (valid self) amp (PyBool false))
                     && negb (py_in amp (badAmps self))
                  then 1 else 0 |}.

Definition table_of (self : BrighterFatterKernel) : TableList :=
  let rows := map (row_of self) (keys (rawMeans self)) in
  {| ampTable :=
       {| amp_meta := getMetadata (updateMetadata self);
          AMPLIFIER := map row_amp rows;
          EXP_ID_MASK := Some (map row_expIdMask rows);
          RAW_MEANS := Some (map row_rawMean rows);
          RAW_VARIANCES := Some (map row_rawVariance rows);
          MEANS := None;
          VARIANCES := None;
          RAW_XCORRS := map row_rawXcorrs rows;
          GAIN := map row_gain rows;
          NOISE := map row_noise rows;
          MEAN_XCORRS := map row_meanXcorrs rows;
          KERNEL := map row_kernel rows;
          VALID := map row_valid rows |};
     detTable :=
       match detKernels self with
       | [] => None
       | _ :: _ =>
           Some {| det_meta := getMetadata (updateMetadata self);
                   DETECTOR := keys (detKernels self);
                   det_KERNEL :=
                     map (fun det =>
                            arr_data (entry (detKernels self) det (mkArray [] [])))
                       (keys (detKernels self)) |}
       end |}.

(** The kernels [makeDetectorKernelFromAmpwiseKernels] averages: those of
    the amplifiers that are not excluded, in the order of [ampKernels]. *)
Definition kept_kernels (self : BrighterFatterKernel)
  (ampsToExclude : list string) : list ndarray :=
  map snd (filter (fun kv => negb (py_in (fst kv) ampsToExclude))
             (ampKernels self)).

(** [a[i, j]] for a two-dimensional array. *)
Definition arr_at2 (a : ndarray) (i j : nat) : float :=
  nth (i * nth 1 (arr_shape a) 0%nat + j) (arr_data a) nan.

(** [np.array([a[i, j] for a in l])] *)
Definition samples_at (l : list ndarray) (i j : nat) : ndarray :=
  mkArray [length l] (map (fun a => arr_at2 a i j) l).

(** The accumulator [avgKernel] of shape [(r, c)] after the first [p]
    assignments of the two loops, in row-major order: coordinate [(i, j)]
    holds the clipped mean of the kernels' values at [(j, i)]. *)
Definition averaged_upto (MEANCLIP : ndarray -> float) (l : list ndarray)
  (r c p : nat) : ndarray :=
  mkArray [r; c]
    (map (fun q => MEANCLIP (samples_at l (q mod c) (q / c))) (seq 0 p)
       ++ repeat 0%float (r * c - p)).

(** ** Example calibrations and mappings *)

(** Two amplifiers whose [rawMeans] have 10 and 12 entries. *)
Definition calib_10_12 : BrighterFatterKernel :=
  set_rawMeans (new (LevelStr "AMP"))
    [("C00", repeat 1.0%float 10); ("C01", repeat 1.0%float 12)].

(** A 1 x 1 array holding [v]. *)
Definition arr11 (v : float) : ndarray := mkArray [1%nat; 1%nat] [v].

(** One amplifier with five observation pairs of which the second and the
    fourth were rejected, and the three remaining correlations compacted. *)
Definition calib_masked : BrighterFatterKernel :=
  {| metadata := mkMetadata None None None None None;
     level := LevelStr "AMP";
     expIdMask := [("C00", [true; false; true; false; true])];
     rawMeans := [("C00", [1.0; 2.0; 3.0; 4.0; 5.0]%float)];
     rawVariances := [("C00", [0.1; 0.2; 0.3; 0.4; 0.5]%float)];
     rawXcorrs := [("C00", PyList [arr11 1.0; arr11 2.0; arr11 3.0])];
     badAmps := [];
     shape := (3, 3);
     gain := [("C00", 1.5%float)];
     noise := [("C00", 7.0%float)];
     meanXcorrs := [("C00", mkArray [3%nat; 3%nat] (repeat 0.5%float 9))];
     valid := [("C00", PyBool true)];
     ampKernels := [("C00", mkArray [3%nat; 3%nat] (repeat 0.25%float 9))];
     detKernels := [] |}.

(** The mapping of the migration example: schema 1.0, one amplifier with
    two observation pairs, kernels of shape (3, 3). *)
Definition dict_v10 : Dictionary :=
  {| d_metadata := mkMetadata (Some "bfk") (Some 1.0%float)
                     (Some (LevelStr "AMP")) (Some 3) (Some 3);
     d_expIdMask := None;
     d_rawMeans := None;
     d_rawVariances := None;
     d_means := Some [("A", [1.0; 2.0]%float)];
     d_variances := Some [("A", [0.1; 0.2]%float)];
     d_rawXcorrs := [("A", [0.01; 0.02]%float)];
     d_badAmps := [];
     d_gain := [("A", 1.5%float)];
     d_noise := [("A", 7.0%float)];
     d_meanXcorrs := [("A", repeat 0.5%float 9)];
     d_ampKernels := [("A", repeat 0.25%float 9)];
     d_valid := [("A", PyBool true)];
     d_detKernels := [] |}.


(** The amplifier table of the same calibration written for schema 1.1,
    and the table list holding it alone. *)
Definition amp_table_v11 (version : float) : AmpTable :=
  {| amp_meta := mkMetadata (Some "bfk") (Some version)
                   (Some (LevelStr "AMP")) (Some 3) (Some 3);
     AMPLIFIER := ["A"];
     EXP_ID_MASK := Some [[true; true]];
     RAW_MEANS := Some [[1.0; 2.0]%float];
     RAW_VARIANCES := Some [[0.1; 0.2]%float];
     MEANS := None;
     VARIANCES := None;
     RAW_XCORRS := [[0.01; 0.02]%float];
     GAIN := [1.5%float];
     NOISE := [7.0%float];
     MEAN_XCORRS := [repeat 0.5%float 9];
     KERNEL := [repeat 0.25%float 9];
     VALID := [1] |}.

Definition tables_v11 (version : float) : TableList :=
  {| ampTable := amp_table_v11 version; detTable := None |}.


(** Three amplifiers: [C00] valid, [C01] valid but listed as bad, [C02]
    invalid. *)
Definition calib_three : BrighterFatterKernel :=
  {| metadata := mkMetadata None None None None None;
     level := LevelStr "AMP";
     expIdMask := [("C00", [true]); ("C01", [true]); ("C02", [true])];
     rawMeans := [("C00", [1.0%float]); ("C01", [1.0%float]); ("C02", [1.0%float])];
     rawVariances := [("C00", [0.1%float]); ("C01", [0.1%float]);
                      ("C02", [0.1%float])];
     rawXcorrs := [("C00", NdArray (mkArray [1; 1; 1]%nat [0.01%float]));
                   ("C01", NdArray (mkArray [1; 1; 1]%nat [0.01%float]));
                   ("C02", NdArray (mkArray [1; 1; 1]%nat [0.01%float]))];
     badAmps := ["C01"];
     shape := (3, 3);
     gain := [("C00", 1.5%float); ("C01", 1.5%float); ("C02", 1.5%float)];
     noise := [("C00", 7.0%float); ("C01", 7.0%float); ("C02", 7.0%float)];
     meanXcorrs := [("C00", mkArray [3%nat; 3%nat] (repeat 0.5%float 9));
                    ("C01", mkArray [3%nat; 3%nat] (repeat 0.5%float 9));
                    ("C02", mkArray [3%nat; 3%nat] (repeat 0.5%float 9))];
     valid := [("C00", PyBool true); ("C01", PyBool true); ("C02", PyBool false)];
     ampKernels := [("C00", mkArray [3%nat; 3%nat] (repeat 0.25%float 9));
                    ("C01", mkArray [3%nat; 3%nat] (repeat 0.25%float 9));
                    ("C02", mkArray [3%nat; 3%nat] (repeat 0.25%float 9))];
     detKernels := [] |}.

(** A calibration holding the given amplifier kernels and nothing else. *)
Definition with_ampKernels (kernels : dict ndarray) : BrighterFatterKernel :=
  set_ampKernels (new (LevelStr "AMP")) kernels.

(** Five 3 x 3 kernels [[0, 1, 2], [3, 4, 5], [6, 7, 8]], the last one
    offset by 1000 at every coordinate. *)
Definition kernel_3x3 : ndarray :=
  mkArray [3; 3]%nat [0; 1; 2; 3; 4; 5; 6; 7; 8]%float.

Definition kernel_3x3_offset : ndarray :=
  mkArray [3; 3]%nat
    [1000; 1001; 1002; 1003; 1004; 1005; 1006; 1007; 1008]%float.

Definition calib_outlier_3x3 : BrighterFatterKernel :=
  with_ampKernels
    [("C00", kernel_3x3); ("C01", kernel_3x3); ("C02", kernel_3x3);
     ("C03", kernel_3x3); ("C04", kernel_3x3_offset)].

(** Five 3 x 4 kernels of ones, the last one offset by 1000. *)
Definition calib_outlier_3x4 : BrighterFatterKernel :=
  with_ampKernels
    [("C00", mkArray [3; 4]%nat (repeat 1%float 12));
     ("C01", mkArray [3; 4]%nat (repeat 1%float 12));
     ("C02", mkArray [3; 4]%nat (repeat 1%float 12));
     ("C03", mkArray [3; 4]%nat (repeat 1%float 12));
     ("C04", mkArray [3; 4]%nat (repeat 1001%float 12))].

(** The values of four agreeing amplifiers and the offset one at a
    coordinate where the common kernel holds [v] and the offset one [w]. *)
Definition samples (v w : float) : ndarray :=
  mkArray [5%nat] [v; v; v; v; w].

(** [calib_three] with [badAmps] listing the one invalid amplifier. *)
Definition calib_consistent : BrighterFatterKernel :=
  set_badAmps calib_three ["C02"].

(** Kernels of shape (4, 4), for which [smallLength] is 2, with one
    observation pair: the correlations of the pair held as a 1 x 2 array,
    and as a 1 x 1 array. *)
Definition calib_4x4 (small : ndarray) : BrighterFatterKernel :=
  {| metadata := mkMetadata None None None None None;
     level := LevelStr "AMP";
     expIdMask := [("C00", [true])];
     rawMeans := [("C00", [1.0%float])];
     rawVariances := [("C00", [0.1%float])];
     rawXcorrs := [("C00", PyList [small])];
     badAmps := [];
     shape := (4, 4);
     gain := [("C00", 1.5%float)];
     noise := [("C00", 7.0%float)];
     meanXcorrs := [("C00", mkArray [4%nat; 4%nat] (repeat 0.5%float 16))];
     valid := [("C00", PyBool true)];
     ampKernels := [("C00", mkArray [4%nat; 4%nat] (repeat 0.25%float 16))];
     detKernels := [] |}.

(** One amplifier whose two observation pairs were both rejected, the
    compacted correlations being the empty list. *)
Definition calib_all_masked : BrighterFatterKernel :=
  set_rawXcorrs
    (set_rawVariances
       (set_rawMeans
          (set_expIdMask calib_masked [("C00", [false; false])])
          [("C00", [1.0; 2.0]%float)])
       [("C00", [0.1; 0.2]%float)])
    [("C00", PyList [])].

(** The mapping [d] with another list under ['badAmps']. *)
Definition with_badAmps (d : Dictionary) (l : list string) : Dictionary :=
  mkDictionary (d_metadata d) (d_expIdMask d) (d_rawMeans d) (d_rawVariances d)
    (d_means d) (d_variances d) (d_rawXcorrs d) l (d_gain d) (d_noise d)
    (d_meanXcorrs d) (d_ampKernels d) (d_valid d) (d_detKernels d).

(** [fromDict(x.toDict())] *)
Definition roundtrip (x : BrighterFatterKernel) : result BrighterFatterKernel :=
  (d <- outcome (toDict x) ;; fromDict d)%result.

(** [calib_consistent] relabelled as a detector-level calibration. *)
Definition calib_detector_level : BrighterFatterKernel :=
  set_level calib_consistent (LevelStr "DETECTOR").

(** A statistic to stand for the clipped mean in examples: the first
    sample. *)
Definition first_sample (a : ndarray) : float := nth 0 (arr_data a) nan.

(** [calib_masked] with a mask of four kept observation pairs, one more
    than there are compacted correlations. *)
Definition calib_short : BrighterFatterKernel :=
  set_expIdMask calib_masked [("C00", [true; true; true; true; false])].

(** * Properties *)

(** ** Outcomes *)

Lemma rbind_ok {A B} (r : result A) (k : A -> result B) (b : B) :
  rbind r k = OK b -> exists a, r = OK a /\ k a = OK b.
Proof.
  destruct r as [a|e]; simpl; intros H; [eauto | discriminate].
Qed.

(** ** getLengths *)

Lemma py_set_constant (l : list nat) (n : nat) :
  l <> [] -> (forall m, In m l -> m = n) -> py_set l = [n].
Proof.
  unfold py_set. induction l as [|m l IH]; intros Hne Hall; [congruence|].
  simpl. assert (m = n) by (apply Hall; left; reflexivity). subst m.
  destruct (in_dec Nat.eq_dec n l) as [Hin|Hnin].
  - apply IH; [intros ->; destruct Hin | intros m Hm; apply Hall; right; exact Hm].
  - destruct l as [|m' l'].
    + reflexivity.
    + exfalso. apply Hnin. left. apply Hall. right. left. reflexivity.
Qed.

Lemma py_set_singleton (l : list nat) :
  length (py_set l) = 1%nat -> forall m m', In m l -> In m' l -> m = m'.
Proof.
  unfold py_set. intros Hlen m m' Hm Hm'.
  apply (nodup_In Nat.eq_dec) in Hm, Hm'.
  destruct (nodup Nat.eq_dec l) as [|z [|z' t]]; simpl in *; try discriminate.
  intuition congruence.
Qed.

(** *** Binary64 arithmetic of the lengths *)

Lemma float_of_int_exact (p : Z) : Z.abs p < 2 ^ 53 -> float_of_int p = p.
Proof.
  intros H. unfold float_of_int. cbv zeta.
  assert (Hlog : Z.log2 (Z.abs p) + 1 - 53 <= 0).
  { destruct (Z.eq_dec (Z.abs p) 0) as [E|E].
    - rewrite E. simpl. lia.
    - assert (Z.log2 (Z.abs p) < 53) by (apply Z.log2_lt_pow2; lia). lia. }
  apply Z.leb_le in Hlog. rewrite Hlog. reflexivity.
Qed.

Lemma int_truediv4_exact (p : Z) :
  Z.abs p < 2 ^ 53 -> int_truediv4 p = OK (Z.quot p 4).
Proof.
  intros H. unfold int_truediv4. cbv zeta. rewrite (float_of_int_exact p H).
  assert (Hr : (2 ^ 1026 <=? Z.abs p) = false).
  { apply Z.leb_gt. apply (Z.lt_trans _ (2 ^ 53)); [exact H|].
    apply Z.pow_lt_mono_r; lia. }
  rewrite Hr. reflexivity.
Qed.

Lemma int_truediv4_inv (p smallLength : Z) :
  int_truediv4 p = OK smallLength ->
  smallLength = Z.quot (float_of_int p) 4
  /\ Z.abs (float_of_int p) < 2 ^ 1026.
Proof.
  unfold int_truediv4. cbv zeta.
  destruct (2 ^ 1026 <=? Z.abs (float_of_int p)) eqn:E; [discriminate|].
  intros H. injection H as <-. apply Z.leb_gt in E. split; [reflexivity | exact E].
Qed.

Lemma int_truediv4_raises (p : Z) (e : exn) :
  int_truediv4 p = Raise e ->
  e = OverflowError /\ 2 ^ 1026 <= Z.abs (float_of_int p).
Proof.
  unfold int_truediv4. cbv zeta.
  destruct (2 ^ 1026 <=? Z.abs (float_of_int p)) eqn:E; [|discriminate].
  intros H. injection H as <-. apply Z.leb_le in E. split; [reflexivity | exact E].
Qed.

Lemma int_sqrt_exact (n : Z) :
  0 <= n < 2 ^ 52 -> int_sqrt n = OK (Z.sqrt n).
Proof.
  intros [H0 H1]. unfold int_sqrt.
  rewrite (proj2 (Z.ltb_ge n 0) H0).
  assert (H64 : (2 ^ 64 <=? n) = false) by (apply Z.leb_gt; lia).
  rewrite H64. cbv zeta.
  rewrite (float_of_int_exact n) by lia.
  destruct (Z.sqrt n * Z.sqrt n =? n) eqn:Esq; [reflexivity|].
  apply Z.eqb_neq in Esq.
  pose proof (Z.sqrt_spec n H0) as [Hlo Hhi].
  set (k := Z.sqrt n) in *.
  assert (Hk1 : 1 <= k).
  { destruct (Z.eq_dec k 0) as [E|E]; [|pose proof (Z.sqrt_nonneg n); lia].
    exfalso. rewrite E in *. assert (n = 0) by lia. subst n. apply Esq.
    reflexivity. }
  assert (Hk26 : k < 2 ^ 26) by nia.
  assert (He : Z.log2 k < 26) by (apply Z.log2_lt_pow2; lia).
  pose proof (Z.log2_nonneg k) as He0.
  pose proof (Z.log2_spec k ltac:(lia)) as [_ Hup].
  set (e := Z.log2 k) in *.
  assert (Hpow : 2 * 2 ^ (Z.succ e) <= 2 ^ (53 - e)).
  { replace (2 * 2 ^ Z.succ e) with (2 ^ (Z.succ (Z.succ e)))
      by (rewrite (Z.pow_succ_r 2 (Z.succ e)) by lia; reflexivity).
    apply Z.pow_le_mono_r; lia. }
  assert (HS : 0 < 2 ^ (53 - e)) by (apply Z.pow_pos_nonneg; lia).
  replace (2 ^ (2 * (53 - e))) with (2 ^ (53 - e) * 2 ^ (53 - e))
    by (rewrite <- Z.pow_add_r by lia; f_equal; lia).
  set (S := 2 ^ (53 - e)) in *.
  assert (Hno : (((k + 1) * S - 1) ^ 2 <? n * (S * S)) = false).
  { apply Z.ltb_ge. rewrite Z.pow_2_r. nia. }
  rewrite Hno. reflexivity.
Qed.

Lemma getLengths_common (self : BrighterFatterKernel) (nObs : nat) :
  level self = LevelStr "AMP" ->
  rawMeans self <> [] ->
  (forall amp l, In (amp, l) (rawMeans self) -> length l = nObs) ->
  Z.abs ((fst (shape self) - 1) * (snd (shape self) - 1)) < 2 ^ 53 ->
  getLengths self
  = OK (fst (shape self) * snd (shape self),
        Z.quot ((fst (shape self) - 1) * (snd (shape self) - 1)) 4,
        nObs).
Proof.
  intros Hl Hne Hall Hexact. unfold getLengths.
  rewrite (int_truediv4_exact _ Hexact). cbn [rbind].
  rewrite Hl. simpl level_eqb.
  rewrite (py_set_constant _ nObs).
  - reflexivity.
  - unfold values. destruct (rawMeans self); [congruence | discriminate].
  - intros m Hm. unfold values in Hm. rewrite map_map in Hm.
    apply in_map_iff in Hm. destruct Hm as [[amp l] [<- Hin]].
    eapply Hall. exact Hin.
Qed.

Lemma getLengths_other_level (self : BrighterFatterKernel) :
  level self <> LevelStr "AMP" ->
  getLengths self
  = (smallLength <- int_truediv4
                      ((fst (shape self) - 1) * (snd (shape self) - 1)) ;;
     OK (fst (shape self) * snd (shape self), smallLength, 0%nat))%result.
Proof.
  intros Hl. unfold getLengths.
  assert (E : level_eqb (level self) "AMP" = false).
  { destruct (level self) as [|l]; [reflexivity|]. simpl.
    destruct (String.eqb l "AMP") eqn:E; [|reflexivity].
    apply String.eqb_eq in E. subst l. congruence. }
  rewrite E. reflexivity.
Qed.

Lemma getLengths_inconsistent (self : BrighterFatterKernel) :
  level self = LevelStr "AMP" ->
  (rawMeans self = []
   \/ exists amp1 l1 amp2 l2,
        In (amp1, l1) (rawMeans self)
        /\ In (amp2, l2) (rawMeans self)
        /\ length l1 <> length l2) ->
  getLengths self
  = (_ <- int_truediv4 ((fst (shape self) - 1) * (snd (shape self) - 1)) ;;
     Raise InconsistentObservations)%result.
Proof.
  intros Hl Hbad. unfold getLengths. rewrite Hl. simpl level_eqb.
  destruct (int_truediv4 _) as [sl|e]; [|reflexivity]. cbn [rbind].
  destruct Hbad as [Hnil | [amp1 [l1 [amp2 [l2 [Hin1 [Hin2 Hneq]]]]]]].
  - rewrite Hnil. reflexivity.
  - destruct (length (py_set _) =? 1)%nat eqn:Hlen; [|reflexivity].
    exfalso. apply Hneq. apply Nat.eqb_eq in Hlen.
    eapply py_set_singleton; [exact Hlen | |].
    + unfold values. rewrite map_map. apply in_map_iff.
      exists (amp1, l1). split; [reflexivity | exact Hin1].
    + unfold values. rewrite map_map. apply in_map_iff.
      exists (amp2, l2). split; [reflexivity | exact Hin2].
Qed.

Lemma smallLength_floor (p : Z) : 0 <= p -> Z.quot p 4 = p / 4.
Proof.
  intros H. apply Z.quot_div_nonneg; lia.
Qed.

(** C3, as the code has it.  [kernelLength] is [shape[0]*shape[1]], and
    [smallLength] is [int((shape[0]-1)*(shape[1]-1)/4)]: the quotient as
    binary64 rounds it, truncated towards zero.  While the product
    [(shape[0]-1)*(shape[1]-1)] is below [2^53] in magnitude the division
    is exact and [smallLength] is the product divided by 4 and truncated
    towards zero, which is the floor when the product is not negative.
    There, [getLengths] returns [nObs = 0] at every level other than
    ['AMP'], and at level ['AMP'] the common length of the [rawMeans]
    sequences when there is an amplifier, and it raises the inconsistency
    error when [rawMeans] is empty or two amplifiers have [rawMeans] of
    different lengths.  For every shape, a triple that is returned holds
    the truncated quotient of the rounded product. *)
Theorem getLengths_spec (self : BrighterFatterKernel) :
  let kernelLength := fst (shape self) * snd (shape self) in
  let product := (fst (shape self) - 1) * (snd (shape self) - 1) in
  (Z.abs product < 2 ^ 53 ->
   (level self <> LevelStr "AMP" ->
    getLengths self = OK (kernelLength, Z.quot product 4, 0%nat))
   /\ (level self = LevelStr "AMP" ->
       forall nObs : nat,
         rawMeans self <> [] ->
         (forall amp l, In (amp, l) (rawMeans self) -> length l = nObs) ->
         getLengths self = OK (kernelLength, Z.quot product 4, nObs))
   /\ (level self = LevelStr "AMP" ->
       (rawMeans self = []
        \/ exists amp1 l1 amp2 l2,
             In (amp1, l1) (rawMeans self)
             /\ In (amp2, l2) (rawMeans self)
             /\ length l1 <> length l2) ->
       getLengths self = Raise InconsistentObservations)
   /\ (0 <= product -> Z.quot product 4 = product / 4))
  /\ (forall kl smallLength nObs,
        getLengths self = OK (kl, smallLength, nObs) ->
        kl = kernelLength
        /\ smallLength = Z.quot (float_of_int product) 4
        /\ Z.abs (float_of_int product) < 2 ^ 1026).
Proof.
  intros kernelLength product. subst kernelLength product. split.
  - intros Hexact. split; [|split; [|split]].
    + intros Hlevel. rewrite (getLengths_other_level self Hlevel).
      rewrite (int_truediv4_exact _ Hexact). reflexivity.
    + intros Hlevel nObs Hne Hall. apply getLengths_common; assumption.
    + intros Hlevel Hbad. rewrite (getLengths_inconsistent self Hlevel Hbad).
      rewrite (int_truediv4_exact _ Hexact). reflexivity.
    + apply smallLength_floor.
  - intros kl smallLength nObs H. unfold getLengths in H.
    apply rbind_ok in H. destruct H as [sl [Hsl H]].
    destruct (int_truediv4_inv _ _ Hsl) as [-> Hrange].
    destruct (level_eqb (level self) "AMP").
    + cbv zeta in H. destruct (negb _); [discriminate H|].
      injection H as <- <- _. auto.
    + injection H as <- <- _. auto.
Qed.

(** [getLengths_spec] at the default shape (17, 17) with two amplifiers
    holding 10 and 12 means. *)
Lemma getLengths_spec_witness :
  getLengths calib_10_12 = Raise InconsistentObservations.
Proof.
  refine (proj1 (proj2 (proj2 (proj1 (getLengths_spec calib_10_12) _)))
            eq_refl _).
  - reflexivity.
  - right. exists "C00", (repeat 1.0%float 10), "C01", (repeat 1.0%float 12).
    split; [left; reflexivity|]. split; [right; left; reflexivity|].
    simpl. discriminate.
Defined.

(** C3, as stated, fails.  [int(x / 4)] truncates towards zero: with a
    dimension of zero the product is negative, and for shape (0, 6)
    [smallLength] is -1 where the floor is -2.  And the division is done
    in binary64: for shape (2^53 + 4, 2) the product 2^53 + 3 has the
    quotient 2^51 + 0.75, which rounds to 2^51 + 1, where the floor is
    2^51. *)
Lemma getLengths_not_floor :
  getLengths (set_shape (new (LevelStr "DETECTOR")) (0, 6)) = OK (0, -1, 0%nat)
  /\ (0 - 1) * (6 - 1) / 4 = -2
  /\ getLengths (set_shape (new (LevelStr "DETECTOR")) (2 ^ 53 + 4, 2))
     = OK ((2 ^ 53 + 4) * 2, 2 ^ 51 + 1, 0%nat)
  /\ (2 ^ 53 + 4 - 1) * (2 - 1) / 4 = 2 ^ 51.
Proof. repeat split; vm_compute; reflexivity. Qed.

(** C10.  At level ['AMP'] with no amplifier in [rawMeans], [getLengths]
    raises an error, and [toDict] and [toTable] raise the same error: the
    inconsistency error, unless the quotient computed first is beyond the
    range of binary64, which raises [OverflowError] before [rawMeans] is
    looked at. *)
Theorem getLengths_no_amplifier (self : BrighterFatterKernel) :
  level self = LevelStr "AMP" ->
  rawMeans self = [] ->
  let e :=
    if 2 ^ 1026
       <=? Z.abs (float_of_int ((fst (shape self) - 1) * (snd (shape self) - 1)))
    then OverflowError else InconsistentObservations in
  getLengths self = Raise e
  /\ outcome (toDict self) = Raise e
  /\ outcome (toTable self) = Raise e.
Proof.
  intros Hlevel Hmeans e.
  assert (Hg : getLengths self = Raise e).
  { rewrite (getLengths_inconsistent self Hlevel (or_introl Hmeans)).
    subst e. unfold int_truediv4. cbv zeta.
    destruct (2 ^ 1026 <=? _); reflexivity. }
  split; [exact Hg|].
  assert (Hu : getLengths (updateMetadata self) = Raise e) by exact Hg.
  split.
  - unfold toDict, mbind, mmodify, mget, mlift, outcome. cbn [fst snd].
    rewrite Hu. reflexivity.
  - unfold toTable, mbind, mmodify, mget, mlift, outcome. cbn [fst snd].
    rewrite Hu. reflexivity.
Qed.

(** [getLengths_no_amplifier] at the calibration constructed with
    [level='AMP'] and no camera. *)
Lemma getLengths_no_amplifier_witness :
  getLengths (new (LevelStr "AMP")) = Raise InconsistentObservations
  /\ outcome (toDict (new (LevelStr "AMP"))) = Raise InconsistentObservations
  /\ outcome (toTable (new (LevelStr "AMP"))) = Raise InconsistentObservations.
Proof.
  exact (getLengths_no_amplifier (new (LevelStr "AMP")) eq_refl eq_refl).
Defined.

(** ** Dictionaries *)

Lemma dict_get_set_same {V} (d : dict V) (k : string) (v : V) :
  dict_get (dict_set d k v) k = Some v.
Proof.
  induction d as [|[k' v'] d IH]; simpl.
  - rewrite String.eqb_refl. reflexivity.
  - destruct (String.eqb k k') eqn:E; simpl; rewrite E; [reflexivity | exact IH].
Qed.

(** ** repackCorrelations *)

Lemma seq_getitem_lt (x : pyseq) (len idx : nat) :
  seq_length x = Some len -> (idx < len)%nat ->
  exists a, seq_getitem x idx = OK a.
Proof.
  destruct x as [l|a]; simpl; intros Hlen Hlt.
  - injection Hlen as <-. apply nth_error_Some in Hlt.
    destruct (nth_error l idx); [eauto | congruence].
  - unfold arr_getitem. destruct (arr_shape a) as [|n rest]; [discriminate|].
    injection Hlen as ->. apply Nat.ltb_lt in Hlt. rewrite Hlt. eauto.
Qed.

Lemma repack_loop_spec (self : BrighterFatterKernel) (amp : string)
  (x : pyseq) (len n0 r c : nat) :
  dict_get (rawXcorrs self) amp = Some x ->
  seq_length x = Some len ->
  forall (mask : list bool) (idx : nat) (acc : list ndarray),
    (idx + np_sum mask <= len)%nat ->
    exists out,
      repack_loop self amp [n0; r; c] mask idx acc = OK (acc ++ out)
      /\ length out = length mask
      /\ forall i, (i < length mask)%nat ->
           exists a, nth_error out i = Some a
                     /\ if nth i mask false
                        then seq_getitem x (idx + np_sum (firstn i mask)) = OK a
                        else a = np_full r c nan.
Proof.
  intros Hx Hlen. induction mask as [|b mask IH]; intros idx acc Hle.
  - exists []. rewrite app_nil_r. simpl. repeat split. intros i Hi. lia.
  - destruct b; simpl repack_loop.
    + unfold getitem. rewrite Hx. simpl rbind.
      destruct (seq_getitem_lt x len idx Hlen) as [a Ha].
      { unfold np_sum in Hle. simpl in Hle. lia. }
      rewrite Ha. simpl rbind.
      destruct (IH (S idx) (acc ++ [a])) as [out [Hout [Hl Hnth]]].
      { unfold np_sum in *. simpl in Hle. lia. }
      exists (a :: out). rewrite Hout, <- app_assoc. simpl.
      repeat split; [congruence|].
      intros [|i] Hi; simpl.
      * exists a. split; [reflexivity|].
        unfold np_sum. simpl. rewrite Nat.add_0_r. exact Ha.
      * destruct (Hnth i ltac:(simpl in Hi; lia)) as [a' [Ha' Hv]].
        exists a'. split; [exact Ha'|].
        destruct (nth i mask false); [|exact Hv].
        unfold np_sum in *. simpl. rewrite Nat.add_succ_r. exact Hv.
    + simpl rbind.
      destruct (IH idx (acc ++ [np_full r c nan])) as [out [Hout [Hl Hnth]]].
      { unfold np_sum in *. simpl in Hle. exact Hle. }
      exists (np_full r c nan :: out). rewrite Hout, <- app_assoc. simpl.
      repeat split; [congruence|].
      intros [|i] Hi; simpl.
      * exists (np_full r c nan). split; reflexivity.
      * destruct (Hnth i ltac:(simpl in Hi; lia)) as [a' [Ha' Hv]].
        exists a'. split; [exact Ha'|].
        destruct (nth i mask false); exact Hv.
Qed.

(** C2.  When the compacted [rawXcorrs[amp]] has as many elements as
    [expIdMask[amp]] has true entries, [repackCorrelations(amp, (n0, r, c))]
    succeeds and leaves in [rawXcorrs[amp]] a list as long as the mask:
    position [i] holds the compacted element numbered by the count of true
    entries before [i] when [expIdMask[amp][i]] is true, and an [r] by [c]
    array filled with NaN when it is false. *)
Theorem repackCorrelations_spec (self : BrighterFatterKernel) (amp : string)
  (mask : list bool) (x : pyseq) (n0 r c : nat) :
  dict_get (expIdMask self) amp = Some mask ->
  dict_get (rawXcorrs self) amp = Some x ->
  seq_length x = Some (np_sum mask) ->
  exists repacked,
    outcome (repackCorrelations amp [n0; r; c] self) = OK tt
    /\ dict_get (rawXcorrs (state_after (repackCorrelations amp [n0; r; c] self))) amp
       = Some (PyList repacked)
    /\ length repacked = length mask
    /\ forall i, (i < length mask)%nat ->
         exists a, nth_error repacked i = Some a
                   /\ if nth i mask false
                      then seq_getitem x (np_sum (firstn i mask)) = OK a
                      else a = np_full r c nan.
Proof.
  intros Hmask Hx Hlen.
  destruct (repack_loop_spec self amp x (np_sum mask) n0 r c Hx Hlen mask 0 [])
    as [out [Hout [Hl Hnth]]]; [simpl; lia|].
  exists out. unfold repackCorrelations, getitem. rewrite Hmask. simpl rbind.
  rewrite Hout. simpl.
  split; [reflexivity|]. split; [apply dict_get_set_same|].
  split; [exact Hl | exact Hnth].
Qed.

(** [repackCorrelations_spec] at the mask [true, false, true, false, true]
    with three compacted arrays. *)
Lemma repackCorrelations_spec_witness :
  exists repacked,
    outcome (repackCorrelations "C00" [3; 1; 1]%nat calib_masked) = OK tt
    /\ dict_get (rawXcorrs (state_after
                   (repackCorrelations "C00" [3; 1; 1]%nat calib_masked))) "C00"
       = Some (PyList repacked)
    /\ length repacked = 5%nat
    /\ forall i, (i < 5)%nat ->
         exists a, nth_error repacked i = Some a
                   /\ if nth i [true; false; true; false; true] false
                      then seq_getitem (PyList [arr11 1.0; arr11 2.0; arr11 3.0])
                             (np_sum (firstn i [true; false; true; false; true]))
                           = OK a
                      else a = np_full 1 1 nan.
Proof.
  apply (repackCorrelations_spec calib_masked "C00"
           [true; false; true; false; true]
           (PyList [arr11 1.0; arr11 2.0; arr11 3.0]) 3 1 1);
    reflexivity.
Defined.

(** The repacked sequence of the example, element by element. *)
Example repackCorrelations_example :
  rawXcorrs (state_after (repackCorrelations "C00" [3; 1; 1]%nat calib_masked))
  = [("C00", PyList [arr11 1.0; np_full 1 1 nan; arr11 2.0; np_full 1 1 nan;
                     arr11 3.0])].
Proof. reflexivity. Qed.

(** ** Dictionary comprehensions *)

Lemma dict_set_fresh {V} (d : dict V) (k : string) (v : V) :
  ~ In k (keys d) -> dict_set d k v = d ++ [(k, v)].
Proof.
  induction d as [|[k' v'] d IH]; simpl; intros Hnin; [reflexivity|].
  destruct (String.eqb k k') eqn:E.
  - apply String.eqb_eq in E. subst k'. exfalso. apply Hnin. left. reflexivity.
  - f_equal. apply IH. intros Hin. apply Hnin. right. exact Hin.
Qed.

Lemma dict_get_in {V} (d : dict V) (k : string) (v : V) :
  dict_wf d -> In (k, v) d -> dict_get d k = Some v.
Proof.
  unfold dict_wf. induction d as [|[k' v'] d IH]; simpl; intros Hnd Hin;
    [contradiction|].
  inversion Hnd as [|? ? Hnin Hnd']; subst.
  destruct Hin as [Heq|Hin].
  - injection Heq as -> ->. rewrite String.eqb_refl. reflexivity.
  - destruct (String.eqb k k') eqn:E.
    + apply String.eqb_eq in E. subst k'. exfalso. apply Hnin.
      apply in_map_iff. exists (k, v). split; [reflexivity | exact Hin].
    + apply IH; assumption.
Qed.

Lemma dict_get_some_in {V} (d : dict V) (k : string) (v : V) :
  dict_get d k = Some v -> In (k, v) d.
Proof.
  induction d as [|[k' v'] d IH]; simpl; intros H; [discriminate|].
  destruct (String.eqb k k') eqn:E.
  - apply String.eqb_eq in E. injection H as ->. subst. left. reflexivity.
  - right. apply IH. exact H.
Qed.

Lemma dict_get_key {V} (d : dict V) (k : string) :
  In k (keys d) -> exists v, dict_get d k = Some v.
Proof.
  induction d as [|[k' v'] d IH]; simpl; intros Hin; [contradiction|].
  destruct (String.eqb k k') eqn:E; [eauto|].
  destruct Hin as [->|Hin]; [|apply IH; exact Hin].
  rewrite String.eqb_refl in E. discriminate.
Qed.

Lemma mapM_pure {A B} (g : A -> B) (l : list A) :
  mapM (fun a => OK (g a)) l = OK (map g l).
Proof.
  induction l as [|a l IH]; simpl; [reflexivity|]. rewrite IH. reflexivity.
Qed.

Lemma mapM_ext_in {A B} (f g : A -> result B) (l : list A) :
  (forall a, In a l -> f a = g a) -> mapM f l = mapM g l.
Proof.
  induction l as [|a l IH]; simpl; intros H; [reflexivity|].
  rewrite (H a (or_introl eq_refl)), IH; [reflexivity|].
  intros a' Ha'. apply H. right. exact Ha'.
Qed.

Lemma mapM_map {A B C} (f : B -> result C) (g : A -> B) (l : list A) :
  mapM f (map g l) = mapM (fun a => f (g a)) l.
Proof.
  induction l as [|a l IH]; simpl; [reflexivity|]. rewrite IH. reflexivity.
Qed.

Lemma dict_comp_from_nodup {V} (f : string -> result V) (ks : list string) :
  forall acc : dict V,
    NoDup ks ->
    (forall k, In k ks -> ~ In k (keys acc)) ->
    dict_comp_from acc f ks
    = (vs <- mapM (fun k => v <- f k ;; OK (k, v)) ks ;; OK (acc ++ vs))%result.
Proof.
  induction ks as [|k ks IH]; intros acc Hnd Hfresh; simpl.
  - rewrite app_nil_r. reflexivity.
  - inversion Hnd as [|? ? Hnin Hnd']; subst.
    destruct (f k) as [v|e]; simpl; [|reflexivity].
    rewrite dict_set_fresh by (apply Hfresh; left; reflexivity).
    rewrite IH; [| exact Hnd' |].
    + destruct (mapM _ ks) as [vs|e]; simpl; [|reflexivity].
      rewrite <- app_assoc. reflexivity.
    + intros k' Hk' Hin. unfold keys in Hin. rewrite map_app in Hin.
      apply in_app_or in Hin. destruct Hin as [Hin|[<-|[]]].
      * apply (Hfresh k'); [right; exact Hk' | exact Hin].
      * contradiction.
Qed.

Lemma dict_comp_nodup {V} (f : string -> result V) (ks : list string) :
  NoDup ks ->
  dict_comp f ks = mapM (fun k => v <- f k ;; OK (k, v))%result ks.
Proof.
  intros Hnd. unfold dict_comp. rewrite dict_comp_from_nodup; auto.
  destruct (mapM _ ks); reflexivity.
Qed.

Lemma comp_over_wf {V W} (d : dict V) (f : V -> result W) :
  dict_wf d ->
  comp_over d f = mapM (fun kv => w <- f (snd kv) ;; OK (fst kv, w))%result d.
Proof.
  intros Hwf. unfold comp_over. rewrite dict_comp_nodup by exact Hwf.
  unfold keys. rewrite mapM_map. apply mapM_ext_in.
  intros [k v] Hin. simpl. unfold getitem.
  rewrite (dict_get_in d k v Hwf Hin). reflexivity.
Qed.

Lemma comp_over_pure {V W} (d : dict V) (g : V -> W) :
  dict_wf d ->
  comp_over d (fun v => OK (g v)) = OK (map (fun kv => (fst kv, g (snd kv))) d).
Proof.
  intros Hwf. rewrite comp_over_wf by exact Hwf. simpl. apply mapM_pure.
Qed.

Lemma comp_over_id {V} (d : dict V) :
  dict_wf d -> comp_over d (fun v => OK v) = OK d.
Proof.
  intros Hwf. rewrite (comp_over_pure d (fun v => v)) by exact Hwf.
  f_equal. rewrite <- (map_id d) at 2. apply map_ext. intros [k v]. reflexivity.
Qed.

Lemma dict_of_items_from_nodup {V} (items : list (string * V)) :
  forall acc : dict V,
    NoDup (keys items) ->
    (forall k, In k (keys items) -> ~ In k (keys acc)) ->
    fold_left (fun d kv => dict_set d (fst kv) (snd kv)) items acc = acc ++ items.
Proof.
  induction items as [|[k v] items IH]; intros acc Hnd Hfresh; simpl.
  - rewrite app_nil_r. reflexivity.
  - inversion Hnd as [|? ? Hnin Hnd']; subst.
    rewrite dict_set_fresh by (apply Hfresh; left; reflexivity).
    rewrite IH; [rewrite <- app_assoc; reflexivity | exact Hnd' |].
    intros k' Hk' Hin. unfold keys in Hin. rewrite map_app in Hin.
    apply in_app_or in Hin. destruct Hin as [Hin|[<-|[]]].
    + apply (Hfresh k'); [right; exact Hk' | exact Hin].
    + contradiction.
Qed.

Lemma dict_of_items_wf {V} (items : list (string * V)) :
  NoDup (keys items) -> dict_of_items items = items.
Proof.
  intros Hnd. unfold dict_of_items.
  rewrite dict_of_items_from_nodup; auto.
Qed.

(** ** fromDict and fromTable *)

(** Inversion of a successful run of a chain of fallible steps. *)
Ltac inv_ok H :=
  repeat match type of H with
  | rbind ?r ?k = OK _ =>
      let a := fresh "a" in
      let E := fresh "E" in
      apply rbind_ok in H; destruct H as [a [E H]]
  | (if ?b then Raise _ else _) = OK _ =>
      let Eb := fresh "Eb" in
      destruct b eqn:Eb; [discriminate H|]
  | (match ?p with pair _ _ => _ end) = OK _ => destruct p
  | (let x := _ in _) = OK _ => cbv zeta in H
  end.

(** C4.  For a mapping tagged with schema version 1.0 that supplies
    [means] and [variances], the calibration [fromDict] constructs has
    [expIdMask[amp]] all true and as long as [means[amp]], and has
    [rawMeans] and [rawVariances] equal to the supplied [means] and
    [variances]. *)
Theorem fromDict_version_1_0 (dictionary : Dictionary)
  (calib : BrighterFatterKernel) (calibVersion : float)
  (means variances : dict (list float)) :
  bfk_VERSION (d_metadata dictionary) = Some calibVersion ->
  PrimFloat.eqb calibVersion 1.0 = true ->
  d_means dictionary = Some means ->
  d_variances dictionary = Some variances ->
  dict_wf means ->
  dict_wf variances ->
  fromDict dictionary = OK calib ->
  expIdMask calib
  = map (fun kv => (fst kv, repeat true (length (snd kv)))) means
  /\ rawMeans calib = means
  /\ rawVariances calib = variances.
Proof.
  intros Hv H10 Hm Hvar Hwm Hwv H.
  unfold fromDict in H. rewrite Hv, Hm, Hvar in H. cbv zeta in H.
  inv_ok H. injection H as <-. simpl in E0. injection E0 as <-.
  rewrite H10 in E1. cbn [lookup rbind] in E1.
  rewrite (comp_over_pure means (fun l => repeat true (length l))) in E1
    by assumption.
  cbn [rbind] in E1. rewrite (comp_over_id means) in E1 by assumption.
  cbn [lookup rbind] in E1. rewrite (comp_over_id variances) in E1 by assumption.
  simpl in E1. injection E1 as <-. simpl. auto.
Qed.

(** [fromDict_version_1_0] at the mapping with [means = {A: [1.0, 2.0]}]
    and [variances = {A: [0.1, 0.2]}]: [fromDict] succeeds, with
    [expIdMask[A] = [True, True]]. *)
Lemma fromDict_version_1_0_witness :
  exists calib,
    fromDict dict_v10 = OK calib
    /\ expIdMask calib = [("A", [true; true])]
    /\ rawMeans calib = [("A", [1.0; 2.0]%float)]
    /\ rawVariances calib = [("A", [0.1; 0.2]%float)].
Proof.
  destruct (fromDict dict_v10) as [calib|e] eqn:E; [|vm_compute in E; discriminate E].
  exists calib. split; [reflexivity|].
  apply (fromDict_version_1_0 dict_v10 calib 1.0%float
           [("A", [1.0; 2.0]%float)] [("A", [0.1; 0.2]%float)]);
    try reflexivity; try exact E.
  - repeat constructor; simpl; intuition discriminate.
  - repeat constructor; simpl; intuition discriminate.
Defined.



(** The same mapping and table tagged 1.0 or 1.1 are accepted. *)
Example known_versions_accepted :
  is_ok (fromDict dict_v10) = true
  /\ is_ok (fromTable (tables_v11 1.1)) = true.
Proof. split; vm_compute; reflexivity. Qed.

(** ** Validity and bad amplifiers on import *)



Lemma dict_set_in_keys {V} (d : dict V) (k k0 : string) (v : V) :
  In k0 (keys (dict_set d k v)) -> k0 = k \/ In k0 (keys d).
Proof.
  induction d as [|[k' v'] d IH]; simpl.
  - intros [<-|[]]. left. reflexivity.
  - destruct (String.eqb k k'); simpl.
    + intros H. right. exact H.
    + intros [<-|H]; [right; left; reflexivity|].
      destruct (IH H) as [->|Hin]; [left; reflexivity | right; right; exact Hin].
Qed.

Lemma dict_set_wf {V} (d : dict V) (k : string) (v : V) :
  dict_wf d -> dict_wf (dict_set d k v).
Proof.
  unfold dict_wf. induction d as [|[k' v'] d IH]; simpl; intros Hnd.
  - repeat constructor. intros [].
  - inversion Hnd as [|? ? Hnin Hnd']; subst.
    destruct (String.eqb k k') eqn:E; simpl; [exact Hnd|].
    constructor; [|apply IH; exact Hnd'].
    intros Hin. destruct (dict_set_in_keys _ _ _ _ Hin) as [->|Hin'].
    + rewrite String.eqb_refl in E. discriminate E.
    + contradiction.
Qed.





Lemma badAmps_is_False (d : dict pyval) (amp : string) :
  dict_wf d ->
  In amp (map fst (filter (fun kv => is_False (snd kv)) d))
  <-> dict_get d amp = Some (PyBool false).
Proof.
  intros Hwf. rewrite in_map_iff. split.
  - intros [[k v] [Hk Hin]]. simpl in Hk. subst k.
    apply filter_In in Hin. destruct Hin as [Hin Hv]. simpl in Hv.
    destruct v as [[|]| |]; try discriminate Hv.
    apply dict_get_in; assumption.
  - intros Hget. exists (amp, PyBool false). split; [reflexivity|].
    apply filter_In. split; [apply dict_get_some_in; exact Hget | reflexivity].
Qed.


(** ** What a method call does to [self] *)

Lemma mbind_inv {A B} (m : M A) (k : A -> M B) self self' (b : B) :
  mbind m k self = (self', OK b) ->
  exists a self1, m self = (self1, OK a) /\ k a self1 = (self', OK b).
Proof.
  unfold mbind. destruct (m self) as [self1 [a|e]]; intros H.
  - exists a, self1. split; [reflexivity | exact H].
  - discriminate H.
Qed.

Lemma mlift_inv {A} (r : result A) self self' (a : A) :
  mlift r self = (self', OK a) -> self' = self /\ r = OK a.
Proof. unfold mlift. intros H. injection H as <- ->. auto. Qed.

Lemma mget_inv self self' a :
  mget self = (self', OK a) -> self' = self /\ a = self.
Proof. unfold mget. intros H. injection H as <- <-. auto. Qed.

Lemma mret_inv {A} (x : A) self self' a :
  mret x self = (self', OK a) -> self' = self /\ a = x.
Proof. unfold mret. intros H. injection H as <- <-. auto. Qed.

Lemma state_after_mbind {A B} (m : M A) (k : A -> M B) self :
  state_after (mbind m k self)
  = match m self with
    | (self1, OK a) => state_after (k a self1)
    | (self1, Raise _) => self1
    end.
Proof.
  unfold mbind. destruct (m self) as [self1 [a|e]]; reflexivity.
Qed.

Lemma same_but_rawXcorrs_refl x : same_but_rawXcorrs x x.
Proof. destruct x. reflexivity. Qed.

Lemma same_but_rawXcorrs_trans x y z :
  same_but_rawXcorrs x y -> same_but_rawXcorrs y z -> same_but_rawXcorrs x z.
Proof.
  unfold same_but_rawXcorrs. intros Hy Hz. rewrite Hz. rewrite Hy at 1.
  destruct x. reflexivity.
Qed.

Lemma frames_mret {A} (a : A) : frames (mret a).
Proof. intros self. apply same_but_rawXcorrs_refl. Qed.

Lemma frames_mlift {A} (r : result A) : frames (mlift r).
Proof. intros self. apply same_but_rawXcorrs_refl. Qed.

Lemma frames_mget : frames mget.
Proof. intros self. apply same_but_rawXcorrs_refl. Qed.

Lemma frames_mbind {A B} (m : M A) (k : A -> M B) :
  frames m -> (forall a, frames (k a)) -> frames (mbind m k).
Proof.
  intros Hm Hk self. rewrite state_after_mbind.
  specialize (Hm self). destruct (m self) as [self1 [a|e]]; simpl in Hm.
  - eapply same_but_rawXcorrs_trans; [exact Hm | apply Hk].
  - exact Hm.
Qed.

Lemma frames_if {A} (b : bool) (m1 m2 : M A) :
  frames m1 -> frames m2 -> frames (if b then m1 else m2).
Proof. destruct b; auto. Qed.

Lemma frames_forM_ {A} (l : list A) (body : A -> M unit) :
  (forall a, frames (body a)) -> frames (forM_ l body).
Proof.
  intros Hb. induction l as [|a l IH]; simpl.
  - apply frames_mret.
  - apply frames_mbind; [apply Hb | intros _; exact IH].
Qed.

Lemma frames_forM {A B} (l : list A) (body : A -> M B) :
  (forall a, frames (body a)) -> frames (forM l body).
Proof.
  intros Hb. induction l as [|a l IH]; simpl.
  - apply frames_mret.
  - apply frames_mbind; [apply Hb | intros b].
    apply frames_mbind; [exact IH | intros bs; apply frames_mret].
Qed.

Lemma frames_repackCorrelations amp correlationShape :
  frames (repackCorrelations amp correlationShape).
Proof.
  intros self. unfold repackCorrelations.
  destruct (rbind _ _) as [l|e]; simpl.
  - unfold same_but_rawXcorrs. reflexivity.
  - apply same_but_rawXcorrs_refl.
Qed.

Create HintDb frames_db.
#[local] Hint Resolve frames_mret frames_mlift frames_mget
  frames_repackCorrelations : frames_db.

Ltac solve_frames :=
  repeat first
    [ apply frames_mbind; [|intros ?]
    | apply frames_if
    | match goal with
      | |- frames (match ?p with pair _ _ => _ end) => destruct p
      end
    | solve [auto with frames_db] ].

Lemma frames_checkRepack amp nObs : frames (checkRepack amp nObs).
Proof. unfold checkRepack. solve_frames. Qed.

Lemma frames_toTable_row kernelLength smallLength nObs amp :
  frames (toTable_row kernelLength smallLength nObs amp).
Proof.
  unfold toTable_row. pose proof (frames_checkRepack amp nObs). solve_frames.
Qed.

(** Inversion of a successful method call. *)
Ltac inv_m H :=
  repeat match type of H with
  | mbind _ _ _ = (_, OK _) =>
      let a := fresh "a" in
      let s := fresh "self" in
      let E := fresh "E" in
      apply mbind_inv in H; destruct H as [a [s [E H]]];
      try (apply mget_inv in E; destruct E as [-> ->]);
      try (apply mlift_inv in E; let E' := fresh "E" in destruct E as [-> E'])
  | mret _ _ = (_, OK _) => apply mret_inv in H; destruct H as [-> ->]
  end.

Lemma same_but_rawXcorrs_fields x y :
  same_but_rawXcorrs x y ->
  valid y = valid x /\ badAmps y = badAmps x /\ rawMeans y = rawMeans x
  /\ level y = level x /\ shape y = shape x.
Proof. unfold same_but_rawXcorrs. intros ->. simpl. auto. Qed.

(** ** The validity column of toTable *)

Lemma py_int_and (v : pyval) (b : bool) :
  py_int (py_and v (PyBool b)) = if py_bool v && b then 1 else 0.
Proof.
  unfold py_and. destruct v as [[|]|[|]|z]; simpl; try reflexivity.
  destruct (z =? 0) eqn:E; simpl; [|reflexivity].
  apply Z.eqb_eq in E. exact E.
Qed.

Lemma toTable_row_valid kernelLength smallLength nObs amp self self' row :
  toTable_row kernelLength smallLength nObs amp self = (self', OK row) ->
  row_amp row = amp /\ valid_and_not_bad self amp (row_valid row).
Proof.
  intros H. unfold toTable_row in H. inv_m H.
  pose proof (frames_checkRepack amp nObs self) as Hf.
  match goal with
  | Ec : checkRepack _ _ _ = _ |- _ => rewrite Ec in Hf; simpl in Hf
  end.
  destruct (same_but_rawXcorrs_fields _ _ Hf) as [Hv [Hb _]].
  split; [reflexivity|]. simpl. unfold valid_and_not_bad.
  match goal with
  | Ev : getitem (valid _) amp = OK ?v |- _ =>
      unfold getitem in Ev; rewrite Hv in Ev;
      destruct (dict_get (valid self) amp) as [v'|]; [|discriminate Ev];
      injection Ev as <-; exists v'
  end.
  split; [reflexivity|]. rewrite Hb. apply py_int_and.
Qed.

Lemma forM_toTable_rows kernelLength smallLength nObs self0 :
  forall amps self self' rows,
    same_but_rawXcorrs self0 self ->
    forM amps (toTable_row kernelLength smallLength nObs) self = (self', OK rows) ->
    map row_amp rows = amps
    /\ Forall2 (valid_and_not_bad self0) amps (map row_valid rows).
Proof.
  induction amps as [|amp amps IH]; intros self self' rows Hf H; simpl in H.
  - apply mret_inv in H. destruct H as [_ ->]. simpl. split; constructor.
  - apply mbind_inv in H. destruct H as [row [self1 [Erow H]]].
    apply mbind_inv in H. destruct H as [rows' [self2 [Erows H]]].
    apply mret_inv in H. destruct H as [-> ->].
    destruct (toTable_row_valid _ _ _ _ _ _ _ Erow) as [Hamp Hvalid].
    assert (Hf1 : same_but_rawXcorrs self0 self1).
    { eapply same_but_rawXcorrs_trans; [exact Hf|].
      pose proof (frames_toTable_row kernelLength smallLength nObs amp self) as F.
      rewrite Erow in F. exact F. }
    destruct (IH _ _ _ Hf1 Erows) as [Hamps Hvalids].
    simpl. split; [congruence|]. constructor; [|exact Hvalids].
    destruct (same_but_rawXcorrs_fields _ _ Hf) as [Hv [Hb _]].
    destruct Hvalid as [v [Hget Hcol]]. exists v.
    rewrite <- Hv, <- Hb. auto.
Qed.

(** C6.  At level ['AMP'], the table [toTable] writes has one row per
    amplifier of [rawMeans], in order, and its [VALID] column holds 1 for
    an amplifier whose [valid] entry is true and which is not listed in
    [badAmps], and 0 for every other amplifier. *)
Theorem toTable_VALID_column (self self' : BrighterFatterKernel)
  (tableList : TableList) :
  level self = LevelStr "AMP" ->
  toTable self = (self', OK tableList) ->
  AMPLIFIER (ampTable tableList) = keys (rawMeans self)
  /\ Forall2 (valid_and_not_bad self)
       (AMPLIFIER (ampTable tableList)) (VALID (ampTable tableList)).
Proof.
  intros Hlevel H. unfold toTable in H.
  apply mbind_inv in H. destruct H as [[] [self1 [E H]]].
  unfold mmodify in E. injection E as <-.
  apply mbind_inv in H. destruct H as [self1 [self2 [E H]]].
  apply mget_inv in E. destruct E as [-> ->].
  apply mbind_inv in H. destruct H as [lengths [self2 [E H]]].
  apply mlift_inv in E. destruct E as [-> _].
  destruct lengths as [[kernelLength smallLength] nObs].
  apply mbind_inv in H. destruct H as [rows [self2 [Erows H]]].
  apply mbind_inv in H. destruct H as [self3 [self4 [E H]]].
  apply mget_inv in E. destruct E as [-> ->].
  assert (Hrows : map row_amp rows = keys (rawMeans self)
                  /\ Forall2 (valid_and_not_bad (updateMetadata self))
                       (keys (rawMeans self)) (map row_valid rows)).
  { change (level (updateMetadata self)) with (level self) in Erows.
    rewrite Hlevel in Erows. simpl level_eqb in Erows. cbv iota in Erows.
    change (rawMeans (updateMetadata self)) with (rawMeans self) in Erows.
    eapply forM_toTable_rows; [|exact Erows]. apply same_but_rawXcorrs_refl. }
  destruct Hrows as [Hamps Hvalids].
  assert (Hout : AMPLIFIER (ampTable tableList) = map row_amp rows
                 /\ VALID (ampTable tableList) = map row_valid rows).
  { destruct (0 <? length (detKernels self2))%nat.
    - inv_m H. split; reflexivity.
    - apply mret_inv in H. destruct H as [_ ->]. split; reflexivity. }
  destruct Hout as [-> ->]. rewrite Hamps. split; [reflexivity|].
  exact Hvalids.
Qed.

(** [toTable_VALID_column] at a calibration with a valid amplifier, a valid
    amplifier listed as bad and an invalid amplifier: [toTable] succeeds
    and the column reads 1, 0, 0. *)
Lemma toTable_VALID_column_witness :
  exists self' tableList,
    toTable calib_three = (self', OK tableList)
    /\ VALID (ampTable tableList) = [1; 0; 0]
    /\ AMPLIFIER (ampTable tableList) = keys (rawMeans calib_three)
    /\ Forall2 (valid_and_not_bad calib_three)
         (AMPLIFIER (ampTable tableList)) (VALID (ampTable tableList)).
Proof.
  destruct (toTable calib_three) as [self' [tableList|e]] eqn:E;
    [|vm_compute in E; discriminate E].
  exists self', tableList. split; [reflexivity|].
  split; [vm_compute in E; injection E as _ <-; reflexivity|].
  apply (toTable_VALID_column calib_three self' tableList eq_refl E).
Defined.

(** ** What the exports do to the calibration *)

Lemma noop_mret {A} (a : A) self : noop (mret a) self.
Proof. reflexivity. Qed.

Lemma noop_mlift {A} (r : result A) self : noop (mlift r) self.
Proof. reflexivity. Qed.

Lemma noop_mget self : noop mget self.
Proof. reflexivity. Qed.

Lemma noop_mbind {A B} (m : M A) (k : A -> M B) self :
  noop m self -> (forall a, noop (k a) self) -> noop (mbind m k) self.
Proof.
  unfold noop. intros Hm Hk. rewrite state_after_mbind.
  destruct (m self) as [self1 [a|e]]; simpl in *; subst self1.
  - apply Hk.
  - reflexivity.
Qed.

Lemma noop_forM_ {A} (l : list A) (body : A -> M unit) self :
  (forall a, noop (body a) self) -> noop (forM_ l body) self.
Proof.
  intros Hb. induction l as [|a l IH]; simpl.
  - apply noop_mret.
  - apply noop_mbind; [apply Hb | intros _; exact IH].
Qed.

Lemma noop_forM {A B} (l : list A) (body : A -> M B) self :
  (forall a, noop (body a) self) -> noop (forM l body) self.
Proof.
  intros Hb. induction l as [|a l IH]; simpl.
  - apply noop_mret.
  - apply noop_mbind; [apply Hb | intros b].
    apply noop_mbind; [exact IH | intros bs; apply noop_mret].
Qed.

Lemma noop_checkRepack amp nObs self :
  (forall x, dict_get (rawXcorrs self) amp = Some x ->
             exists a, np_array x = OK a
                       /\ tuple_getitem (arr_shape a) 0 = OK nObs) ->
  noop (checkRepack amp nObs) self.
Proof.
  intros H. unfold noop, checkRepack, mbind, mget, mlift, getitem.
  destruct (dict_get (rawXcorrs self) amp) as [x|]; [|reflexivity].
  destruct (H x eq_refl) as [a [Ha Ht]].
  cbn [rbind]. rewrite Ha, Ht, Nat.eqb_refl. reflexivity.
Qed.

Lemma noop_toTable_row kernelLength smallLength nObs amp self :
  noop (checkRepack amp nObs) self ->
  noop (toTable_row kernelLength smallLength nObs amp) self.
Proof.
  intros Hc. unfold toTable_row.
  repeat first
    [ exact Hc
    | apply noop_mget | apply noop_mlift | apply noop_mret
    | apply noop_mbind; [|intros ?] ].
Qed.

Section Preserves.

Variable P : BrighterFatterKernel -> Prop.

Lemma preserves_mret {A} (a : A) : preserves P (mret a).
Proof. intros self H. exact H. Qed.

Lemma preserves_mlift {A} (r : result A) : preserves P (mlift r).
Proof. intros self H. exact H. Qed.

Lemma preserves_mget : preserves P mget.
Proof. intros self H. exact H. Qed.

Lemma preserves_mbind {A B} (m : M A) (k : A -> M B) :
  preserves P m -> (forall a, preserves P (k a)) -> preserves P (mbind m k).
Proof.
  intros Hm Hk self H. rewrite state_after_mbind.
  specialize (Hm self H). destruct (m self) as [self1 [a|e]]; simpl in Hm.
  - apply Hk. exact Hm.
  - exact Hm.
Qed.

Lemma preserves_if {A} (b : bool) (m1 m2 : M A) :
  preserves P m1 -> preserves P m2 -> preserves P (if b then m1 else m2).
Proof. destruct b; auto. Qed.

Lemma preserves_forM_ {A} (l : list A) (body : A -> M unit) :
  (forall a, preserves P (body a)) -> preserves P (forM_ l body).
Proof.
  intros Hb. induction l as [|a l IH]; simpl.
  - apply preserves_mret.
  - apply preserves_mbind; [apply Hb | intros _; exact IH].
Qed.

Lemma preserves_forM {A B} (l : list A) (body : A -> M B) :
  (forall a, preserves P (body a)) -> preserves P (forM l body).
Proof.
  intros Hb. induction l as [|a l IH]; simpl.
  - apply preserves_mret.
  - apply preserves_mbind; [apply Hb | intros b].
    apply preserves_mbind; [exact IH | intros bs; apply preserves_mret].
Qed.

End Preserves.

Lemma dict_get_set_other {V} (d : dict V) (k k' : string) (v : V) :
  k <> k' -> dict_get (dict_set d k' v) k = dict_get d k.
Proof.
  intros Hne. induction d as [|[k0 v0] d IH]; simpl.
  - destruct (String.eqb k k') eqn:E; [|reflexivity].
    apply String.eqb_eq in E. contradiction.
  - destruct (String.eqb k' k0) eqn:E'; simpl.
    + apply String.eqb_eq in E'. subst k0.
      destruct (String.eqb k k') eqn:E; [|reflexivity].
      apply String.eqb_eq in E. contradiction.
    + destruct (String.eqb k k0); [reflexivity | exact IH].
Qed.

(** An amplifier's entry survives the repacking of another amplifier. *)
Lemma repackCorrelations_keeps amp' correlationShape amp x :
  amp <> amp' ->
  preserves (fun self => dict_get (rawXcorrs self) amp = Some x)
    (repackCorrelations amp' correlationShape).
Proof.
  intros Hne self H. unfold repackCorrelations.
  destruct (rbind _ _) as [l|e]; simpl; [|exact H].
  rewrite dict_get_set_other by exact Hne. exact H.
Qed.

(** An entry at full length survives the check of every amplifier. *)
Lemma checkRepack_keeps amp' nObs amp x :
  (exists a, np_array x = OK a /\ tuple_getitem (arr_shape a) 0 = OK nObs) ->
  preserves (fun self => dict_get (rawXcorrs self) amp = Some x)
    (checkRepack amp' nObs).
Proof.
  intros Hfull self H. destruct (String.eqb amp amp') eqn:E.
  - apply String.eqb_eq in E. subst amp'.
    rewrite noop_checkRepack; [exact H|].
    intros x' Hx'. rewrite H in Hx'. injection Hx' as <-. exact Hfull.
  - apply String.eqb_neq in E. revert self H.
    change (preserves (fun self => dict_get (rawXcorrs self) amp = Some x)
              (checkRepack amp' nObs)).
    unfold checkRepack.
    repeat first
      [ apply preserves_mbind; [|intros ?]
      | apply preserves_if
      | apply preserves_mget | apply preserves_mlift | apply preserves_mret
      | apply repackCorrelations_keeps; exact E ].
Qed.

Lemma toTable_row_keeps kernelLength smallLength nObs amp' amp x :
  (exists a, np_array x = OK a /\ tuple_getitem (arr_shape a) 0 = OK nObs) ->
  preserves (fun self => dict_get (rawXcorrs self) amp = Some x)
    (toTable_row kernelLength smallLength nObs amp').
Proof.
  intros Hfull. unfold toTable_row.
  repeat first
    [ apply checkRepack_keeps; exact Hfull
    | apply preserves_mbind; [|intros ?]
    | apply preserves_mget | apply preserves_mlift | apply preserves_mret ].
Qed.

Lemma dict_comp_from_total {V} (f : string -> result V) (ks : list string) :
  (forall k, In k ks -> is_ok (f k) = true) ->
  forall acc, is_ok (dict_comp_from acc f ks) = true.
Proof.
  induction ks as [|k ks IH]; intros Hf acc; simpl; [reflexivity|].
  pose proof (Hf k (or_introl eq_refl)) as Hk.
  destruct (f k) as [v|e]; [|discriminate Hk]. simpl.
  apply IH. intros k' Hk'. apply Hf. right. exact Hk'.
Qed.

Lemma comp_over_total {V W} (d : dict V) (g : V -> W) :
  exists r, comp_over d (fun v => OK (g v)) = OK r.
Proof.
  assert (H : is_ok (comp_over d (fun v => OK (g v))) = true).
  { unfold comp_over, dict_comp. apply dict_comp_from_total.
    intros k Hk. unfold getitem.
    destruct (dict_get_key d k Hk) as [v ->]. reflexivity. }
  destruct (comp_over d _) as [r|e]; [eauto | discriminate H].
Qed.

(** The calibration after [toDict]: the metadata is refreshed, and the
    loop over the amplifiers of [rawXcorrs] runs once the lengths are
    known. *)
Lemma toDict_state (self : BrighterFatterKernel) :
  state_after (toDict self)
  = match getLengths (updateMetadata self) with
    | OK (_, _, nObs) =>
        state_after (forM_ (keys (rawXcorrs self))
                       (fun amp => checkRepack amp nObs) (updateMetadata self))
    | Raise _ => updateMetadata self
    end.
Proof.
  unfold toDict, mbind, mmodify, mget, mlift.
  destruct (getLengths (updateMetadata self)) as [[[kernelLength smallLength] nObs]|e];
    [|reflexivity].
  destruct (comp_over_total (expIdMask (updateMetadata self)) (fun l => l))
    as [r1 ->].
  destruct (comp_over_total (rawMeans (updateMetadata self))
              (fun l => tolist (np_array_flat l))) as [r2 ->].
  destruct (comp_over_total (rawVariances (updateMetadata self))
              (fun l => tolist (np_array_flat l))) as [r3 ->].
  change (rawXcorrs (updateMetadata self)) with (rawXcorrs self).
  destruct (forM_ _ _ _) as [self1 [[]|e]]; [|reflexivity].
  destruct (comp_over (rawXcorrs self1) _); [|reflexivity].
  destruct (comp_over (meanXcorrs self1) _); [|reflexivity].
  destruct (comp_over (ampKernels self1) _); [|reflexivity].
  destruct (comp_over (detKernels self1) _); reflexivity.
Qed.

(** The calibration after [toTable]: the metadata is refreshed, and the
    loop over the amplifiers of [rawMeans] runs at level ['AMP'] once the
    lengths are known. *)
Lemma toTable_state (self : BrighterFatterKernel) :
  state_after (toTable self)
  = match getLengths (updateMetadata self) with
    | OK (kernelLength, smallLength, nObs) =>
        if level_eqb (level self) "AMP"
        then state_after (forM (keys (rawMeans self))
                            (toTable_row kernelLength smallLength nObs)
                            (updateMetadata self))
        else updateMetadata self
    | Raise _ => updateMetadata self
    end.
Proof.
  unfold toTable, mbind, mmodify, mget, mlift.
  destruct (getLengths (updateMetadata self)) as [[[kernelLength smallLength] nObs]|e];
    [|reflexivity].
  change (level (updateMetadata self)) with (level self).
  change (rawMeans (updateMetadata self)) with (rawMeans self).
  destruct (level_eqb (level self) "AMP").
  - destruct (forM _ _ _) as [self1 [rows|e]]; [|reflexivity].
    destruct (0 <? length (detKernels self1))%nat; [|reflexivity].
    destruct (mapM _ _); reflexivity.
  - unfold mret.
    destruct (0 <? length (detKernels (updateMetadata self)))%nat; [|reflexivity].
    destruct (mapM _ _); reflexivity.
Qed.

(** C7, as the code has it.  Whatever their outcome, [toDict] and
    [toTable] leave every attribute other than [rawXcorrs] as
    [updateMetadata] leaves it; they leave [rawXcorrs[amp]] as it is for
    every amplifier whose [rawXcorrs[amp]] already has the observation
    count as its leading length; and when that is so for every amplifier
    the calibration after the export is the calibration with its metadata
    refreshed. *)
Theorem export_assigns_only_rawXcorrs (self : BrighterFatterKernel) :
  same_but_rawXcorrs (updateMetadata self) (state_after (toDict self))
  /\ same_but_rawXcorrs (updateMetadata self) (state_after (toTable self))
  /\ (forall amp x,
        dict_get (rawXcorrs self) amp = Some x ->
        at_full_length self x ->
        dict_get (rawXcorrs (state_after (toDict self))) amp = Some x
        /\ dict_get (rawXcorrs (state_after (toTable self))) amp = Some x)
  /\ (full_length self ->
      state_after (toDict self) = updateMetadata self
      /\ state_after (toTable self) = updateMetadata self).
Proof.
  rewrite toDict_state, toTable_state.
  destruct (getLengths (updateMetadata self))
    as [[[kernelLength smallLength] nObs]|e] eqn:Hg.
  - change (getLengths (updateMetadata self)) with (getLengths self) in Hg.
    split; [|split; [|split]].
    + apply frames_forM_. intros amp. apply frames_checkRepack.
    + destruct (level_eqb (level self) "AMP");
        [|apply same_but_rawXcorrs_refl].
      apply frames_forM. intros amp. apply frames_toTable_row.
    + intros amp x Hx Hfull. specialize (Hfull _ _ _ Hg). split.
      * apply (preserves_forM_
                 (fun self => dict_get (rawXcorrs self) amp = Some x));
          [|exact Hx].
        intros amp'. apply checkRepack_keeps. exact Hfull.
      * destruct (level_eqb (level self) "AMP"); [|exact Hx].
        apply (preserves_forM
                 (fun self => dict_get (rawXcorrs self) amp = Some x));
          [|exact Hx].
        intros amp'. apply toTable_row_keeps. exact Hfull.
    + intros Hfull.
      assert (Hnoop : forall amp, noop (checkRepack amp nObs) (updateMetadata self)).
      { intros amp. apply noop_checkRepack. intros x Hx.
        exact (Hfull amp x Hx _ _ _ Hg). }
      split.
      * apply noop_forM_. exact Hnoop.
      * destruct (level_eqb (level self) "AMP"); [|reflexivity].
        apply noop_forM. intros amp. apply noop_toTable_row. apply Hnoop.
  - repeat split; try apply same_but_rawXcorrs_refl; assumption.
Qed.

(** C7, as stated, fails: exporting the calibration whose correlations
    were compacted to three of five observation pairs succeeds and leaves
    the repacked list of five in [rawXcorrs]. *)
Lemma export_mutates_rawXcorrs :
  is_ok (outcome (toDict calib_masked)) = true
  /\ rawXcorrs (state_after (toDict calib_masked)) <> rawXcorrs calib_masked
  /\ is_ok (outcome (toTable calib_masked)) = true
  /\ rawXcorrs (state_after (toTable calib_masked)) <> rawXcorrs calib_masked
  /\ rawXcorrs (state_after (toDict calib_masked))
     = [("C00", PyList [arr11 1.0; np_full 1 1 nan; arr11 2.0; np_full 1 1 nan;
                        arr11 3.0])].
Proof.
  repeat split; try (vm_compute; reflexivity); vm_compute; discriminate.
Qed.

(** ** makeDetectorKernelFromAmpwiseKernels *)

(** C8, on the code.  Whatever the clipped-mean primitive computes, the
    detector kernel stored for five 3 x 3 kernels holds at coordinate
    (i, j) the primitive's value on the amplifiers' values at coordinate
    (j, i): with the common kernel [[0, 1, 2], [3, 4, 5], [6, 7, 8]] the
    entry at (0, 1) is computed from the samples 3, 3, 3, 3, 1003 and not
    from 1, 1, 1, 1, 1001.  For five 3 x 4 kernels the call raises
    [IndexError] and stores nothing. *)
Theorem detector_kernel_is_transposed (MEANCLIP : ndarray -> float) :
  makeDetectorKernelFromAmpwiseKernels MEANCLIP "det" [] calib_outlier_3x3
  = (set_detKernels calib_outlier_3x3
       [("det",
         mkArray [3; 3]%nat
           [MEANCLIP (samples 0 1000); MEANCLIP (samples 3 1003);
            MEANCLIP (samples 6 1006);
            MEANCLIP (samples 1 1001); MEANCLIP (samples 4 1004);
            MEANCLIP (samples 7 1007);
            MEANCLIP (samples 2 1002); MEANCLIP (samples 5 1005);
            MEANCLIP (samples 8 1008)])],
     OK tt)
  /\ makeDetectorKernelFromAmpwiseKernels MEANCLIP "det" [] calib_outlier_3x4
     = (calib_outlier_3x4, Raise IndexError).
Proof.
  split; vm_compute; reflexivity.
Qed.

(** ** Round trip through the mapping form *)

Lemma filter_all {A} (p : A -> bool) (l : list A) :
  Forall (fun a => p a = true) l -> filter p l = l.
Proof.
  induction 1 as [|a l Ha _ IH]; simpl; [reflexivity|]. rewrite Ha, IH. reflexivity.
Qed.

Lemma filter_none {A} (p : A -> bool) (l : list A) :
  Forall (fun a => p a = false) l -> filter p l = [].
Proof.
  induction 1 as [|a l Ha _ IH]; simpl; [reflexivity|]. rewrite Ha. exact IH.
Qed.

Lemma reshape_ok (a : ndarray) (dims : list Z) :
  Forall (fun d => 0 <= d) dims ->
  Z.of_nat (length (arr_data a)) = fold_right Z.mul 1 dims ->
  reshape a dims = OK (mkArray (map Z.to_nat dims) (arr_data a)).
Proof.
  intros Hpos Hsize. unfold reshape.
  rewrite (filter_none (fun d => d <? 0) dims).
  - rewrite (filter_all (fun d => 0 <=? d) dims).
    + rewrite Hsize, Z.eqb_refl. reflexivity.
    + eapply Forall_impl; [|exact Hpos]. intros d Hd. apply Z.leb_le. exact Hd.
  - eapply Forall_impl; [|exact Hpos]. intros d Hd. apply Z.ltb_ge. exact Hd.
Qed.

Lemma mapM_ok_in {A B} (f : A -> result B) (g : A -> B) (l : list A) :
  (forall a, In a l -> f a = OK (g a)) -> mapM f l = OK (map g l).
Proof.
  intros H. rewrite (mapM_ext_in f (fun a => OK (g a))) by exact H.
  apply mapM_pure.
Qed.

Lemma mapM_roundtrip {A B} (f : B -> result A) (g : A -> B) (l : list A) :
  (forall a, In a l -> f (g a) = OK a) -> mapM f (map g l) = OK l.
Proof.
  intros H. rewrite mapM_map.
  rewrite (mapM_ok_in (fun a => f (g a)) (fun a => a)) by exact H.
  rewrite map_id. reflexivity.
Qed.

Lemma keys_map_values {V W} (g : V -> W) (d : dict V) :
  keys (map (fun kv => (fst kv, g (snd kv))) d) = keys d.
Proof.
  unfold keys. rewrite map_map. reflexivity.
Qed.

Lemma forM__ok {A} (l : list A) (body : A -> M unit) self :
  (forall a, In a l -> body a self = (self, OK tt)) ->
  forM_ l body self = (self, OK tt).
Proof.
  induction l as [|a l IH]; simpl; intros Hb; [reflexivity|].
  unfold mbind. rewrite (Hb a (or_introl eq_refl)).
  apply IH. intros a' Ha'. apply Hb. right. exact Ha'.
Qed.


Lemma populated_exact (self : BrighterFatterKernel) (nObs : nat) :
  populated self nObs ->
  Z.abs ((fst (shape self) - 1) * (snd (shape self) - 1)) < 2 ^ 53.
Proof.
  intros P. destruct (pop_shape self nObs P) as [H0 H1].
  pose proof (pop_exact self nObs P) as He.
  rewrite Z.abs_eq by nia. exact He.
Qed.

Lemma smallLength_small (self : BrighterFatterKernel) (nObs : nat) :
  populated self nObs ->
  Z.quot ((fst (shape self) - 1) * (snd (shape self) - 1)) 4 < 2 ^ 52.
Proof.
  intros P. destruct (pop_shape self nObs P) as [H0 H1].
  pose proof (pop_exact self nObs P) as He.
  rewrite Z.quot_div_nonneg by nia.
  apply Z.div_lt_upper_bound; lia.
Qed.

Lemma smallLength_nonneg (s0 s1 : Z) :
  0 < s0 -> 0 < s1 -> 0 <= Z.quot ((s0 - 1) * (s1 - 1)) 4.
Proof.
  intros H0 H1. apply Z.quot_pos; nia.
Qed.

Lemma mapM_map_ok {A B C} (f : B -> result C) (g : A -> B) (h : A -> C)
  (l : list A) :
  (forall a, In a l -> f (g a) = OK (h a)) -> mapM f (map g l) = OK (map h l).
Proof.
  intros H. rewrite mapM_map. apply mapM_ok_in. exact H.
Qed.

Lemma np_array_data (x : pyseq) (a : ndarray) :
  np_array x = OK a -> arr_data a = xcorr_data x.
Proof.
  destruct x as [l|b]; simpl.
  - unfold np_stack. destruct l as [|a0 l].
    + intros H. injection H as <-. reflexivity.
    + destruct (forallb _ _); [|discriminate].
      intros H. injection H as <-. reflexivity.
  - intros H. injection H as <-. reflexivity.
Qed.

Lemma checkRepack_full amp nObs self :
  (exists x a, dict_get (rawXcorrs self) amp = Some x
               /\ np_array x = OK a
               /\ hd_error (arr_shape a) = Some nObs) ->
  checkRepack amp nObs self = (self, OK tt).
Proof.
  intros [x [a [Hget [Ha Hhd]]]]. unfold checkRepack, mbind, mget, mlift, getitem.
  rewrite Hget. cbn [rbind]. rewrite Ha.
  unfold tuple_getitem. destruct (arr_shape a) as [|n rest]; [discriminate|].
  simpl in Hhd. injection Hhd as ->. simpl. rewrite Nat.eqb_refl. reflexivity.
Qed.

Lemma ravel_kernel (self : BrighterFatterKernel) (a : ndarray) :
  0 < fst (shape self) -> 0 < snd (shape self) ->
  kernel_shaped self a ->
  ravel (fst (shape self) * snd (shape self)) a = OK (arr_data a).
Proof.
  intros H0 H1 [Hsh Hwf]. unfold ravel.
  rewrite reshape_ok.
  - reflexivity.
  - constructor; [nia | constructor].
  - unfold array_wf in Hwf. rewrite Hwf, Hsh. simpl. lia.
Qed.

Lemma comp_over_ravel (self : BrighterFatterKernel) (d : dict ndarray) :
  0 < fst (shape self) -> 0 < snd (shape self) ->
  dict_wf d ->
  (forall k a, In (k, a) d -> kernel_shaped self a) ->
  comp_over d (ravel (fst (shape self) * snd (shape self)))
  = OK (map (fun kv => (fst kv, arr_data (snd kv))) d).
Proof.
  intros H0 H1 Hwf Hk. rewrite comp_over_wf by exact Hwf.
  apply mapM_ok_in. intros [k a] Hin. simpl.
  rewrite (ravel_kernel self a H0 H1 (Hk k a Hin)). reflexivity.
Qed.

Lemma small_arrays_size (self : BrighterFatterKernel) (nObs : nat) (a : ndarray) :
  populated self nObs ->
  let smallLength := Z.quot ((fst (shape self) - 1) * (snd (shape self) - 1)) 4 in
  let side := Z.sqrt smallLength in
  arr_shape a = [nObs; Z.to_nat side; Z.to_nat side] ->
  array_wf a ->
  Z.of_nat (length (arr_data a)) = Z.of_nat nObs * smallLength
  /\ Z.of_nat (length (arr_data a)) = Z.of_nat nObs * (side * (side * 1))
  /\ 0 <= side /\ 0 <= smallLength.
Proof.
  intros P smallLength side Hsh Hwf. destruct P. destruct pop_shape0 as [H0 H1].
  pose proof (smallLength_nonneg _ _ H0 H1) as Hsl. fold smallLength in Hsl.
  pose proof (Z.sqrt_nonneg smallLength) as Hside. fold side in Hside.
  unfold array_wf in Hwf. rewrite Hwf, Hsh. simpl.
  rewrite !Nat2Z.inj_mul, !Z2Nat.id by assumption.
  change (Z.of_nat 1) with 1.
  cbv zeta in pop_square0. fold smallLength side in pop_square0.
  destruct pop_square0 as [->|Hsq].
  - simpl. auto.
  - rewrite !Z.mul_1_r, Hsq. auto.
Qed.

Lemma comp_over_xcorrs (self : BrighterFatterKernel) (nObs : nat) :
  populated self nObs ->
  comp_over (rawXcorrs self)
    (fun x => a <- np_array x ;;
              ravel (Z.of_nat nObs
                     * Z.quot ((fst (shape self) - 1) * (snd (shape self) - 1)) 4)
                a)%result
  = OK (map (fun kv => (fst kv, xcorr_data (snd kv))) (rawXcorrs self)).
Proof.
  intros P. rewrite comp_over_wf by apply P.
  apply mapM_ok_in. intros [k x] Hin. simpl.
  destruct (pop_rawXcorrs self nObs P k x Hin) as [a [Ha [Hsh Hwf]]].
  destruct (small_arrays_size self nObs a P Hsh Hwf) as [Hsize [_ [_ Hsl]]].
  rewrite Ha. cbn [rbind]. unfold ravel. rewrite reshape_ok.
  - cbn [rbind tolist arr_data]. rewrite (np_array_data x a Ha). reflexivity.
  - constructor; [nia | constructor].
  - rewrite Hsize. simpl. lia.
Qed.

Lemma toDict_populated (self : BrighterFatterKernel) (nObs : nat) :
  populated self nObs ->
  toDict self = (updateMetadata self, OK (mapping_of self)).
Proof.
  intros P. pose proof (comp_over_xcorrs self nObs P) as Hx.
  pose proof (populated_exact self nObs P) as Hexact.
  destruct P. destruct pop_shape0 as [H0 H1].
  assert (Hg : getLengths (updateMetadata self)
               = OK (fst (shape self) * snd (shape self),
                     Z.quot ((fst (shape self) - 1) * (snd (shape self) - 1)) 4,
                     nObs)).
  { apply (getLengths_common (updateMetadata self) nObs); assumption. }
  assert (Hloop : forM_ (keys (rawXcorrs self))
                    (fun amp => checkRepack amp nObs) (updateMetadata self)
                  = (updateMetadata self, OK tt)).
  { apply forM__ok. intros amp Hamp. apply checkRepack_full.
    destruct (dict_get_key _ _ Hamp) as [x Hget].
    destruct (pop_rawXcorrs0 amp x (dict_get_some_in _ _ _ Hget))
      as [a [Ha [Hsh _]]].
    exists x, a. split; [exact Hget|]. split; [exact Ha|].
    rewrite Hsh. reflexivity. }
  unfold toDict, mbind, mmodify, mget, mlift, mret.
  rewrite Hg.
  change (expIdMask (updateMetadata self)) with (expIdMask self).
  change (rawMeans (updateMetadata self)) with (rawMeans self).
  change (rawVariances (updateMetadata self)) with (rawVariances self).
  change (rawXcorrs (updateMetadata self)) with (rawXcorrs self).
  rewrite comp_over_id by assumption.
  change (fun l : list float => OK (tolist (np_array_flat l)))
    with (fun l : list float => OK l).
  rewrite !comp_over_id by assumption.
  rewrite Hloop.
  change (rawXcorrs (updateMetadata self)) with (rawXcorrs self).
  change (meanXcorrs (updateMetadata self)) with (meanXcorrs self).
  change (ampKernels (updateMetadata self)) with (ampKernels self).
  change (detKernels (updateMetadata self)) with (detKernels self).
  rewrite Hx.
  rewrite !(comp_over_ravel self) by assumption.
  reflexivity.
Qed.

Lemma reshape_kernel (self : BrighterFatterKernel) (a : ndarray) :
  0 < fst (shape self) -> 0 < snd (shape self) ->
  kernel_shaped self a ->
  reshape (np_array_flat (arr_data a)) [fst (shape self); snd (shape self)]
  = OK a.
Proof.
  intros H0 H1 [Hsh Hwf]. rewrite reshape_ok.
  - simpl. rewrite <- Hsh. destruct a. reflexivity.
  - repeat constructor; lia.
  - unfold array_wf in Hwf. simpl. rewrite Hwf, Hsh. simpl. lia.
Qed.

Lemma comp_over_reshape_kernel (self : BrighterFatterKernel) (d : dict ndarray) :
  0 < fst (shape self) -> 0 < snd (shape self) ->
  dict_wf d ->
  (forall k a, In (k, a) d -> kernel_shaped self a) ->
  comp_over (map (fun kv => (fst kv, arr_data (snd kv))) d)
    (fun l => reshape (np_array_flat l) [fst (shape self); snd (shape self)])
  = OK d.
Proof.
  intros H0 H1 Hwf Hk. rewrite comp_over_wf.
  - apply (mapM_roundtrip
             (fun kv => (w <- reshape (np_array_flat (snd kv))
                               [fst (shape self); snd (shape self)] ;;
                         OK (fst kv, w))%result)
             (fun kv => (fst kv, arr_data (snd kv)))).
    intros [k a] Hin. simpl.
    rewrite (reshape_kernel self a H0 H1 (Hk k a Hin)). reflexivity.
  - unfold dict_wf. rewrite (keys_map_values arr_data). exact Hwf.
Qed.

Lemma comp_over_reshape_xcorrs (self : BrighterFatterKernel) (nObs : nat) :
  populated self nObs ->
  let side := Z.sqrt (Z.quot ((fst (shape self) - 1) * (snd (shape self) - 1)) 4) in
  comp_over (map (fun kv => (fst kv, xcorr_data (snd kv))) (rawXcorrs self))
    (fun l => a <- reshape (np_array_flat l) [Z.of_nat nObs; side; side] ;;
              OK (NdArray a))%result
  = OK (map (fun kv => (fst kv, as_array (snd kv))) (rawXcorrs self)).
Proof.
  intros P side. rewrite comp_over_wf.
  - apply (mapM_map_ok
             (fun kv => (w <- (a <- reshape (np_array_flat (snd kv))
                                     [Z.of_nat nObs; side; side] ;;
                               OK (NdArray a)) ;;
                         OK (fst kv, w))%result)
             (fun kv => (fst kv, xcorr_data (snd kv)))
             (fun kv => (fst kv, as_array (snd kv)))).
    intros [k x] Hin. cbn [fst snd].
    destruct (pop_rawXcorrs self nObs P k x Hin) as [a [Ha [Hsh Hwf]]].
    destruct (small_arrays_size self nObs a P Hsh Hwf) as [_ [Hsize [Hside _]]].
    fold side in Hsh, Hsize, Hside.
    unfold as_array. rewrite Ha, <- (np_array_data x a Ha).
    rewrite reshape_ok.
    + cbn [rbind map np_array_flat arr_data]. rewrite Nat2Z.id, <- Hsh.
      destruct a. reflexivity.
    + repeat constructor; lia.
    + exact Hsize.
  - unfold dict_wf. rewrite (keys_map_values xcorr_data). apply P.
Qed.

Lemma valid_coerced (d : dict pyval) :
  dict_wf d ->
  (forall amp v, In (amp, v) d -> exists b, v = PyBool b) ->
  dict_of_items (map (fun kv => (fst kv, PyBool (py_bool (snd kv)))) d) = d.
Proof.
  intros Hwf Hb. rewrite dict_of_items_wf.
  - rewrite <- (map_id d) at 2. apply map_ext_in. intros [k v] Hin.
    destruct (Hb k v Hin) as [b ->]. reflexivity.
  - rewrite (keys_map_values (fun v => PyBool (py_bool v))). exact Hwf.
Qed.

Lemma fromDict_mapping_of (self : BrighterFatterKernel) (nObs : nat) :
  populated self nObs ->
  fromDict (mapping_of self)
  = OK (set_rawXcorrs (updateMetadata self)
          (map (fun kv => (fst kv, as_array (snd kv))) (rawXcorrs self))).
Proof.
  intros P. pose proof (comp_over_reshape_xcorrs self nObs P) as Hx.
  pose proof (populated_exact self nObs P) as Hexact.
  pose proof (smallLength_small self nObs P) as Hsmall.
  destruct P. destruct pop_shape0 as [H0 H1].
  pose proof (smallLength_nonneg _ _ H0 H1) as Hsl.
  unfold fromDict.
  cbn [mapping_of d_metadata getMetadata updateMetadata set_metadata metadata
       IsrCalib_updateMetadata OBSTYPE bfk_VERSION LEVEL KERNEL_DX KERNEL_DY
       lookup rbind md_get d_expIdMask d_rawMeans d_rawVariances d_rawXcorrs
       d_gain d_noise d_meanXcorrs d_ampKernels d_valid d_detKernels].
  rewrite String.eqb_refl. cbn [negb].
  change (PrimFloat.eqb _VERSION 1.0) with false.
  change (PrimFloat.eqb _VERSION 1.1) with true.
  cbv iota.
  rewrite !comp_over_id by assumption. cbn [rbind].
  rewrite (getLengths_common _ nObs) by assumption.
  cbn [rbind]. cbv beta iota.
  cbn [shape level set_rawVariances set_rawMeans set_expIdMask set_shape
       set_level setMetadata set_metadata set_rawXcorrs set_gain set_noise
       set_meanXcorrs set_ampKernels set_valid set_badAmps set_detKernels
       init new fst snd].
  rewrite int_sqrt_exact by (split; assumption). cbn [rbind].
  rewrite Hx. cbn [rbind].
  rewrite (keys_map_values xcorr_data (rawXcorrs self)), <- pop_keys0,
    <- (keys_map_values arr_data (meanXcorrs self)).
  match goal with
  | |- context [dict_comp (fun amp => rbind (getitem ?d amp) ?f) (keys ?d)] =>
      change (dict_comp (fun amp => rbind (getitem d amp) f) (keys d))
        with (comp_over d f)
  end.
  rewrite !(comp_over_reshape_kernel self) by assumption. cbn [rbind].
  rewrite valid_coerced by assumption.
  rewrite <- pop_badAmps0.
  destruct self as [? ? ? ? ? ? ? [s0 s1] ? ? ? ? ? ?]. reflexivity.
Qed.

Lemma as_array_NdArray (d : dict pyseq) :
  (forall amp x, In (amp, x) d -> exists a, x = NdArray a) ->
  map (fun kv => (fst kv, as_array (snd kv))) d = d.
Proof.
  intros H. rewrite <- (map_id d) at 2. apply map_ext_in.
  intros [k x] Hin. destruct (H k x Hin) as [a ->]. reflexivity.
Qed.

(** C1, as the code has it.  For a populated calibration at level
    ['AMP'] ([populated]: a shape of positive integers for which the small
    arrays are square and whose product [(shape[0]-1)*(shape[1]-1)] is
    below [2^53], so that its division by 4 is exact in binary64, one
    observation count for all amplifiers, every
    [rawXcorrs[amp]] at full length, kernel arrays of the calibration's
    shape, one entry per amplifier, boolean [valid] and [badAmps] listing
    the amplifiers that are not valid), [toDict] succeeds and only
    refreshes the metadata, and [fromDict] of its result succeeds and
    reproduces every field: [rawXcorrs[amp]] as the array
    [np.array(rawXcorrs[amp])], every other field as it is. *)
Theorem roundtrip_populated (self : BrighterFatterKernel) (nObs : nat) :
  populated self nObs ->
  exists dictionary calib,
    toDict self = (updateMetadata self, OK dictionary)
    /\ fromDict dictionary = OK calib
    /\ level calib = level self
    /\ shape calib = shape self
    /\ expIdMask calib = expIdMask self
    /\ rawMeans calib = rawMeans self
    /\ rawVariances calib = rawVariances self
    /\ rawXcorrs calib
       = map (fun kv => (fst kv, as_array (snd kv))) (rawXcorrs self)
    /\ gain calib = gain self
    /\ noise calib = noise self
    /\ meanXcorrs calib = meanXcorrs self
    /\ ampKernels calib = ampKernels self
    /\ valid calib = valid self
    /\ badAmps calib = badAmps self
    /\ detKernels calib = detKernels self.
Proof.
  intros P. eexists. eexists.
  split; [exact (toDict_populated self nObs P)|].
  split; [exact (fromDict_mapping_of self nObs P)|].
  repeat split.
Qed.

Ltac solve_dict_wf :=
  unfold dict_wf; simpl; repeat constructor; simpl; intuition discriminate.

Ltac in_cases H tac :=
  simpl in H;
  repeat (destruct H as [H|H]; [injection H as <- <-; tac|]);
  destruct H.

Lemma calib_consistent_populated : populated calib_consistent 1.
Proof.
  constructor; cbv zeta.
  - reflexivity.
  - split; reflexivity.
  - reflexivity.
  - right. reflexivity.
  - solve_dict_wf.
  - solve_dict_wf.
  - solve_dict_wf.
  - solve_dict_wf.
  - solve_dict_wf.
  - solve_dict_wf.
  - solve_dict_wf.
  - solve_dict_wf.
  - discriminate.
  - intros amp l H. in_cases H reflexivity.
  - reflexivity.
  - intros amp x H.
    in_cases H ltac:(eexists; split; [reflexivity | split; reflexivity]).
  - intros amp a H. in_cases H ltac:(split; reflexivity).
  - intros amp a H. in_cases H ltac:(split; reflexivity).
  - intros amp a H. in_cases H ltac:(split; reflexivity).
  - intros amp v H. in_cases H ltac:(eexists; reflexivity).
  - reflexivity.
Qed.

(** [roundtrip_populated] at three amplifiers with kernels of shape
    (3, 3) and one observation pair each. *)
Lemma roundtrip_populated_witness :
  exists dictionary calib,
    toDict calib_consistent = (updateMetadata calib_consistent, OK dictionary)
    /\ fromDict dictionary = OK calib
    /\ level calib = level calib_consistent
    /\ shape calib = shape calib_consistent
    /\ expIdMask calib = expIdMask calib_consistent
    /\ rawMeans calib = rawMeans calib_consistent
    /\ rawVariances calib = rawVariances calib_consistent
    /\ rawXcorrs calib
       = map (fun kv => (fst kv, as_array (snd kv))) (rawXcorrs calib_consistent)
    /\ gain calib = gain calib_consistent
    /\ noise calib = noise calib_consistent
    /\ meanXcorrs calib = meanXcorrs calib_consistent
    /\ ampKernels calib = ampKernels calib_consistent
    /\ valid calib = valid calib_consistent
    /\ badAmps calib = badAmps calib_consistent
    /\ detKernels calib = detKernels calib_consistent.
Proof.
  exact (roundtrip_populated calib_consistent 1 calib_consistent_populated).
Defined.

(** C1, as stated, fails.  With kernels of shape (4, 4) and one
    observation pair, [smallLength] is 2: a calibration whose small array
    holds two values is exported, and [fromDict] cannot reshape the two
    values into 1 x 1 x 1; one whose small array is 1 x 1 is not exported
    at all.  A calibration whose [badAmps] is not the list of invalid
    amplifiers comes back with the list of invalid amplifiers.  And a
    calibration whose correlations were compacted to three of five
    observation pairs comes back with five. *)
Lemma roundtrip_fails :
  is_ok (outcome (toDict (calib_4x4 (mkArray [1; 2]%nat [0.01; 0.02]%float))))
  = true
  /\ roundtrip (calib_4x4 (mkArray [1; 2]%nat [0.01; 0.02]%float))
     = Raise ValueError
  /\ roundtrip (calib_4x4 (arr11 0.01)) = Raise ValueError
  /\ (exists calib, roundtrip calib_three = OK calib
                    /\ badAmps calib = ["C02"]
                    /\ badAmps calib_three = ["C01"])
  /\ (exists calib, roundtrip calib_masked = OK calib
                    /\ map xcorr_data (values (rawXcorrs calib))
                       = [[1.0; nan; 2.0; nan; 3.0]%float]
                    /\ map xcorr_data (values (rawXcorrs calib_masked))
                       = [[1.0; 2.0; 3.0]%float]).
Proof.
  split; [vm_compute; reflexivity|].
  split; [vm_compute; reflexivity|].
  split; [vm_compute; reflexivity|].
  split.
  - eexists. split; [vm_compute; reflexivity|]. split; reflexivity.
  - eexists. split; [vm_compute; reflexivity|]. split; reflexivity.
Qed.

(** ** Further properties of the codec *)

(** [fromDict] never reads the ['badAmps'] entry of the mapping: the list
    it stores is recomputed from ['valid']. *)
Example fromDict_ignores_badAmps (dictionary : Dictionary) (l : list string) :
  fromDict (with_badAmps dictionary l) = fromDict dictionary.
Proof. reflexivity. Qed.

(** When every observation pair of an amplifier was rejected and its
    compacted correlations are the empty list, the shape of
    [np.array([])] is [(0,)]: the placeholder's shape cannot be read from
    it, and both exports raise [IndexError] instead of repacking. *)
Example export_all_masked_raises :
  outcome (toDict calib_all_masked) = Raise IndexError
  /\ outcome (toTable calib_all_masked) = Raise IndexError.
Proof. split; vm_compute; reflexivity. Qed.

(** * Further properties *)

(** ** When getLengths fails *)

Lemma py_set_not_singleton (l : list nat) :
  length (py_set l) <> 1%nat ->
  l = [] \/ exists m m', In m l /\ In m' l /\ m <> m'.
Proof.
  intros Hlen. destruct l as [|m l]; [left; reflexivity | right].
  destruct (forallb (Nat.eqb m) l) eqn:E.
  - exfalso. apply Hlen. rewrite (py_set_constant (m :: l) m).
    + reflexivity.
    + discriminate.
    + intros m' [<-|Hin]; [reflexivity|].
      rewrite forallb_forall in E. specialize (E m' Hin).
      apply Nat.eqb_eq in E. congruence.
  - assert (Hex : exists m', In m' l /\ m <> m').
    { clear Hlen. induction l as [|m0 l IH]; simpl in E; [discriminate|].
      destruct (Nat.eqb m m0) eqn:E0; simpl in E.
      - destruct (IH E) as [m' [Hin Hne]]. exists m'. split; [right|]; assumption.
      - apply Nat.eqb_neq in E0. exists m0. split; [left; reflexivity | exact E0]. }
    destruct Hex as [m' [Hin Hne]].
    exists m, m'. split; [left; reflexivity|]. split; [right; exact Hin | exact Hne].
Qed.

Lemma level_eqb_AMP (l : pylevel) :
  level_eqb l "AMP" = true <-> l = LevelStr "AMP".
Proof.
  destruct l as [|s]; simpl; split; try discriminate.
  - intros H. apply String.eqb_eq in H. congruence.
  - intros H. injection H as ->. reflexivity.
Qed.

(** [getLengths] fails in two ways only.  It raises [OverflowError],
    whatever the level, when the quotient [(shape[0]-1)*(shape[1]-1)/4] is
    beyond the range of binary64.  Otherwise it raises the inconsistency
    error, at level ['AMP'], when [rawMeans] has no amplifier or two
    amplifiers whose sequences differ in length.  In every other case it
    returns. *)
Theorem getLengths_raises_iff (self : BrighterFatterKernel) (e : exn) :
  let x := float_of_int ((fst (shape self) - 1) * (snd (shape self) - 1)) in
  getLengths self = Raise e
  <-> (2 ^ 1026 <= Z.abs x /\ e = OverflowError)
      \/ (Z.abs x < 2 ^ 1026
          /\ e = InconsistentObservations
          /\ level self = LevelStr "AMP"
          /\ (rawMeans self = []
              \/ exists amp1 l1 amp2 l2,
                   In (amp1, l1) (rawMeans self)
                   /\ In (amp2, l2) (rawMeans self)
                   /\ length l1 <> length l2)).
Proof.
  intros x. subst x. split.
  - intros H. unfold getLengths in H.
    destruct (int_truediv4 _) as [sl|e'] eqn:Ediv.
    + destruct (int_truediv4_inv _ _ Ediv) as [_ Hrange]. cbn [rbind] in H.
      right. split; [exact Hrange|].
      destruct (level_eqb (level self) "AMP") eqn:El; [|discriminate H].
      apply level_eqb_AMP in El. cbv zeta in H.
      destruct (length (py_set _) =? 1)%nat eqn:Elen; simpl in H;
        [discriminate H|].
      injection H as <-. split; [reflexivity|]. split; [exact El|].
      apply Nat.eqb_neq in Elen.
      destruct (py_set_not_singleton _ Elen)
        as [Hnil | [m [m' [Hm [Hm' Hne]]]]].
      * left. unfold values in Hnil.
        destruct (rawMeans self); [reflexivity | discriminate].
      * right. unfold values in Hm, Hm'. rewrite map_map in Hm, Hm'.
        apply in_map_iff in Hm, Hm'.
        destruct Hm as [[amp1 l1] [<- Hin1]].
        destruct Hm' as [[amp2 l2] [<- Hin2]].
        exists amp1, l1, amp2, l2. auto.
    + cbn [rbind] in H. injection H as <-.
      destruct (int_truediv4_raises _ _ Ediv) as [-> Hover].
      left. split; [exact Hover | reflexivity].
  - intros [[Hover ->] | [Hrange [-> [Hl Hcases]]]].
    + unfold getLengths, int_truediv4. cbv zeta.
      rewrite (proj2 (Z.leb_le _ _) Hover). reflexivity.
    + rewrite (getLengths_inconsistent self Hl Hcases).
      unfold int_truediv4. cbv zeta.
      rewrite (proj2 (Z.leb_gt _ _) Hrange). reflexivity.
Qed.

(** ** Edge behaviour of repackCorrelations *)

Lemma seq_getitem_ge (x : pyseq) (len idx : nat) :
  seq_length x = Some len -> (len <= idx)%nat ->
  seq_getitem x idx = Raise IndexError.
Proof.
  destruct x as [l|a]; simpl; intros Hlen Hle.
  - injection Hlen as <-. apply nth_error_None in Hle. rewrite Hle. reflexivity.
  - unfold arr_getitem. destruct (arr_shape a) as [|n rest]; [reflexivity|].
    injection Hlen as ->. apply Nat.ltb_ge in Hle. rewrite Hle. reflexivity.
Qed.

Lemma repack_loop_too_short (self : BrighterFatterKernel) (amp : string)
  (x : pyseq) (len n0 r c : nat) :
  dict_get (rawXcorrs self) amp = Some x ->
  seq_length x = Some len ->
  forall (mask : list bool) (idx : nat) (acc : list ndarray),
    (idx <= len)%nat -> (len < idx + np_sum mask)%nat ->
    repack_loop self amp [n0; r; c] mask idx acc = Raise IndexError.
Proof.
  intros Hx Hlen. induction mask as [|b mask IH]; intros idx acc Hle Hlt.
  - unfold np_sum in Hlt. simpl in Hlt. lia.
  - destruct b; simpl repack_loop.
    + unfold getitem. rewrite Hx. cbn [rbind].
      destruct (Nat.eq_dec idx len) as [->|Hne].
      * rewrite (seq_getitem_ge x len len Hlen (Nat.le_refl _)). reflexivity.
      * destruct (seq_getitem_lt x len idx Hlen ltac:(lia)) as [a ->].
        cbn [rbind]. apply IH; [lia|].
        unfold np_sum in *. simpl in Hlt. lia.
    + cbn [tuple_getitem nth_error rbind]. apply IH; [exact Hle|].
      unfold np_sum in *. simpl in Hlt. exact Hlt.
Qed.

(** When [rawXcorrs[amp]] has fewer elements than [expIdMask[amp]] has true
    entries, [repackCorrelations] raises [IndexError] and assigns
    nothing. *)
Theorem repackCorrelations_too_short (self : BrighterFatterKernel)
  (amp : string) (mask : list bool) (x : pyseq) (len n0 r c : nat) :
  dict_get (expIdMask self) amp = Some mask ->
  dict_get (rawXcorrs self) amp = Some x ->
  seq_length x = Some len ->
  (len < np_sum mask)%nat ->
  repackCorrelations amp [n0; r; c] self = (self, Raise IndexError).
Proof.
  intros Hmask Hx Hlen Hlt. unfold repackCorrelations, getitem.
  rewrite Hmask. cbn [rbind].
  rewrite (repack_loop_too_short self amp x len n0 r c Hx Hlen mask 0 []);
    [reflexivity | lia | simpl; exact Hlt].
Qed.

(** [repackCorrelations_too_short] at three compacted arrays and a mask
    with four true entries. *)
Lemma repackCorrelations_too_short_witness :
  repackCorrelations "C00" [3; 1; 1]%nat calib_short
  = (calib_short, Raise IndexError).
Proof.
  apply (repackCorrelations_too_short calib_short "C00"
           [true; true; true; true; false]
           (PyList [arr11 1.0; arr11 2.0; arr11 3.0]) 3 3 1 1);
    try reflexivity.
  unfold np_sum. simpl. lia.
Defined.

Lemma mapM_seq_getitem_step (x : pyseq) (idx n : nat) (a : ndarray)
  (elems : list ndarray) :
  seq_getitem x idx = OK a ->
  mapM (seq_getitem x) (seq (S idx) n) = OK elems ->
  mapM (seq_getitem x) (seq idx (S n)) = OK (a :: elems).
Proof.
  intros Ha He. simpl. rewrite Ha. cbn [rbind]. rewrite He. reflexivity.
Qed.

Lemma repack_loop_compress (self : BrighterFatterKernel) (amp : string)
  (x : pyseq) (len n0 r c : nat) :
  dict_get (rawXcorrs self) amp = Some x ->
  seq_length x = Some len ->
  forall (mask : list bool) (idx : nat) (acc : list ndarray),
    (idx + np_sum mask <= len)%nat ->
    exists out elems,
      repack_loop self amp [n0; r; c] mask idx acc = OK (acc ++ out)
      /\ length out = length mask
      /\ mapM (seq_getitem x) (seq idx (np_sum mask)) = OK elems
      /\ compress true mask out = elems
      /\ compress false mask out
         = repeat (np_full r c nan) (length mask - np_sum mask).
Proof.
  intros Hx Hlen. induction mask as [|b mask IH]; intros idx acc Hle.
  - exists [], []. rewrite app_nil_r. simpl. auto.
  - destruct b; simpl repack_loop.
    + assert (Hs : np_sum (true :: mask) = S (np_sum mask)) by reflexivity.
      rewrite Hs in *.
      unfold getitem. rewrite Hx. cbn [rbind].
      destruct (seq_getitem_lt x len idx Hlen ltac:(lia)) as [a Ha].
      rewrite Ha. cbn [rbind].
      destruct (IH (S idx) (acc ++ [a]) ltac:(lia))
        as [out [elems [Hout [Hl [He [Ht Hf]]]]]].
      exists (a :: out), (a :: elems). rewrite Hout, <- app_assoc.
      split; [reflexivity|]. split; [simpl; congruence|].
      split; [apply mapM_seq_getitem_step; assumption|].
      split; [simpl; congruence|].
      simpl. exact Hf.
    + assert (Hs : np_sum (false :: mask) = np_sum mask) by reflexivity.
      rewrite Hs in *.
      cbn [tuple_getitem nth_error rbind].
      destruct (IH idx (acc ++ [np_full r c nan]) Hle)
        as [out [elems [Hout [Hl [He [Ht Hf]]]]]].
      exists (np_full r c nan :: out), elems. rewrite Hout, <- app_assoc.
      split; [reflexivity|]. split; [simpl; congruence|].
      split; [exact He|]. split; [simpl; exact Ht|].
      simpl compress. rewrite Hf.
      assert (Hn : (np_sum mask <= length mask)%nat).
      { unfold np_sum. apply filter_length_le. }
      simpl length.
      replace (S (length mask) - np_sum mask)%nat
        with (S (length mask - np_sum mask)) by lia.
      reflexivity.
Qed.

(** Repacking undoes compaction by the mask, also when [rawXcorrs[amp]]
    has more elements than [expIdMask[amp]] has true entries: the entries
    of the repacked list at the true positions are, in order, the first
    [sum(mask)] elements of [rawXcorrs[amp]] (any further element is
    dropped), and its entries at the false positions are all the NaN
    placeholder. *)
Theorem repackCorrelations_undoes_compaction (self : BrighterFatterKernel)
  (amp : string) (mask : list bool) (x : pyseq) (len n0 r c : nat) :
  dict_get (expIdMask self) amp = Some mask ->
  dict_get (rawXcorrs self) amp = Some x ->
  seq_length x = Some len ->
  (np_sum mask <= len)%nat ->
  exists repacked,
    repackCorrelations amp [n0; r; c] self
    = (set_rawXcorrs self (dict_set (rawXcorrs self) amp (PyList repacked)),
       OK tt)
    /\ first_elements x (np_sum mask) = OK (compress true mask repacked)
    /\ compress false mask repacked
       = repeat (np_full r c nan) (length mask - np_sum mask).
Proof.
  intros Hmask Hx Hlen Hle.
  destruct (repack_loop_compress self amp x len n0 r c Hx Hlen mask 0 []
              ltac:(simpl; exact Hle))
    as [out [elems [Hout [Hl [He [Ht Hf]]]]]].
  exists out. unfold repackCorrelations, getitem. rewrite Hmask. cbn [rbind].
  rewrite Hout. simpl app.
  split; [reflexivity|]. split; [|exact Hf].
  unfold first_elements. rewrite Ht. exact He.
Qed.

(** [repackCorrelations_undoes_compaction] at the mask
    [true, false, true, false, true] with three compacted arrays. *)
Lemma repackCorrelations_undoes_compaction_witness :
  exists repacked,
    repackCorrelations "C00" [3; 1; 1]%nat calib_masked
    = (set_rawXcorrs calib_masked
         (dict_set (rawXcorrs calib_masked) "C00" (PyList repacked)),
       OK tt)
    /\ first_elements (PyList [arr11 1.0; arr11 2.0; arr11 3.0])
         (np_sum [true; false; true; false; true])
       = OK (compress true [true; false; true; false; true] repacked)
    /\ compress false [true; false; true; false; true] repacked
       = repeat (np_full 1 1 nan)
           (length [true; false; true; false; true]
            - np_sum [true; false; true; false; true]).
Proof.
  apply (repackCorrelations_undoes_compaction calib_masked "C00"
           [true; false; true; false; true]
           (PyList [arr11 1.0; arr11 2.0; arr11 3.0]) 3 3 1 1);
    reflexivity.
Defined.

(** ** What a successful export has checked *)

Lemma checkRepack_ok_inv amp nObs self self' :
  checkRepack amp nObs self = (self', OK tt) ->
  exists v n0,
    dict_get (rawXcorrs self) amp = Some v
    /\ leading v n0
    /\ ((n0 = nObs /\ self' = self)
        \/ (n0 <> nObs
            /\ exists mask a l,
                 dict_get (expIdMask self) amp = Some mask
                 /\ n0 = np_sum mask
                 /\ np_array v = OK a
                 /\ repack_loop self amp (arr_shape a) mask 0 [] = OK l
                 /\ self' = set_rawXcorrs self
                              (dict_set (rawXcorrs self) amp (PyList l)))).
Proof.
  unfold checkRepack, mbind, mget, mlift, getitem. intros H.
  destruct (dict_get (rawXcorrs self) amp) as [v|] eqn:Ev; [|discriminate H].
  cbn [rbind] in H.
  destruct (np_array v) as [a|e] eqn:Ea; [|discriminate H].
  destruct (tuple_getitem (arr_shape a) 0) as [n0|e] eqn:En; [|discriminate H].
  exists v, n0. split; [reflexivity|]. split; [exists a; auto|].
  destruct (nObs =? n0)%nat eqn:Eq; cbn [negb] in H.
  - left. apply Nat.eqb_eq in Eq. unfold mret in H. injection H as <-. auto.
  - right. apply Nat.eqb_neq in Eq. split; [congruence|].
    destruct (dict_get (expIdMask self) amp) as [mask|] eqn:Em; [|discriminate H].
    destruct (n0 =? np_sum mask)%nat eqn:Es; [|discriminate H].
    apply Nat.eqb_eq in Es.
    unfold repackCorrelations, getitem in H. rewrite Em in H. cbn [rbind] in H.
    destruct (repack_loop self amp (arr_shape a) mask 0 []) as [l|e] eqn:El;
      [|discriminate H].
    injection H as <-. exists mask, a, l. auto.
Qed.

Lemma repack_loop_length self amp correlationShape :
  forall mask idx acc l,
    repack_loop self amp correlationShape mask idx acc = OK l ->
    length l = (length acc + length mask)%nat.
Proof.
  induction mask as [|b mask IH]; intros idx acc l H; simpl in H.
  - injection H as <-. simpl. lia.
  - destruct b.
    + apply rbind_ok in H. destruct H as [x [_ H]].
      apply rbind_ok in H. destruct H as [a [_ H]].
      apply IH in H. rewrite H, length_app. simpl. lia.
    + apply rbind_ok in H. destruct H as [r [_ H]].
      apply rbind_ok in H. destruct H as [c [_ H]].
      apply IH in H. rewrite H, length_app. simpl. lia.
Qed.

Lemma same_but_rawXcorrs_expIdMask x y :
  same_but_rawXcorrs x y -> expIdMask y = expIdMask x.
Proof. unfold same_but_rawXcorrs. intros ->. reflexivity. Qed.

Lemma dict_get_in_keys {V} (d : dict V) (k : string) (v : V) :
  dict_get d k = Some v -> In k (keys d).
Proof.
  intros H. apply dict_get_some_in in H.
  apply in_map_iff. exists (k, v). auto.
Qed.

(** What the loop over the amplifiers has done once it has run to its
    end: an amplifier outside the loop keeps its entry; an amplifier of the
    loop either was at full length and keeps its entry, or had as many
    elements as its mask has true entries and holds the repacked list. *)
Lemma checkRepack_loop (nObs : nat) :
  forall ks self0 self1,
    NoDup ks ->
    forM_ ks (fun amp => checkRepack amp nObs) self0 = (self1, OK tt) ->
    same_but_rawXcorrs self0 self1
    /\ (forall amp, ~ In amp ks ->
          dict_get (rawXcorrs self1) amp = dict_get (rawXcorrs self0) amp)
    /\ (forall amp, In amp ks ->
          exists v n0,
            dict_get (rawXcorrs self0) amp = Some v
            /\ leading v n0
            /\ ((n0 = nObs /\ dict_get (rawXcorrs self1) amp = Some v)
                \/ (n0 <> nObs
                    /\ exists mask a l mid,
                         dict_get (expIdMask self0) amp = Some mask
                         /\ n0 = np_sum mask
                         /\ np_array v = OK a
                         /\ repack_loop mid amp (arr_shape a) mask 0 [] = OK l
                         /\ dict_get (rawXcorrs self1) amp = Some (PyList l)))).
Proof.
  induction ks as [|amp ks IH]; intros self0 self1 Hnd H; simpl in H.
  - apply mret_inv in H. destruct H as [-> _].
    split; [apply same_but_rawXcorrs_refl|]. split; [reflexivity|].
    intros amp [].
  - apply mbind_inv in H. destruct H as [[] [selfa [Ha H]]].
    inversion Hnd as [|? ? Hnin Hnd']; subst.
    destruct (IH selfa self1 Hnd' H) as [Hsame [Hout Hin]].
    pose proof (frames_checkRepack amp nObs self0) as Hfa.
    rewrite Ha in Hfa. simpl in Hfa.
    destruct (checkRepack_ok_inv amp nObs self0 selfa Ha)
      as [v [n0 [Hv [Hlead Hcase]]]].
    assert (Hother : forall amp', amp' <> amp ->
               dict_get (rawXcorrs selfa) amp' = dict_get (rawXcorrs self0) amp').
    { intros amp' Hne.
      destruct Hcase as [[_ ->] | [_ [mask [a [l [_ [_ [_ [_ ->]]]]]]]]];
        [reflexivity|].
      simpl. apply dict_get_set_other. exact Hne. }
    split; [eapply same_but_rawXcorrs_trans; eassumption|].
    split.
    + intros amp' Hnin'. rewrite Hout by (intros Hc; apply Hnin'; right; exact Hc).
      apply Hother. intros ->. apply Hnin'. left. reflexivity.
    + intros amp' [<-|Hin'].
      * exists v, n0. split; [exact Hv|]. split; [exact Hlead|].
        rewrite (Hout amp Hnin).
        destruct Hcase as [[Hn ->] | [Hn [mask [a [l [Hm [Hs [Hnp [Hl ->]]]]]]]]].
        -- left. auto.
        -- right. split; [exact Hn|]. exists mask, a, l, self0.
           repeat split; try assumption. simpl. apply dict_get_set_same.
      * assert (Hne : amp' <> amp) by (intros ->; contradiction).
        destruct (Hin amp' Hin') as [v' [n0' [Hv' [Hlead' Hcase']]]].
        exists v', n0'. rewrite <- (Hother amp' Hne).
        split; [exact Hv'|]. split; [exact Hlead'|].
        destruct Hcase' as [Hl | [Hn [mask [a [l [mid [Hm Hrest]]]]]]];
          [left; exact Hl|].
        right. split; [exact Hn|]. exists mask, a, l, mid.
        rewrite <- (same_but_rawXcorrs_expIdMask _ _ Hfa). auto.
Qed.

(** The steps of a successful [toDict]. *)
Lemma toDict_inv (self self' : BrighterFatterKernel) (d : Dictionary) :
  toDict self = (self', OK d) ->
  exists kernelLength smallLength nObs r1 r2 r3 xs ms aks dks,
    getLengths (updateMetadata self) = OK (kernelLength, smallLength, nObs)
    /\ comp_over (expIdMask self) (fun l => OK l) = OK r1
    /\ comp_over (rawMeans self) (fun l => OK (tolist (np_array_flat l))) = OK r2
    /\ comp_over (rawVariances self) (fun l => OK (tolist (np_array_flat l)))
       = OK r3
    /\ forM_ (keys (rawXcorrs self)) (fun amp => checkRepack amp nObs)
         (updateMetadata self) = (self', OK tt)
    /\ comp_over (rawXcorrs self')
         (fun x => a <- np_array x ;;
                   ravel (Z.of_nat nObs * smallLength) a)%result = OK xs
    /\ comp_over (meanXcorrs self') (ravel kernelLength) = OK ms
    /\ comp_over (ampKernels self') (ravel kernelLength) = OK aks
    /\ comp_over (detKernels self') (ravel kernelLength) = OK dks
    /\ d = mkDictionary (getMetadata (updateMetadata self)) (Some r1) (Some r2)
             (Some r3) None None xs (badAmps self') (gain self') (noise self')
             ms aks (valid self') dks.
Proof.
  unfold toDict, mbind, mmodify, mget, mlift, mret. intros H.
  destruct (getLengths (updateMetadata self))
    as [[[kernelLength smallLength] nObs]|e]; [|discriminate H].
  change (expIdMask (updateMetadata self)) with (expIdMask self) in H.
  change (rawMeans (updateMetadata self)) with (rawMeans self) in H.
  change (rawVariances (updateMetadata self)) with (rawVariances self) in H.
  change (rawXcorrs (updateMetadata self)) with (rawXcorrs self) in H.
  destruct (comp_over (expIdMask self) _) as [r1|e]; [|discriminate H].
  destruct (comp_over (rawMeans self) _) as [r2|e]; [|discriminate H].
  destruct (comp_over (rawVariances self) _) as [r3|e]; [|discriminate H].
  destruct (forM_ _ _ _) as [self1 [[]|e]] eqn:Eloop; [|discriminate H].
  destruct (comp_over (rawXcorrs self1) _) as [xs|e] eqn:Exs; [|discriminate H].
  destruct (comp_over (meanXcorrs self1) _) as [ms|e] eqn:Ems; [|discriminate H].
  destruct (comp_over (ampKernels self1) _) as [aks|e] eqn:Eaks; [|discriminate H].
  destruct (comp_over (detKernels self1) _) as [dks|e] eqn:Edks; [|discriminate H].
  injection H as <- <-.
  exists kernelLength, smallLength, nObs, r1, r2, r3, xs, ms, aks, dks.
  repeat split; assumption.
Qed.

(** [toDict] exports only correlation sequences it has checked: when it
    succeeds, the observation counts are consistent and every
    [rawXcorrs[amp]] stacks to an array whose leading length is the
    observation count or the number of true entries of [expIdMask[amp]];
    a sequence of any other length is never truncated or padded. *)
Theorem toDict_validates_lengths (self self' : BrighterFatterKernel)
  (d : Dictionary) :
  dict_wf (rawXcorrs self) ->
  toDict self = (self', OK d) ->
  exists kernelLength smallLength nObs,
    getLengths self = OK (kernelLength, smallLength, nObs)
    /\ forall amp v,
         dict_get (rawXcorrs self) amp = Some v ->
         exists n0,
           leading v n0
           /\ (n0 = nObs
               \/ exists mask,
                    dict_get (expIdMask self) amp = Some mask
                    /\ n0 = np_sum mask).
Proof.
  intros Hwf H.
  destruct (toDict_inv self self' d H)
    as [kernelLength [smallLength [nObs [r1 [r2 [r3 [xs [ms [aks [dks
        [Hg [_ [_ [_ [Hloop _]]]]]]]]]]]]]]].
  exists kernelLength, smallLength, nObs. split; [exact Hg|].
  intros amp v Hv.
  destruct (checkRepack_loop nObs _ _ _ Hwf Hloop) as [_ [_ Hin]].
  destruct (Hin amp (dict_get_in_keys _ _ _ Hv)) as [v' [n0 [Hv' [Hlead Hcase]]]].
  change (rawXcorrs (updateMetadata self)) with (rawXcorrs self) in Hv'.
  rewrite Hv in Hv'. injection Hv' as <-.
  exists n0. split; [exact Hlead|].
  destruct Hcase as [[Hn _] | [_ [mask [a [l [mid [Hm [Hs _]]]]]]]].
  - left. exact Hn.
  - right. exists mask. auto.
Qed.

(** [toDict_validates_lengths] at the calibration compacted to three of
    five observation pairs. *)
Lemma toDict_validates_lengths_witness :
  exists kernelLength smallLength nObs,
    getLengths calib_masked = OK (kernelLength, smallLength, nObs)
    /\ forall amp v,
         dict_get (rawXcorrs calib_masked) amp = Some v ->
         exists n0,
           leading v n0
           /\ (n0 = nObs
               \/ exists mask,
                    dict_get (expIdMask calib_masked) amp = Some mask
                    /\ n0 = np_sum mask).
Proof.
  destruct (toDict calib_masked) as [self' [d|e]] eqn:E;
    [|vm_compute in E; discriminate E].
  apply (toDict_validates_lengths calib_masked self' d); [|exact E].
  unfold dict_wf. simpl. repeat constructor. simpl. intuition.
Defined.

(** ** Exporting twice *)

Lemma dict_comp_from_ok_inv {V} (f : string -> result V) (ks : list string) :
  forall acc r,
    dict_comp_from acc f ks = OK r ->
    forall k, In k ks -> exists w, f k = OK w.
Proof.
  induction ks as [|k0 ks IH]; intros acc r H k Hin; [destruct Hin|].
  simpl in H. apply rbind_ok in H. destruct H as [w [Hw H]].
  destruct Hin as [<-|Hin]; [eauto | eapply IH; eassumption].
Qed.

Lemma comp_over_ok_inv {V W} (d : dict V) (f : V -> result W) (r : dict W) :
  comp_over d f = OK r ->
  forall k v, dict_get d k = Some v -> exists w, f v = OK w.
Proof.
  intros H k v Hv. unfold comp_over, dict_comp in H.
  destruct (dict_comp_from_ok_inv _ _ _ _ H k (dict_get_in_keys _ _ _ Hv))
    as [w Hw].
  unfold getitem in Hw. rewrite Hv in Hw. eauto.
Qed.

Lemma np_stack_leading (l : list ndarray) (a : ndarray) :
  np_stack l = OK a -> tuple_getitem (arr_shape a) 0 = OK (length l).
Proof.
  unfold np_stack. destruct l as [|a0 l].
  - intros H. injection H as <-. reflexivity.
  - destruct (forallb _ _); [|discriminate].
    intros H. injection H as <-. reflexivity.
Qed.

Lemma tuple_getitem_hd (sh : list nat) (n : nat) :
  tuple_getitem sh 0 = OK n -> hd_error sh = Some n.
Proof.
  unfold tuple_getitem. destruct sh as [|m sh]; simpl; [discriminate|].
  intros H. injection H as ->. reflexivity.
Qed.

Lemma getLengths_same_but x y :
  same_but_rawXcorrs x y -> getLengths y = getLengths x.
Proof. unfold same_but_rawXcorrs. intros ->. reflexivity. Qed.

Lemma updateMetadata_fixed x y :
  same_but_rawXcorrs (updateMetadata x) y -> updateMetadata y = y.
Proof.
  unfold same_but_rawXcorrs. intros H. rewrite H.
  destruct x as [? ? ? ? ? ? ? [s0 s1] ? ? ? ? ? ?]. reflexivity.
Qed.

(** The converse of [toDict_inv]. *)
Lemma toDict_intro (self self' : BrighterFatterKernel)
  kernelLength smallLength nObs r1 r2 r3 xs ms aks dks :
  getLengths (updateMetadata self) = OK (kernelLength, smallLength, nObs) ->
  comp_over (expIdMask self) (fun l => OK l) = OK r1 ->
  comp_over (rawMeans self) (fun l => OK (tolist (np_array_flat l))) = OK r2 ->
  comp_over (rawVariances self) (fun l => OK (tolist (np_array_flat l)))
  = OK r3 ->
  forM_ (keys (rawXcorrs self)) (fun amp => checkRepack amp nObs)
    (updateMetadata self) = (self', OK tt) ->
  comp_over (rawXcorrs self')
    (fun x => a <- np_array x ;;
              ravel (Z.of_nat nObs * smallLength) a)%result = OK xs ->
  comp_over (meanXcorrs self') (ravel kernelLength) = OK ms ->
  comp_over (ampKernels self') (ravel kernelLength) = OK aks ->
  comp_over (detKernels self') (ravel kernelLength) = OK dks ->
  toDict self
  = (self',
     OK (mkDictionary (getMetadata (updateMetadata self)) (Some r1) (Some r2)
           (Some r3) None None xs (badAmps self') (gain self') (noise self')
           ms aks (valid self') dks)).
Proof.
  intros Hg E1 E2 E3 Hloop Exs Ems Eaks Edks.
  unfold toDict, mbind, mmodify, mget, mlift, mret.
  rewrite Hg.
  change (expIdMask (updateMetadata self)) with (expIdMask self).
  change (rawMeans (updateMetadata self)) with (rawMeans self).
  change (rawVariances (updateMetadata self)) with (rawVariances self).
  change (rawXcorrs (updateMetadata self)) with (rawXcorrs self).
  rewrite E1, E2, E3, Hloop, Exs, Ems, Eaks, Edks. reflexivity.
Qed.

(** After a successful export every [rawXcorrs[amp]] is at full length. *)
Lemma toDict_leaves_full_length (self self' : BrighterFatterKernel)
  (d : Dictionary) kernelLength smallLength nObs :
  dict_wf (rawXcorrs self) ->
  masks_at_length self ->
  toDict self = (self', OK d) ->
  getLengths self = OK (kernelLength, smallLength, nObs) ->
  forall amp v, dict_get (rawXcorrs self') amp = Some v -> leading v nObs.
Proof.
  intros Hwf Hmasks H Hg amp v' Hv'.
  destruct (toDict_inv self self' d H)
    as [kl [sl [n [r1 [r2 [r3 [xs [ms [aks [dks
        [Hg' [_ [_ [_ [Hloop [Exs _]]]]]]]]]]]]]]]].
  change (getLengths (updateMetadata self)) with (getLengths self) in Hg'.
  rewrite Hg in Hg'. injection Hg' as <- <- <-.
  destruct (checkRepack_loop nObs _ _ _ Hwf Hloop) as [_ [Hout Hin]].
  destruct (in_dec string_dec amp (keys (rawXcorrs self))) as [Hk|Hk].
  - destruct (Hin amp Hk) as [v [n0 [Hv [Hlead Hcase]]]].
    destruct Hcase as [[-> Hsame] | [_ [mask [a [l [mid [Hm [_ [_ [Hl Hrep]]]]]]]]]].
    + rewrite Hv' in Hsame. injection Hsame as ->. exact Hlead.
    + rewrite Hv' in Hrep. injection Hrep as ->.
      destruct (comp_over_ok_inv _ _ _ Exs amp (PyList l) Hv') as [w Hw].
      apply rbind_ok in Hw. destruct Hw as [b [Hb _]].
      exists b. split; [exact Hb|].
      simpl in Hb. rewrite (np_stack_leading l b Hb).
      apply repack_loop_length in Hl. simpl in Hl. rewrite Hl.
      f_equal. exact (Hmasks _ _ _ Hg amp mask Hm).
  - exfalso. apply Hk. rewrite (Hout amp Hk) in Hv'.
    exact (dict_get_in_keys _ _ _ Hv').
Qed.

(** Exporting is idempotent: when the masks have the observation count as
    their length, a calibration that has been exported holds every
    [rawXcorrs[amp]] at full length, and exporting it again changes nothing
    and yields the same mapping. *)
Theorem toDict_twice (self self' : BrighterFatterKernel) (d : Dictionary) :
  dict_wf (rawXcorrs self) ->
  masks_at_length self ->
  toDict self = (self', OK d) ->
  full_length self' /\ toDict self' = (self', OK d).
Proof.
  intros Hwf Hmasks H.
  destruct (toDict_inv self self' d H)
    as [kernelLength [smallLength [nObs [r1 [r2 [r3 [xs [ms [aks [dks
        [Hg [E1 [E2 [E3 [Hloop [Exs [Ems [Eaks [Edks Hd]]]]]]]]]]]]]]]]]]].
  pose proof (toDict_leaves_full_length self self' d _ _ _ Hwf Hmasks H Hg)
    as Hfull.
  destruct (checkRepack_loop nObs _ _ _ Hwf Hloop) as [Hsame _].
  pose proof (updateMetadata_fixed _ _ Hsame) as Hfix.
  pose proof (getLengths_same_but _ _ Hsame) as Hg'.
  rewrite Hg in Hg'.
  split.
  - intros amp v Hv kl sl n Hgn. rewrite Hg' in Hgn. injection Hgn as _ _ <-.
    exact (Hfull amp v Hv).
  - assert (Hfields : expIdMask self' = expIdMask self
                      /\ rawMeans self' = rawMeans self
                      /\ rawVariances self' = rawVariances self
                      /\ metadata self' = metadata (updateMetadata self)).
    { unfold same_but_rawXcorrs in Hsame. rewrite Hsame. simpl. auto. }
    destruct Hfields as [Fm [Fr [Fv Fmd]]].
    rewrite Hd.
    replace (getMetadata (updateMetadata self))
      with (getMetadata (updateMetadata self'))
      by (rewrite Hfix; unfold getMetadata; exact Fmd).
    apply (toDict_intro self' self' kernelLength smallLength nObs);
      rewrite ?Hfix, ?Fm, ?Fr, ?Fv; try assumption.
    apply forM__ok. intros amp Hamp. apply checkRepack_full.
    destruct (dict_get_key _ _ Hamp) as [v Hv].
    destruct (Hfull amp v Hv) as [a [Ha Hn]].
    exists v, a. split; [exact Hv|]. split; [exact Ha|].
    apply tuple_getitem_hd. exact Hn.
Qed.

(** [toDict_twice] at the calibration compacted to three of five
    observation pairs. *)
Lemma toDict_twice_witness :
  exists self' d,
    toDict calib_masked = (self', OK d)
    /\ full_length self' /\ toDict self' = (self', OK d).
Proof.
  destruct (toDict calib_masked) as [self' [d|e]] eqn:E;
    [|vm_compute in E; discriminate E].
  exists self', d. split; [reflexivity|].
  apply (toDict_twice calib_masked self' d); [| |exact E].
  - unfold dict_wf. simpl. repeat constructor. simpl. intuition.
  - intros kl sl n Hg amp mask Hm.
    vm_compute in Hg. injection Hg as _ _ <-.
    simpl in Hm. destruct (String.eqb amp "C00"); [|discriminate Hm].
    injection Hm as <-. reflexivity.
Defined.

(** ** An amplifier with every observation rejected *)

Lemma placeholder_shape_missing {A} (sh : list nat) (k : nat -> nat -> result A) :
  (length sh < 3)%nat ->
  (r <- tuple_getitem sh 1 ;; c <- tuple_getitem sh 2 ;; k r c)%result
  = Raise IndexError.
Proof.
  destruct sh as [|n0 [|n1 [|n2 sh]]]; simpl; intros H; try reflexivity. lia.
Qed.

(** [toDict] cannot export a calibration in which some amplifier has every
    observation rejected and holds no correlation at all as an array with
    fewer than three axes (the empty list [[]], whose array has shape
    [(0,)]): the shape of the NaN placeholder is read from the second and
    third axes, which are missing. *)
Theorem toDict_all_rejected_fails (self : BrighterFatterKernel)
  (amp : string) (v : pyseq) (a : ndarray) (mask : list bool)
  (kernelLength smallLength : Z) (nObs : nat) :
  dict_wf (rawXcorrs self) ->
  getLengths self = OK (kernelLength, smallLength, nObs) ->
  nObs <> 0%nat ->
  dict_get (rawXcorrs self) amp = Some v ->
  np_array v = OK a ->
  tuple_getitem (arr_shape a) 0 = OK 0%nat ->
  (length (arr_shape a) < 3)%nat ->
  dict_get (expIdMask self) amp = Some mask ->
  mask <> [] ->
  np_sum mask = 0%nat ->
  is_ok (outcome (toDict self)) = false.
Proof.
  intros Hwf Hg Hn Hv Ha H0 Hsh Hm Hne Hsum.
  destruct (toDict self) as [self' [d|e]] eqn:E; [|reflexivity].
  exfalso.
  destruct (toDict_inv self self' d E)
    as [kl [sl [n [r1 [r2 [r3 [xs [ms [aks [dks
        [Hg' [_ [_ [_ [Hloop _]]]]]]]]]]]]]]].
  change (getLengths (updateMetadata self)) with (getLengths self) in Hg'.
  rewrite Hg in Hg'. injection Hg' as <- <- <-.
  destruct (checkRepack_loop nObs _ _ _ Hwf Hloop) as [_ [_ Hin]].
  destruct (Hin amp (dict_get_in_keys _ _ _ Hv)) as [v' [n0 [Hv' [Hlead Hcase]]]].
  change (rawXcorrs (updateMetadata self)) with (rawXcorrs self) in Hv'.
  rewrite Hv in Hv'. injection Hv' as <-.
  destruct Hlead as [a' [Ha' Hn0]]. rewrite Ha in Ha'. injection Ha' as <-.
  rewrite H0 in Hn0. injection Hn0 as <-.
  destruct Hcase as [[Hc _] | [_ [mask' [a' [l [mid [Hm' [_ [Ha' [Hl _]]]]]]]]]].
  - apply Hn. symmetry. exact Hc.
  - change (expIdMask (updateMetadata self)) with (expIdMask self) in Hm'.
    rewrite Hm in Hm'. injection Hm' as <-.
    rewrite Ha in Ha'. injection Ha' as <-.
    destruct mask as [|b mask]; [congruence|].
    destruct b; [unfold np_sum in Hsum; simpl in Hsum; discriminate Hsum|].
    simpl in Hl. rewrite placeholder_shape_missing in Hl by exact Hsh.
    discriminate Hl.
Qed.

(** [toDict_all_rejected_fails] at one amplifier with two rejected
    observation pairs and the empty list of correlations. *)
Lemma toDict_all_rejected_fails_witness :
  is_ok (outcome (toDict calib_all_masked)) = false.
Proof.
  apply (toDict_all_rejected_fails calib_all_masked "C00" (PyList [])
           (mkArray [0%nat] []) [false; false] 9 1 2);
    try reflexivity; try discriminate.
  - unfold dict_wf. simpl. repeat constructor. simpl. intuition.
  - simpl. lia.
Defined.

(** ** The round trip through the tables *)

Lemma forM_const {A B} (l : list A) (body : A -> M B) (f : A -> B) self :
  (forall a, In a l -> body a self = (self, OK (f a))) ->
  forM l body self = (self, OK (map f l)).
Proof.
  induction l as [|a l IH]; simpl; intros Hb; [reflexivity|].
  unfold mbind. rewrite (Hb a (or_introl eq_refl)).
  rewrite IH by (intros a' Ha'; apply Hb; right; exact Ha').
  reflexivity.
Qed.

Lemma combine_map_self {A B} (F : A -> B) (l : list A) :
  combine l (map F l) = map (fun k => (k, F k)) l.
Proof.
  induction l as [|a l IH]; simpl; [reflexivity|]. rewrite IH. reflexivity.
Qed.

Lemma dict_zip_entry {V W} (g : string -> V -> W) (d : dict V) (default : V)
  (ks : list string) :
  keys d = ks ->
  dict_wf d ->
  dict_zip ks (map (fun k => g k (entry d k default)) ks)
  = map (fun kv => (fst kv, g (fst kv) (snd kv))) d.
Proof.
  intros <- Hwf.
  change (dict_of_items
            (combine (keys d) (map (fun k => g k (entry d k default)) (keys d)))
          = map (fun kv => (fst kv, g (fst kv) (snd kv))) d).
  rewrite combine_map_self. unfold keys at 1. rewrite map_map.
  rewrite (map_ext_in _ (fun kv => (fst kv, g (fst kv) (snd kv)))).
  - apply dict_of_items_wf. unfold keys. rewrite map_map. exact Hwf.
  - intros [k v] Hin. simpl. unfold entry.
    rewrite (dict_get_in d k v Hwf Hin). reflexivity.
Qed.

Lemma dict_zip_entry_map {V W} (g : V -> W) (d : dict V) (default : V)
  (ks : list string) :
  keys d = ks ->
  dict_wf d ->
  dict_zip ks (map (fun k => g (entry d k default)) ks)
  = map (fun kv => (fst kv, g (snd kv))) d.
Proof. exact (dict_zip_entry (fun _ => g) d default ks). Qed.

Lemma dict_zip_entry_id {V} (d : dict V) (default : V) (ks : list string) :
  keys d = ks ->
  dict_wf d ->
  dict_zip ks (map (fun k => entry d k default) ks) = d.
Proof.
  intros Hk Hwf. rewrite (dict_zip_entry_map (fun v => v) d default ks Hk Hwf).
  rewrite <- (map_id d) at 2. apply map_ext. intros [k v]. reflexivity.
Qed.

Lemma ravel_xcorrs (self : BrighterFatterKernel) (nObs : nat) (k : string)
  (x : pyseq) :
  populated self nObs ->
  In (k, x) (rawXcorrs self) ->
  exists a,
    np_array x = OK a
    /\ hd_error (arr_shape a) = Some nObs
    /\ ravel (Z.of_nat nObs
              * Z.quot ((fst (shape self) - 1) * (snd (shape self) - 1)) 4) a
       = OK (xcorr_data x).
Proof.
  intros P Hin.
  destruct (pop_rawXcorrs self nObs P k x Hin) as [a [Ha [Hsh Hwf]]].
  destruct (small_arrays_size self nObs a P Hsh Hwf) as [Hsize [_ [_ Hsl]]].
  exists a. split; [exact Ha|]. split; [rewrite Hsh; reflexivity|].
  unfold ravel. rewrite reshape_ok.
  - cbn [rbind tolist arr_data]. rewrite (np_array_data x a Ha). reflexivity.
  - constructor; [nia | constructor].
  - rewrite Hsize. simpl. lia.
Qed.

Lemma py_in_In (k : string) (l : list string) : py_in k l = true <-> In k l.
Proof.
  unfold py_in. rewrite existsb_exists. split.
  - intros [k' [Hin E]]. apply String.eqb_eq in E. subst. exact Hin.
  - intros Hin. exists k. split; [exact Hin | apply String.eqb_refl].
Qed.

Lemma toTable_row_populated (self : BrighterFatterKernel) (nObs : nat)
  (amp : string) :
  populated self nObs ->
  per_amplifier self ->
  In amp (keys (rawMeans self)) ->
  toTable_row (fst (shape self) * snd (shape self))
    (Z.quot ((fst (shape self) - 1) * (snd (shape self) - 1)) 4) nObs amp
    (updateMetadata self)
  = (updateMetadata self, OK (row_of self amp)).
Proof.
  intros P (K1 & K2 & K3 & K4 & K5 & K6 & K7) Hin.
  pose proof (pop_keys self nObs P) as K8. rewrite K3 in K8.
  rewrite <- K1 in Hin. destruct (dict_get_key _ _ Hin) as [m Hm].
  rewrite K1, <- K2 in Hin. destruct (dict_get_key _ _ Hin) as [va Hva].
  rewrite K2 in Hin. destruct (dict_get_key _ _ Hin) as [me Hme].
  rewrite <- K3 in Hin. destruct (dict_get_key _ _ Hin) as [x Hx].
  rewrite K3, <- K4 in Hin. destruct (dict_get_key _ _ Hin) as [g Hg].
  rewrite K4, <- K5 in Hin. destruct (dict_get_key _ _ Hin) as [n Hn].
  rewrite K5, <- K6 in Hin. destruct (dict_get_key _ _ Hin) as [ak Hak].
  rewrite K6, <- K7 in Hin. destruct (dict_get_key _ _ Hin) as [v Hv].
  rewrite K7, <- K8 in Hin. destruct (dict_get_key _ _ Hin) as [mx Hmx].
  destruct (ravel_xcorrs self nObs amp x P (dict_get_some_in _ _ _ Hx))
    as [a [Ha [Hhd Hravel]]].
  destruct (pop_shape self nObs P) as [H0 H1].
  pose proof (ravel_kernel self mx H0 H1
                (pop_meanXcorrs self nObs P amp mx (dict_get_some_in _ _ _ Hmx)))
    as Rmx.
  pose proof (ravel_kernel self ak H0 H1
                (pop_ampKernels self nObs P amp ak (dict_get_some_in _ _ _ Hak)))
    as Rak.
  assert (Hfull : checkRepack amp nObs (updateMetadata self)
                  = (updateMetadata self, OK tt)).
  { apply checkRepack_full. exists x, a. auto. }
  unfold toTable_row, mbind, mget, mlift, mret, getitem.
  change (expIdMask (updateMetadata self)) with (expIdMask self).
  change (rawMeans (updateMetadata self)) with (rawMeans self).
  change (rawVariances (updateMetadata self)) with (rawVariances self).
  rewrite Hm, Hme, Hva, Hfull.
  change (rawXcorrs (updateMetadata self)) with (rawXcorrs self).
  change (gain (updateMetadata self)) with (gain self).
  change (noise (updateMetadata self)) with (noise self).
  change (meanXcorrs (updateMetadata self)) with (meanXcorrs self).
  change (ampKernels (updateMetadata self)) with (ampKernels self).
  change (valid (updateMetadata self)) with (valid self).
  change (badAmps (updateMetadata self)) with (badAmps self).
  rewrite Hx. cbn [rbind]. rewrite Ha. cbn [rbind]. rewrite Hravel.
  rewrite Hg, Hn, Hmx. cbn [rbind]. rewrite Rmx.
  rewrite Hak. cbn [rbind]. rewrite Rak. rewrite Hv.
  rewrite py_int_and.
  unfold row_of, entry. rewrite Hm, Hme, Hva, Hx, Hg, Hn, Hmx, Hak, Hv.
  reflexivity.
Qed.

Lemma toTable_populated (self : BrighterFatterKernel) (nObs : nat) :
  populated self nObs ->
  per_amplifier self ->
  toTable self = (updateMetadata self, OK (table_of self)).
Proof.
  intros P A.
  destruct (pop_shape self nObs P) as [H0 H1].
  unfold toTable, mbind, mmodify, mget, mlift, mret.
  change (getLengths (updateMetadata self)) with (getLengths self).
  rewrite (getLengths_common self nObs (pop_level _ _ P) (pop_amps _ _ P)
             (pop_nObs _ _ P) (populated_exact _ _ P)).
  change (level (updateMetadata self)) with (level self).
  rewrite (pop_level _ _ P).
  change (level_eqb (LevelStr "AMP") "AMP") with true. cbv iota.
  change (rawMeans (updateMetadata self)) with (rawMeans self).
  rewrite (forM_const _ _ (row_of self))
    by (intros amp Hamp; apply (toTable_row_populated self nObs amp P A Hamp)).
  change (detKernels (updateMetadata self)) with (detKernels self).
  unfold table_of. cbv zeta.
  destruct (detKernels self) as [|kv dk] eqn:Edk; [reflexivity|].
  cbn [length Nat.ltb Nat.leb]. rewrite <- Edk.
  rewrite (mapM_ok_in _ (fun det => arr_data (entry (detKernels self) det
                                                (mkArray [] [])))).
  - reflexivity.
  - intros det Hdet. destruct (dict_get_key _ _ Hdet) as [a Ha].
    unfold getitem, entry. rewrite Ha. cbn [rbind].
    apply (ravel_kernel self a H0 H1).
    exact (pop_detKernels self nObs P det a (dict_get_some_in _ _ _ Ha)).
Qed.

Lemma valid_column_roundtrip (self : BrighterFatterKernel) (nObs : nat) :
  populated self nObs ->
  map (fun kv =>
         (fst kv,
          PyBool (py_bool (PyInt (if py_bool (snd kv)
                                     && negb (py_in (fst kv) (badAmps self))
                                  then 1 else 0)))))
    (valid self)
  = valid self.
Proof.
  intros P. rewrite <- (map_id (valid self)) at 2. apply map_ext_in.
  intros [k v] Hin. simpl.
  destruct (pop_valid self nObs P k v Hin) as [b ->]. simpl.
  destruct b; [|reflexivity]. simpl.
  destruct (py_in k (badAmps self)) eqn:E; [|reflexivity].
  exfalso. apply py_in_In in E. rewrite (pop_badAmps self nObs P) in E.
  apply (badAmps_is_False _ _ (pop_wf_valid self nObs P)) in E.
  rewrite (dict_get_in _ _ _ (pop_wf_valid self nObs P) Hin) in E.
  discriminate E.
Qed.

Lemma fromTable_inDict_table_of (self : BrighterFatterKernel) (nObs : nat) :
  populated self nObs ->
  per_amplifier self ->
  fromTable_inDict (table_of self) = OK (mapping_of self).
Proof.
  intros P (K1 & K2 & K3 & K4 & K5 & K6 & K7).
  pose proof (pop_keys self nObs P) as K8. rewrite K3 in K8.
  pose proof (pop_wf_rawMeans self nObs P) as Wme.
  assert (Wg : dict_wf (gain self)) by (unfold dict_wf; rewrite K4; exact Wme).
  assert (Wn : dict_wf (noise self)) by (unfold dict_wf; rewrite K5; exact Wme).
  unfold fromTable_inDict, table_of. cbv zeta.
  cbn [ampTable detTable amp_meta AMPLIFIER EXP_ID_MASK RAW_MEANS RAW_VARIANCES
       MEANS VARIANCES RAW_XCORRS GAIN NOISE MEAN_XCORRS KERNEL VALID
       getMetadata updateMetadata set_metadata metadata IsrCalib_updateMetadata
       bfk_VERSION lookup rbind].
  change (PrimFloat.eqb _VERSION 1.0) with false.
  change (PrimFloat.eqb _VERSION 1.1) with true.
  cbv iota. cbn [rbind].
  rewrite !map_map.
  cbn [row_of row_amp row_expIdMask row_rawMean row_rawVariance row_rawXcorrs
       row_gain row_noise row_meanXcorrs row_kernel row_valid].
  rewrite map_id.
  rewrite (dict_zip_entry_id (expIdMask self)) by (assumption || apply P).
  rewrite (dict_zip_entry_id (rawMeans self)) by (reflexivity || assumption).
  rewrite (dict_zip_entry_id (rawVariances self)) by (assumption || apply P).
  rewrite (dict_zip_entry_map xcorr_data (rawXcorrs self))
    by (assumption || apply P).
  rewrite (dict_zip_entry_id (gain self)) by assumption.
  rewrite (dict_zip_entry_id (noise self)) by assumption.
  rewrite (dict_zip_entry_map arr_data (meanXcorrs self))
    by (assumption || apply P).
  rewrite (dict_zip_entry_map arr_data (ampKernels self))
    by (assumption || apply P).
  rewrite (dict_zip_entry
             (fun k v => PyBool (py_bool (PyInt (if py_bool v
                                                    && negb (py_in k (badAmps self))
                                                 then 1 else 0))))
             (valid self) (PyBool false)) by (assumption || apply P).
  rewrite (valid_column_roundtrip self nObs P).
  rewrite <- (pop_badAmps self nObs P).
  unfold mapping_of. f_equal. f_equal.
  destruct (detKernels self) as [|kv dk] eqn:Edk; [reflexivity|].
  cbn [DETECTOR det_KERNEL]. rewrite <- Edk.
  apply (dict_zip_entry_map arr_data); [reflexivity | apply P].
Qed.

(** A populated calibration whose per-amplifier mappings list the same
    amplifiers in the same order survives the round trip through the
    tables: [toTable] succeeds and only refreshes the metadata, the tables
    and the mapping of [toDict] hold the same content, and [fromTable]
    rebuilds the calibration [fromDict] rebuilds from the mapping: every
    field as it was, [rawXcorrs[amp]] as the array
    [np.array(rawXcorrs[amp])]. *)
Theorem table_roundtrip (self : BrighterFatterKernel) (nObs : nat) :
  populated self nObs ->
  per_amplifier self ->
  exists tableList dictionary,
    toTable self = (updateMetadata self, OK tableList)
    /\ toDict self = (updateMetadata self, OK dictionary)
    /\ fromTable_inDict tableList = OK dictionary
    /\ fromTable tableList = fromDict dictionary
    /\ fromTable tableList
       = OK (set_rawXcorrs (updateMetadata self)
               (map (fun kv => (fst kv, as_array (snd kv))) (rawXcorrs self))).
Proof.
  intros P A. exists (table_of self), (mapping_of self).
  pose proof (fromTable_inDict_table_of self nObs P A) as Hin.
  split; [exact (toTable_populated self nObs P A)|].
  split; [exact (toDict_populated self nObs P)|].
  split; [exact Hin|].
  unfold fromTable. rewrite Hin. cbn [rbind].
  split; [reflexivity | exact (fromDict_mapping_of self nObs P)].
Qed.

(** [table_roundtrip] at three amplifiers with kernels of shape (3, 3) and
    one observation pair each. *)
Lemma table_roundtrip_witness :
  exists tableList dictionary,
    toTable calib_consistent = (updateMetadata calib_consistent, OK tableList)
    /\ toDict calib_consistent = (updateMetadata calib_consistent, OK dictionary)
    /\ fromTable_inDict tableList = OK dictionary
    /\ fromTable tableList = fromDict dictionary
    /\ fromTable tableList
       = OK (set_rawXcorrs (updateMetadata calib_consistent)
               (map (fun kv => (fst kv, as_array (snd kv)))
                  (rawXcorrs calib_consistent))).
Proof.
  apply (table_roundtrip calib_consistent 1 calib_consistent_populated).
  repeat split.
Defined.

(** ** The detector kernel in general *)

Lemma shape_eqb_refl (s : list nat) : shape_eqb s s = true.
Proof.
  unfold shape_eqb. rewrite Nat.eqb_refl. simpl.
  induction s as [|n s IH]; simpl; [reflexivity|].
  rewrite Nat.eqb_refl. exact IH.
Qed.

Lemma np_stack_uniform (l : list ndarray) (sh : list nat) :
  l <> [] ->
  (forall a, In a l -> arr_shape a = sh) ->
  np_stack l = OK (mkArray (length l :: sh) (concat (map arr_data l))).
Proof.
  intros Hne Hsh. unfold np_stack. destruct l as [|a0 l]; [congruence|].
  rewrite (proj2 (forallb_forall _ _)).
  - rewrite (Hsh a0 (or_introl eq_refl)). reflexivity.
  - intros b Hb. rewrite (Hsh b Hb), (Hsh a0 (or_introl eq_refl)).
    apply shape_eqb_refl.
Qed.

Lemma length_concat_uniform (l : list ndarray) (L : nat) :
  (forall a, In a l -> length (arr_data a) = L) ->
  length (concat (map arr_data l)) = (length l * L)%nat.
Proof.
  induction l as [|a l IH]; intros H; simpl; [reflexivity|].
  rewrite length_app, (H a (or_introl eq_refl)), IH; [reflexivity|].
  intros b Hb. apply H. right. exact Hb.
Qed.

Lemma firstn_length_app {A} (l1 l2 : list A) :
  firstn (length l1) (l1 ++ l2) = l1.
Proof.
  induction l1 as [|a l1 IH]; simpl; [reflexivity | rewrite IH; reflexivity].
Qed.

Lemma skipn_length_app {A} (l1 l2 : list A) (m : nat) :
  skipn (length l1 + m) (l1 ++ l2) = skipn m l2.
Proof.
  induction l1 as [|a l1 IH]; simpl; [reflexivity | exact IH].
Qed.

Lemma flat_map_block {A} (f : nat -> list A) (L : nat) :
  (forall k, length (f k) = L) ->
  forall n s i,
    (i < n)%nat ->
    firstn L (skipn (i * L) (flat_map f (seq s n))) = f (s + i)%nat.
Proof.
  intros HL. induction n as [|n IH]; intros s i Hi; [lia|].
  simpl. destruct i as [|i].
  - simpl. rewrite Nat.add_0_r. rewrite <- (HL s). apply firstn_length_app.
  - simpl. rewrite <- (HL s) at 2. rewrite skipn_length_app.
    rewrite IH by lia. f_equal. lia.
Qed.

Lemma indices_length (sh : list nat) : length (indices sh) = nprod sh.
Proof.
  induction sh as [|n sh IH]; simpl; [reflexivity|].
  generalize 0%nat. induction n as [|n IHn]; intros s; simpl; [reflexivity|].
  rewrite length_app, length_map, IH, IHn. reflexivity.
Qed.

Lemma arr_getitem_indices (F : list nat -> float) (n : nat) (rest : list nat)
  (i : nat) :
  (i < n)%nat ->
  arr_getitem (mkArray (n :: rest) (map F (indices (n :: rest)))) i
  = OK (mkArray rest (map (fun idx => F (i :: idx)) (indices rest))).
Proof.
  intros Hi. unfold arr_getitem. cbn [arr_shape arr_data].
  rewrite (proj2 (Nat.ltb_lt _ _) Hi).
  rewrite skipn_map, firstn_map. cbn [indices].
  rewrite (flat_map_block (fun i => map (cons i) (indices rest)) (nprod rest))
    by (first [exact Hi | intros k; rewrite length_map; apply indices_length]).
  rewrite map_map. reflexivity.
Qed.

Lemma arr_getitem_out (a : ndarray) (n : nat) (rest : list nat) (i : nat) :
  arr_shape a = n :: rest ->
  (n <= i)%nat ->
  arr_getitem a i = Raise IndexError.
Proof.
  intros Hsh Hi. unfold arr_getitem. rewrite Hsh.
  rewrite (proj2 (Nat.ltb_ge _ _) Hi). reflexivity.
Qed.

Lemma indices_one (n : nat) : indices [n] = map (fun k => [k]) (seq 0 n).
Proof.
  cbn [indices]. generalize 0%nat.
  induction n as [|n IH]; intros s; simpl; [reflexivity|].
  rewrite IH. reflexivity.
Qed.

Lemma concat_blocks (l : list ndarray) (L q : nat) :
  (q < L)%nat ->
  (forall a, In a l -> length (arr_data a) = L) ->
  map (fun k => nth (k * L + q) (concat (map arr_data l)) nan)
    (seq 0 (length l))
  = map (fun a => nth q (arr_data a) nan) l.
Proof.
  intros Hq. induction l as [|a l IH]; intros HL; [reflexivity|].
  cbn [length seq map concat]. f_equal.
  - simpl. apply app_nth1. rewrite (HL a (or_introl eq_refl)). exact Hq.
  - rewrite <- seq_shift, map_map.
    rewrite <- IH by (intros b Hb; apply HL; right; exact Hb).
    apply map_ext. intros k.
    rewrite app_nth2 by (rewrite (HL a (or_introl eq_refl)); simpl; lia).
    f_equal. rewrite (HL a (or_introl eq_refl)). simpl. lia.
Qed.

Section Averaging.

Variable MEANCLIP : ndarray -> float.
Variables r c : nat.
Variable kernels : list ndarray.
Hypothesis kernels_shaped :
  forall a, In a kernels -> arr_shape a = [r; c] /\ array_wf a.

Lemma kernels_length :
  forall a, In a kernels -> length (arr_data a) = (r * c)%nat.
Proof.
  intros a Ha. destruct (kernels_shaped a Ha) as [Hsh Hwf].
  unfold array_wf in Hwf. rewrite Hwf, Hsh. simpl. lia.
Qed.

(** [np.transpose(inKernels)[i, j]] holds the kernels' values at [(j, i)]. *)
Lemma transposed_getitem (i j : nat) :
  (i < c)%nat -> (j < r)%nat ->
  (ai <- arr_getitem
           (np_transpose
              (mkArray [length kernels; r; c] (concat (map arr_data kernels)))) i ;;
   arr_getitem ai j)%result
  = OK (samples_at kernels j i).
Proof.
  intros Hi Hj. unfold np_transpose. cbn [arr_shape arr_data rev app].
  rewrite arr_getitem_indices by exact Hi. cbn [rbind].
  rewrite arr_getitem_indices by exact Hj.
  rewrite indices_one, map_map. unfold samples_at. do 2 f_equal.
  cbn [rev app offset combine fold_left fst snd].
  rewrite (map_ext _ (fun k => nth (k * (r * c) + (j * c + i))
                                 (concat (map arr_data kernels)) nan))
    by (intros k; f_equal; simpl; lia).
  rewrite concat_blocks; [| nia | exact kernels_length].
  apply map_ext_in. intros a Ha. unfold arr_at2.
  rewrite (proj1 (kernels_shaped a Ha)). reflexivity.
Qed.

Lemma arr_setitem2_next (p i j : nat) :
  (j < c)%nat -> (i < r)%nat -> p = (i * c + j)%nat ->
  arr_setitem2 (averaged_upto MEANCLIP kernels r c p) i j
    (MEANCLIP (samples_at kernels j i))
  = averaged_upto MEANCLIP kernels r c (S p).
Proof.
  intros Hj Hi ->. unfold arr_setitem2, averaged_upto. cbn [arr_shape arr_data nprod fold_right].
  f_equal. rewrite Nat.mul_1_r.
  set (g := fun q => MEANCLIP (samples_at kernels (q mod c) (q / c))).
  assert (Hlen : length (map g (seq 0 (i * c + j))) = (i * c + j)%nat)
    by (rewrite length_map, length_seq; reflexivity).
  rewrite <- Hlen at 1. rewrite firstn_length_app.
  rewrite <- Hlen at 2. rewrite skipn_length_app.
  assert (Hrem : (r * c - (i * c + j) = S (r * c - S (i * c + j)))%nat) by nia.
  rewrite Hrem. cbn [repeat skipn].
  rewrite seq_S, map_app, <- app_assoc. cbn [map app plus]. do 3 f_equal.
  unfold g. rewrite Nat.add_comm, Nat.Div0.mod_add, Nat.div_add by lia.
  rewrite Nat.mod_small, Nat.div_small by lia. reflexivity.
Qed.

Variable T : ndarray.
Hypothesis T_getitem :
  forall i j, (i < c)%nat -> (j < r)%nat ->
    (ai <- arr_getitem T i ;; arr_getitem ai j)%result
    = OK (samples_at kernels j i).

Lemma inner_loop (i : nat) :
  (i < c)%nat -> (i < r)%nat -> (c <= r)%nat ->
  forall m j0,
    (j0 + m = c)%nat ->
    for_range (seq j0 m)
      (fun j avgKernel =>
         ai <- arr_getitem T i ;;
         aij <- arr_getitem ai j ;;
         OK (arr_setitem2 avgKernel i j (MEANCLIP aij)))%result
      (averaged_upto MEANCLIP kernels r c (i * c + j0))
    = OK (averaged_upto MEANCLIP kernels r c (i * c + c)).
Proof.
  intros Hi Hir Hcr. induction m as [|m IH]; intros j0 Hm.
  - simpl. do 3 f_equal. lia.
  - cbn [seq for_range].
    pose proof (T_getitem i j0 Hi ltac:(lia)) as HT.
    destruct (arr_getitem T i) as [ai|e]; [|discriminate HT].
    cbn [rbind] in HT |- *. rewrite HT. cbn [rbind].
    rewrite (arr_setitem2_next (i * c + j0) i j0) by (lia || reflexivity).
    rewrite <- Nat.add_succ_r. apply IH. lia.
Qed.

Lemma outer_loop :
  (c <= r)%nat ->
  forall m i0,
    (i0 + m <= c)%nat ->
    for_range (seq i0 m)
      (fun i avgKernel =>
         cols <- tuple_getitem (arr_shape avgKernel) 1 ;;
         for_range (seq 0 cols)
           (fun j avgKernel =>
              ai <- arr_getitem T i ;;
              aij <- arr_getitem ai j ;;
              OK (arr_setitem2 avgKernel i j (MEANCLIP aij)))
           avgKernel)%result
      (averaged_upto MEANCLIP kernels r c (i0 * c))
    = OK (averaged_upto MEANCLIP kernels r c ((i0 + m) * c)).
Proof.
  intros Hcr. induction m as [|m IH]; intros i0 Hm.
  - simpl. rewrite Nat.add_0_r. reflexivity.
  - cbn [seq for_range]. cbn [averaged_upto arr_shape tuple_getitem nth_error rbind].
    pose proof (inner_loop i0 ltac:(lia) ltac:(lia) Hcr c 0 eq_refl) as Hin.
    rewrite Nat.add_0_r in Hin.
    rewrite Hin. cbn [rbind].
    replace (i0 * c + c)%nat with (S i0 * c)%nat by lia.
    rewrite IH by lia. do 3 f_equal. lia.
Qed.

(** A wide kernel: the first row already asks for a column of the
    transposed stack that does not exist. *)
Lemma inner_loop_wide (acc : ndarray) :
  (0 < c)%nat ->
  forall m j0,
    (j0 <= r)%nat -> (r < j0 + m)%nat ->
    arr_shape T = [c; r; length kernels] ->
    for_range (seq j0 m)
      (fun j avgKernel =>
         ai <- arr_getitem T 0 ;;
         aij <- arr_getitem ai j ;;
         OK (arr_setitem2 avgKernel 0 j (MEANCLIP aij)))%result
      acc
    = Raise IndexError.
Proof.
  intros Hc m. revert acc. induction m as [|m IH]; intros acc j0 Hj0 Hm HT; [lia|].
  cbn [seq for_range].
  destruct (Nat.eq_dec j0 r) as [->|Hne].
  - unfold arr_getitem at 1. rewrite HT.
    rewrite (proj2 (Nat.ltb_lt 0 c) Hc). cbn [rbind].
    unfold arr_getitem. cbn [arr_shape]. rewrite Nat.ltb_irrefl. reflexivity.
  - pose proof (T_getitem 0 j0 Hc ltac:(lia)) as Hget.
    destruct (arr_getitem T 0) as [ai|e]; [|discriminate Hget].
    cbn [rbind] in Hget |- *. rewrite Hget. cbn [rbind].
    apply IH; [lia | lia | exact HT].
Qed.

End Averaging.

Lemma for_range_app {A} (l1 l2 : list nat) (body : nat -> A -> result A)
  (acc : A) :
  for_range (l1 ++ l2) body acc
  = (acc' <- for_range l1 body acc ;; for_range l2 body acc')%result.
Proof.
  revert acc. induction l1 as [|x l1 IH]; intros acc; simpl; [reflexivity|].
  destruct (body x acc) as [acc'|e]; simpl; [apply IH | reflexivity].
Qed.

Lemma zeros_like_first (MEANCLIP : ndarray -> float) (r c : nat)
  (kernels : list ndarray) :
  kernels <> [] ->
  (forall a, In a kernels -> arr_shape a = [r; c] /\ array_wf a) ->
  exists first,
    arr_getitem
      (mkArray [length kernels; r; c] (concat (map arr_data kernels))) 0
    = OK first
    /\ np_zeros_like first = averaged_upto MEANCLIP kernels r c 0.
Proof.
  intros Hne Hsh. eexists. split.
  - unfold arr_getitem. cbn [arr_shape arr_data].
    destruct kernels as [|a l]; [congruence | reflexivity].
  - unfold np_zeros_like, averaged_upto. cbn [arr_shape arr_data seq map app].
    f_equal. f_equal. rewrite Nat.sub_0_r.
    rewrite length_firstn, length_skipn.
    rewrite (length_concat_uniform kernels (r * c)
               (kernels_length r c kernels Hsh)).
    destruct kernels as [|a l]; [congruence|]. simpl. nia.
Qed.

Lemma aggregate_square (MEANCLIP : ndarray -> float)
  (self : BrighterFatterKernel) (detectorName : string)
  (ampsToExclude : list string) (r : nat) :
  kept_kernels self ampsToExclude <> [] ->
  (forall a, In a (kept_kernels self ampsToExclude) ->
             arr_shape a = [r; r] /\ array_wf a) ->
  makeDetectorKernelFromAmpwiseKernels MEANCLIP detectorName ampsToExclude self
  = (set_detKernels self
       (dict_set (detKernels self) detectorName
          (averaged_upto MEANCLIP (kept_kernels self ampsToExclude) r r (r * r))),
     OK tt).
Proof.
  intros Hne Hsh.
  destruct (zeros_like_first MEANCLIP r r _ Hne Hsh) as [first [Hfirst Hzeros]].
  pose proof (outer_loop MEANCLIP r r (kept_kernels self ampsToExclude) _
                (transposed_getitem r r _ Hsh) (le_n r) r 0 (le_n r)) as Hloop.
  change (0 * r)%nat with 0%nat in Hloop. change (0 + r)%nat with r in Hloop.
  unfold makeDetectorKernelFromAmpwiseKernels.
  change (map snd (filter (fun kv => negb (py_in (fst kv) ampsToExclude))
                     (ampKernels self)))
    with (kept_kernels self ampsToExclude).
  rewrite (np_stack_uniform _ [r; r] Hne (fun a Ha => proj1 (Hsh a Ha))).
  cbn [rbind]. cbv zeta. rewrite Hfirst. cbn [rbind]. rewrite Hzeros.
  cbn [averaged_upto arr_shape tuple_getitem nth_error rbind].
  fold (averaged_upto MEANCLIP (kept_kernels self ampsToExclude) r r 0).
  rewrite Hloop. reflexivity.
Qed.

Lemma averaged_upto_entry (MEANCLIP : ndarray -> float) (l : list ndarray)
  (r c i j : nat) :
  (i < r)%nat -> (j < c)%nat ->
  arr_at2 (averaged_upto MEANCLIP l r c (r * c)) i j
  = MEANCLIP (samples_at l j i).
Proof.
  intros Hi Hj. unfold arr_at2, averaged_upto. cbn [arr_shape arr_data nth].
  rewrite Nat.sub_diag. cbn [repeat]. rewrite app_nil_r.
  rewrite (nth_indep _ nan (MEANCLIP (samples_at l (0 mod c) (0 / c))))
    by (rewrite length_map, length_seq; nia).
  rewrite (map_nth (fun q => MEANCLIP (samples_at l (q mod c) (q / c)))).
  rewrite seq_nth by nia. cbn [plus].
  rewrite Nat.add_comm, Nat.Div0.mod_add, Nat.div_add by lia.
  rewrite Nat.mod_small, Nat.div_small by lia. reflexivity.
Qed.

(** The detector kernel in general.  When the kernels of the amplifiers
    that are not excluded are square arrays of one side [r], the call
    succeeds, assigns only [detKernels[detectorName]], and the kernel it
    assigns has, at every coordinate [(i, j)], the clipped mean of the
    amplifier kernels' values at the transposed coordinate [(j, i)]. *)
Theorem detector_kernel_square (MEANCLIP : ndarray -> float)
  (self : BrighterFatterKernel) (detectorName : string)
  (ampsToExclude : list string) (r : nat) :
  kept_kernels self ampsToExclude <> [] ->
  (forall a, In a (kept_kernels self ampsToExclude) ->
             arr_shape a = [r; r] /\ array_wf a) ->
  exists avgKernel,
    makeDetectorKernelFromAmpwiseKernels MEANCLIP detectorName ampsToExclude self
    = (set_detKernels self (dict_set (detKernels self) detectorName avgKernel),
       OK tt)
    /\ arr_shape avgKernel = [r; r]
    /\ array_wf avgKernel
    /\ forall i j, (i < r)%nat -> (j < r)%nat ->
         arr_at2 avgKernel i j
         = MEANCLIP (samples_at (kept_kernels self ampsToExclude) j i).
Proof.
  intros Hne Hsh.
  exists (averaged_upto MEANCLIP (kept_kernels self ampsToExclude) r r (r * r)).
  split; [exact (aggregate_square MEANCLIP self detectorName ampsToExclude r
                   Hne Hsh)|].
  split; [reflexivity|]. split.
  - unfold array_wf, averaged_upto. cbn [arr_shape arr_data nprod fold_right].
    rewrite length_app, length_map, length_seq, repeat_length. lia.
  - intros i j Hi Hj. apply averaged_upto_entry; assumption.
Qed.

(** [detector_kernel_square] at five 3 x 3 kernels of which the one of
    [C04] is excluded. *)
Lemma detector_kernel_square_witness :
  exists avgKernel,
    makeDetectorKernelFromAmpwiseKernels first_sample "det" ["C04"]
      calib_outlier_3x3
    = (set_detKernels calib_outlier_3x3
         (dict_set (detKernels calib_outlier_3x3) "det" avgKernel),
       OK tt)
    /\ arr_shape avgKernel = [3; 3]%nat
    /\ array_wf avgKernel
    /\ forall i j, (i < 3)%nat -> (j < 3)%nat ->
         arr_at2 avgKernel i j
         = first_sample (samples_at (kept_kernels calib_outlier_3x3 ["C04"]) j i).
Proof.
  apply (detector_kernel_square first_sample calib_outlier_3x3 "det" ["C04"] 3).
  - discriminate.
  - intros a Ha. simpl in Ha.
    repeat (destruct Ha as [<-|Ha]; [split; reflexivity|]). destruct Ha.
Defined.

Lemma aggregate_nothing_kept (MEANCLIP : ndarray -> float)
  (self : BrighterFatterKernel) (detectorName : string)
  (ampsToExclude : list string) :
  kept_kernels self ampsToExclude = [] ->
  makeDetectorKernelFromAmpwiseKernels MEANCLIP detectorName ampsToExclude self
  = (self, Raise IndexError).
Proof.
  intros Hk. unfold makeDetectorKernelFromAmpwiseKernels.
  change (map snd (filter (fun kv => negb (py_in (fst kv) ampsToExclude))
                     (ampKernels self)))
    with (kept_kernels self ampsToExclude).
  rewrite Hk. reflexivity.
Qed.

Lemma np_transpose_shape3 (n r c : nat) (data : list float) :
  arr_shape (np_transpose (mkArray [n; r; c] data)) = [c; r; n].
Proof. reflexivity. Qed.

Lemma aggregate_not_square (MEANCLIP : ndarray -> float)
  (self : BrighterFatterKernel) (detectorName : string)
  (ampsToExclude : list string) (r c : nat) :
  kept_kernels self ampsToExclude <> [] ->
  (forall a, In a (kept_kernels self ampsToExclude) ->
             arr_shape a = [r; c] /\ array_wf a) ->
  r <> c -> (0 < r)%nat -> (0 < c)%nat ->
  makeDetectorKernelFromAmpwiseKernels MEANCLIP detectorName ampsToExclude self
  = (self, Raise IndexError).
Proof.
  intros Hne Hsh Hrc Hr Hc.
  destruct (zeros_like_first MEANCLIP r c _ Hne Hsh) as [first [Hfirst Hzeros]].
  pose proof (transposed_getitem r c _ Hsh) as HT.
  unfold makeDetectorKernelFromAmpwiseKernels.
  change (map snd (filter (fun kv => negb (py_in (fst kv) ampsToExclude))
                     (ampKernels self)))
    with (kept_kernels self ampsToExclude).
  rewrite (np_stack_uniform _ [r; c] Hne (fun a Ha => proj1 (Hsh a Ha))).
  cbn [rbind]. cbv zeta. rewrite Hfirst. cbn [rbind]. rewrite Hzeros.
  cbn [averaged_upto arr_shape tuple_getitem nth_error rbind].
  fold (averaged_upto MEANCLIP (kept_kernels self ampsToExclude) r c 0).
  destruct (Nat.lt_ge_cases r c) as [Hlt|Hge].
  - (* wide kernels: the first row fails at column [r] *)
    destruct r as [|r']; [lia|]. cbn [seq for_range].
    cbn [averaged_upto arr_shape tuple_getitem nth_error rbind].
    rewrite (inner_loop_wide MEANCLIP (S r') c _ _ HT _ Hc c 0)
      by (lia || apply np_transpose_shape3).
    reflexivity.
  - (* tall kernels: row [c] does not exist in the transposed stack *)
    assert (Hsplit : r = (c + S (r - c - 1))%nat) by lia.
    rewrite Hsplit at 1. rewrite seq_app, for_range_app.
    pose proof (outer_loop MEANCLIP r c _ _ HT Hge c 0 (le_n c)) as Hloop.
    change (0 * c)%nat with 0%nat in Hloop. change (0 + c)%nat with c in Hloop.
    rewrite Hloop. cbn [rbind plus seq for_range].
    cbn [averaged_upto arr_shape tuple_getitem nth_error rbind].
    destruct c as [|c']; [lia|]. cbn [seq for_range].
    rewrite (arr_getitem_out _ (S c') [r; length (kept_kernels self ampsToExclude)])
      by (reflexivity || lia).
    reflexivity.
Qed.

(** Where no detector kernel is made.  When every amplifier is excluded
    (or there is no amplifier kernel), and when the kernels that are kept
    are [r] x [c] arrays with [r] and [c] positive and different, the call
    raises [IndexError] and assigns nothing. *)
Theorem detector_kernel_raises (MEANCLIP : ndarray -> float)
  (self : BrighterFatterKernel) (detectorName : string)
  (ampsToExclude : list string) :
  kept_kernels self ampsToExclude = []
  \/ (exists r c,
        (forall a, In a (kept_kernels self ampsToExclude) ->
                   arr_shape a = [r; c] /\ array_wf a)
        /\ r <> c /\ (0 < r)%nat /\ (0 < c)%nat) ->
  makeDetectorKernelFromAmpwiseKernels MEANCLIP detectorName ampsToExclude self
  = (self, Raise IndexError).
Proof.
  intros [Hk | [r [c [Hsh [Hrc [Hr Hc]]]]]].
  - exact (aggregate_nothing_kept MEANCLIP self detectorName ampsToExclude Hk).
  - destruct (kept_kernels self ampsToExclude) as [|a l] eqn:Hk.
    + exact (aggregate_nothing_kept MEANCLIP self detectorName ampsToExclude Hk).
    + apply (aggregate_not_square MEANCLIP self detectorName ampsToExclude r c);
        rewrite ?Hk; try assumption. discriminate.
Qed.

(** [detector_kernel_raises] at five kernels of shape (3, 4). *)
Lemma detector_kernel_raises_witness :
  makeDetectorKernelFromAmpwiseKernels first_sample "det" [] calib_outlier_3x4
  = (calib_outlier_3x4, Raise IndexError).
Proof.
  apply (detector_kernel_raises first_sample calib_outlier_3x4 "det" []).
  right. exists 3%nat, 4%nat. split; [|repeat split; lia].
  intros a Ha. simpl in Ha.
  repeat (destruct Ha as [<-|Ha]; [split; reflexivity|]). destruct Ha.
Defined.

(** ** What [fromDict] establishes *)

Lemma dict_set_entry {V} (d : dict V) (k k0 : string) (v w : V) :
  In (k0, w) (dict_set d k v) -> (k0 = k /\ w = v) \/ In (k0, w) d.
Proof.
  induction d as [|[k' v'] d IH]; simpl.
  - intros [H|[]]. injection H as <- <-. left. split; reflexivity.
  - destruct (String.eqb k k') eqn:E; simpl.
    + apply String.eqb_eq in E. subst k'.
      intros [H|H]; [injection H as <- <-; left; split; reflexivity|].
      right. right. exact H.
    + intros [H|H]; [right; left; exact H|].
      destruct (IH H) as [Hkv|Hin]; [left; exact Hkv | right; right; exact Hin].
Qed.

Lemma dict_comp_from_wf {V} (f : string -> result V) (ks : list string) :
  forall acc r, dict_wf acc -> dict_comp_from acc f ks = OK r -> dict_wf r.
Proof.
  induction ks as [|k ks IH]; intros acc r Hwf H; simpl in H.
  - injection H as <-. exact Hwf.
  - apply rbind_ok in H. destruct H as [v [_ H]].
    apply (IH _ _ (dict_set_wf acc k v Hwf) H).
Qed.

Lemma dict_comp_wf {V} (f : string -> result V) (ks : list string) (r : dict V) :
  dict_comp f ks = OK r -> dict_wf r.
Proof. apply dict_comp_from_wf. constructor. Qed.

Lemma dict_comp_from_entries {V} (f : string -> result V) (ks : list string) :
  forall acc r,
    dict_comp_from acc f ks = OK r ->
    forall k w, In (k, w) r -> In (k, w) acc \/ (In k ks /\ f k = OK w).
Proof.
  induction ks as [|k0 ks IH]; intros acc r H k w Hin; simpl in H.
  - injection H as <-. left. exact Hin.
  - apply rbind_ok in H. destruct H as [v [Hv H]].
    destruct (IH _ _ H k w Hin) as [Hacc|[Hks Hf]].
    + destruct (dict_set_entry _ _ _ _ _ Hacc) as [[-> ->]|Hacc'].
      * right. split; [left; reflexivity | exact Hv].
      * left. exact Hacc'.
    + right. split; [right; exact Hks | exact Hf].
Qed.

Lemma dict_comp_entries {V} (f : string -> result V) (ks : list string)
  (r : dict V) (k : string) (w : V) :
  dict_comp f ks = OK r -> In (k, w) r -> f k = OK w.
Proof.
  intros H Hin.
  destruct (dict_comp_from_entries f ks [] r H k w Hin) as [[]|[_ Hf]].
  exact Hf.
Qed.

Lemma comp_over_entries {V W} (d : dict V) (f : V -> result W) (r : dict W)
  (k : string) (w : W) :
  comp_over d f = OK r -> In (k, w) r ->
  exists v, dict_get d k = Some v /\ f v = OK w.
Proof.
  intros H Hin. apply (dict_comp_entries _ _ _ _ _ H) in Hin.
  apply rbind_ok in Hin. destruct Hin as [v [Hv Hf]].
  exists v. split; [|exact Hf].
  unfold getitem in Hv. destruct (dict_get d k); [congruence | discriminate].
Qed.

Lemma dict_set_keys_ext {V W} (d : dict V) (d' : dict W) (k : string)
  (v : V) (v' : W) :
  keys d = keys d' -> keys (dict_set d k v) = keys (dict_set d' k v').
Proof.
  revert d'. induction d as [|[k1 v1] d IH]; intros [|[k2 v2] d'] H;
    simpl in H; try discriminate H; [reflexivity|].
  injection H as -> H. simpl.
  destruct (String.eqb k k2); simpl; f_equal; auto.
Qed.

Lemma dict_comp_from_keys {V W} (f : string -> result V)
  (f' : string -> result W) (ks : list string) :
  forall acc acc' r r',
    keys acc = keys acc' ->
    dict_comp_from acc f ks = OK r ->
    dict_comp_from acc' f' ks = OK r' ->
    keys r = keys r'.
Proof.
  induction ks as [|k ks IH]; intros acc acc' r r' Hk H H'; simpl in H, H'.
  - injection H as <-. injection H' as <-. exact Hk.
  - apply rbind_ok in H. destruct H as [v [_ H]].
    apply rbind_ok in H'. destruct H' as [v' [_ H']].
    apply (IH _ _ _ _ (dict_set_keys_ext acc acc' k v v' Hk) H H').
Qed.

Lemma getLengths_inv (self : BrighterFatterKernel) kernelLength smallLength nObs :
  level self = LevelStr "AMP" ->
  getLengths self = OK (kernelLength, smallLength, nObs) ->
  int_truediv4 ((fst (shape self) - 1) * (snd (shape self) - 1))
  = OK smallLength
  /\ rawMeans self <> []
  /\ forall amp l, In (amp, l) (rawMeans self) -> length l = nObs.
Proof.
  intros Hl H. unfold getLengths in H.
  apply rbind_ok in H. destruct H as [sl [Hsl H]]. rewrite Hl in H.
  change (level_eqb (LevelStr "AMP") "AMP") with true in H. cbv iota zeta in H.
  destruct (length (py_set _) =? 1)%nat eqn:E; [|discriminate H].
  simpl in H. injection H as _ <- <-. apply Nat.eqb_eq in E.
  split; [exact Hsl|]. split.
  - intros Hnil. rewrite Hnil in E. discriminate E.
  - intros amp l Hin.
    assert (Hl' : In (length l)
                    (map (fun v : list float => length v) (values (rawMeans self)))).
    { apply in_map. unfold values. apply in_map_iff. exists (amp, l). auto. }
    rewrite (py_set_constant _ (length l)); [reflexivity | |].
    + intros Hnil. rewrite Hnil in Hl'. destruct Hl'.
    + intros m Hm. exact (py_set_singleton _ E m (length l) Hm Hl').
Qed.

Lemma nprod_to_nat (dims : list Z) :
  Forall (fun d => 0 <= d) dims ->
  Z.of_nat (nprod (map Z.to_nat dims)) = fold_right Z.mul 1 dims.
Proof.
  induction 1 as [|d dims Hd _ IH]; simpl; [reflexivity|].
  rewrite Nat2Z.inj_mul, IH, Z2Nat.id by exact Hd. reflexivity.
Qed.

Lemma reshape_inv_nonneg (a b : ndarray) (dims : list Z) :
  Forall (fun d => 0 <= d) dims ->
  reshape a dims = OK b ->
  b = mkArray (map Z.to_nat dims) (arr_data a) /\ array_wf b.
Proof.
  intros Hpos H. unfold reshape in H.
  rewrite (filter_none (fun d => d <? 0) dims) in H
    by (eapply Forall_impl; [|exact Hpos]; intros d Hd; apply Z.ltb_ge; exact Hd).
  rewrite (filter_all (fun d => 0 <=? d) dims) in H
    by (eapply Forall_impl; [|exact Hpos]; intros d Hd; apply Z.leb_le; exact Hd).
  destruct (_ =? _) eqn:E; [|discriminate H]. injection H as <-.
  split; [reflexivity|]. unfold array_wf. cbn [arr_shape arr_data].
  apply Z.eqb_eq in E. apply Nat2Z.inj. rewrite nprod_to_nat by exact Hpos.
  exact E.
Qed.

Lemma fromDict_inv (d : Dictionary) (calib : BrighterFatterKernel) :
  fromDict d = OK calib ->
  let dx := md_get (KERNEL_DX (d_metadata d)) 0 in
  let dy := md_get (KERNEL_DY (d_metadata d)) 0 in
  exists c0 kernelLength smallLength nObs smallShapeSide xs mxs aks dks,
    level c0 = md_get (LEVEL (d_metadata d)) (LevelStr "AMP")
    /\ shape c0 = (dx, dy)
    /\ dict_wf (expIdMask c0)
    /\ dict_wf (rawMeans c0)
    /\ dict_wf (rawVariances c0)
    /\ getLengths c0 = OK (kernelLength, smallLength, nObs)
    /\ int_sqrt smallLength = OK smallShapeSide
    /\ comp_over (d_rawXcorrs d)
         (fun l => a <- reshape (np_array_flat l)
                          [Z.of_nat nObs; smallShapeSide; smallShapeSide] ;;
                   OK (NdArray a))%result = OK xs
    /\ dict_comp
         (fun amp => l <- getitem (d_meanXcorrs d) amp ;;
                     reshape (np_array_flat l) [dx; dy])%result
         (keys (d_rawXcorrs d)) = OK mxs
    /\ comp_over (d_ampKernels d) (fun l => reshape (np_array_flat l) [dx; dy])
       = OK aks
    /\ comp_over (d_detKernels d) (fun l => reshape (np_array_flat l) [dx; dy])
       = OK dks
    /\ calib
       = updateMetadata
           (set_detKernels
              (set_badAmps
                 (set_valid
                    (set_ampKernels
                       (set_meanXcorrs
                          (set_noise (set_gain (set_rawXcorrs c0 xs) (d_gain d))
                             (d_noise d))
                          mxs)
                       aks)
                    (dict_of_items
                       (map (fun kv => (fst kv, PyBool (py_bool (snd kv))))
                          (d_valid d))))
                 (map fst (filter (fun kv => is_False (snd kv)) (d_valid d))))
              dks).
Proof.
  intros H dx dy. unfold fromDict in H. cbv zeta in H. inv_ok H.
  match goal with
  | E : getLengths ?c = OK (_, ?sl, ?n), E' : int_sqrt ?sl = OK ?side |- _ =>
      exists c, z, sl, n, side
  end.
  assert (Hc0 : level a1 = md_get (LEVEL (d_metadata d)) (LevelStr "AMP")
                /\ shape a1 = (dx, dy)
                /\ dict_wf (expIdMask a1)
                /\ dict_wf (rawMeans a1)
                /\ dict_wf (rawVariances a1)).
  { destruct (PrimFloat.eqb a0 1.0).
    - inv_ok E1. injection E1 as <-.
      repeat split; cbn; try reflexivity; eapply dict_comp_wf; eassumption.
    - destruct (PrimFloat.eqb a0 1.1); [|discriminate E1].
      inv_ok E1. injection E1 as <-.
      repeat split; cbn; try reflexivity; eapply dict_comp_wf; eassumption. }
  destruct Hc0 as [Hlvl [Hsh [W1 [W2 W3]]]].
  cbn [shape set_noise set_gain set_rawXcorrs set_meanXcorrs set_ampKernels
       set_valid set_badAmps] in *.
  rewrite Hsh in *. cbn [fst snd] in *.
  injection H as <-.
  eexists _, _, _, _.
  repeat (split; [first [eassumption | reflexivity]|]).
  reflexivity.
Qed.

Lemma is_False_coerced (d : dict pyval) :
  (forall amp v, In (amp, v) d -> py_bool v = false -> v = PyBool false) ->
  map fst (filter (fun kv => is_False (snd kv)) d)
  = map fst (filter (fun kv => is_False (snd kv))
               (map (fun kv => (fst kv, PyBool (py_bool (snd kv)))) d)).
Proof.
  induction d as [|[k v] d IH]; intros H; [reflexivity|].
  cbn [map filter fst snd].
  assert (Hv : is_False (PyBool (py_bool v)) = is_False v).
  { destruct (py_bool v) eqn:E.
    - destruct v as [[|]|[|]|z]; simpl in *; try reflexivity; discriminate E.
    - rewrite (H k v (or_introl eq_refl) E). reflexivity. }
  rewrite Hv.
  destruct (is_False v); cbn [map fst];
    rewrite <- IH by (intros amp w Hin; apply (H amp); right; exact Hin);
    reflexivity.
Qed.

Lemma set_rawXcorrs_same (self : BrighterFatterKernel) :
  set_rawXcorrs self (rawXcorrs self) = self.
Proof. destruct self. reflexivity. Qed.

Lemma fromDict_populated (d : Dictionary) (calib : BrighterFatterKernel) :
  fromDict d = OK calib ->
  md_get (LEVEL (d_metadata d)) (LevelStr "AMP") = LevelStr "AMP" ->
  0 < md_get (KERNEL_DX (d_metadata d)) 0 ->
  0 < md_get (KERNEL_DY (d_metadata d)) 0 ->
  (md_get (KERNEL_DX (d_metadata d)) 0 - 1)
  * (md_get (KERNEL_DY (d_metadata d)) 0 - 1) < 2 ^ 53 ->
  (let smallLength :=
     Z.quot ((md_get (KERNEL_DX (d_metadata d)) 0 - 1)
             * (md_get (KERNEL_DY (d_metadata d)) 0 - 1)) 4 in
   Z.sqrt smallLength * Z.sqrt smallLength = smallLength) ->
  dict_wf (d_valid d) ->
  (forall amp v, In (amp, v) (d_valid d) -> py_bool v = false -> v = PyBool false) ->
  exists nObs,
    populated calib nObs
    /\ (forall amp x, In (amp, x) (rawXcorrs calib) -> exists a, x = NdArray a)
    /\ updateMetadata calib = calib.
Proof.
  intros H Hlevel Hdx Hdy Hexact Hsq Hwfv Hfalsy.
  destruct (fromDict_inv d calib H)
    as [c0 [kl [sl [nObs [side [xs [mxs [aks [dks
        [Hl [Hsh [W1 [W2 [W3 [Hg [Hside [Exs [Emx [Eak [Edk ->]]]]]]]]]]]]]]]]]]]].
  rewrite Hlevel in Hl.
  destruct (getLengths_inv c0 kl sl nObs Hl Hg) as [Hsl' [Hne Hall]].
  rewrite Hsh in Hsl'. cbn [fst snd] in Hsl'.
  rewrite int_truediv4_exact in Hsl' by (rewrite Z.abs_eq by nia; exact Hexact).
  injection Hsl' as Hsl'. symmetry in Hsl'.
  assert (Hsl : 0 <= sl < 2 ^ 52).
  { rewrite Hsl'. rewrite Z.quot_div_nonneg by nia. split.
    - apply Z.div_pos; nia.
    - apply Z.div_lt_upper_bound; lia. }
  rewrite (int_sqrt_exact sl Hsl) in Hside. injection Hside as <-.
  assert (Hvalid : dict_of_items
                     (map (fun kv => (fst kv, PyBool (py_bool (snd kv))))
                        (d_valid d))
                   = map (fun kv => (fst kv, PyBool (py_bool (snd kv))))
                       (d_valid d)).
  { apply dict_of_items_wf.
    rewrite (keys_map_values (fun v => PyBool (py_bool v))). exact Hwfv. }
  assert (Hkernel : forall (dd : dict (list float)) r k a,
            comp_over dd
              (fun l => reshape (np_array_flat l)
                          [md_get (KERNEL_DX (d_metadata d)) 0;
                           md_get (KERNEL_DY (d_metadata d)) 0]) = OK r ->
            In (k, a) r ->
            arr_shape a = [Z.to_nat (md_get (KERNEL_DX (d_metadata d)) 0);
                           Z.to_nat (md_get (KERNEL_DY (d_metadata d)) 0)]
            /\ array_wf a).
  { intros dd r k a Hr Hin.
    destruct (comp_over_entries _ _ _ _ _ Hr Hin) as [l [_ Hre]].
    apply reshape_inv_nonneg in Hre; [|repeat constructor; lia].
    destruct Hre as [-> Hwf]. split; [reflexivity | exact Hwf]. }
  exists nObs. split; [|split].
  - constructor;
      cbn [updateMetadata set_metadata set_detKernels set_badAmps set_valid
           set_ampKernels set_meanXcorrs set_noise set_gain set_rawXcorrs
           level shape expIdMask rawMeans rawVariances rawXcorrs meanXcorrs
           ampKernels valid detKernels badAmps];
      rewrite ?Hsh; cbn [fst snd].
    + exact Hl.
    + split; assumption.
    + exact Hexact.
    + right. exact Hsq.
    + exact W1.
    + exact W2.
    + exact W3.
    + exact (dict_comp_wf _ _ _ Exs).
    + exact (dict_comp_wf _ _ _ Emx).
    + exact (dict_comp_wf _ _ _ Eak).
    + rewrite Hvalid.
      unfold dict_wf. rewrite (keys_map_values (fun v => PyBool (py_bool v))).
      exact Hwfv.
    + exact (dict_comp_wf _ _ _ Edk).
    + exact Hne.
    + exact Hall.
    + refine (dict_comp_from_keys _ _ _ [] [] _ _ _ Emx Exs). reflexivity.
    + intros amp x Hin.
      destruct (comp_over_entries _ _ _ _ _ Exs Hin) as [l [_ Hre]].
      apply rbind_ok in Hre. destruct Hre as [a [Hre Hx]]. injection Hx as <-.
      apply reshape_inv_nonneg in Hre;
        [|repeat constructor; try lia; apply Z.sqrt_nonneg].
      destruct Hre as [-> Hwf]. eexists. split; [reflexivity|].
      split; [|exact Hwf]. cbn [arr_shape map]. rewrite Nat2Z.id, Hsl'.
      reflexivity.
    + intros amp a Hin. unfold kernel_shaped.
      cbn [updateMetadata set_metadata set_detKernels set_badAmps set_valid
           set_ampKernels set_meanXcorrs set_noise set_gain set_rawXcorrs shape].
      rewrite Hsh. cbn [fst snd].
      apply (dict_comp_entries _ _ _ _ _ Emx) in Hin.
      apply rbind_ok in Hin. destruct Hin as [l [_ Hre]].
      apply reshape_inv_nonneg in Hre; [|repeat constructor; lia].
      destruct Hre as [-> Hwf]. split; [reflexivity | exact Hwf].
    + intros amp a Hin. unfold kernel_shaped.
      cbn [updateMetadata set_metadata set_detKernels set_badAmps set_valid
           set_ampKernels set_meanXcorrs set_noise set_gain set_rawXcorrs shape].
      rewrite Hsh. cbn [fst snd]. exact (Hkernel _ _ _ _ Eak Hin).
    + intros det a Hin. unfold kernel_shaped.
      cbn [updateMetadata set_metadata set_detKernels set_badAmps set_valid
           set_ampKernels set_meanXcorrs set_noise set_gain set_rawXcorrs shape].
      rewrite Hsh. cbn [fst snd]. exact (Hkernel _ _ _ _ Edk Hin).
    + intros amp v Hin. rewrite Hvalid in Hin. apply in_map_iff in Hin.
      destruct Hin as [[k w] [Heq _]]. injection Heq as _ <-. eexists. reflexivity.
    + rewrite Hvalid. apply is_False_coerced. exact Hfalsy.
  - intros amp x Hin. cbn in Hin.
    destruct (comp_over_entries _ _ _ _ _ Exs Hin) as [l [_ Hre]].
    apply rbind_ok in Hre. destruct Hre as [a [_ Hx]]. injection Hx as <-.
    eexists. reflexivity.
  - apply (updateMetadata_fixed _ _ (same_but_rawXcorrs_refl _)).
Qed.

(** What the importer establishes.  When the metadata of the mapping
    names level ['AMP'] (or no level) and a kernel shape of positive
    dimensions for which the small arrays are square and the product
    [(KERNEL_DX-1)*(KERNEL_DY-1)] is below [2^53], and the persisted
    validity values that are false are Python's [False], the calibration
    [fromDict] returns satisfies the invariants of the data model, and
    exporting it and importing the result gives the very same
    calibration, the export leaving it unchanged. *)
Theorem fromDict_then_roundtrip (d : Dictionary) (calib : BrighterFatterKernel) :
  fromDict d = OK calib ->
  md_get (LEVEL (d_metadata d)) (LevelStr "AMP") = LevelStr "AMP" ->
  0 < md_get (KERNEL_DX (d_metadata d)) 0 ->
  0 < md_get (KERNEL_DY (d_metadata d)) 0 ->
  (md_get (KERNEL_DX (d_metadata d)) 0 - 1)
  * (md_get (KERNEL_DY (d_metadata d)) 0 - 1) < 2 ^ 53 ->
  (let smallLength :=
     Z.quot ((md_get (KERNEL_DX (d_metadata d)) 0 - 1)
             * (md_get (KERNEL_DY (d_metadata d)) 0 - 1)) 4 in
   Z.sqrt smallLength * Z.sqrt smallLength = smallLength) ->
  dict_wf (d_valid d) ->
  (forall amp v, In (amp, v) (d_valid d) -> py_bool v = false -> v = PyBool false) ->
  (exists nObs, populated calib nObs)
  /\ state_after (toDict calib) = calib
  /\ roundtrip calib = OK calib.
Proof.
  intros H Hlevel Hdx Hdy Hexact Hsq Hwfv Hfalsy.
  destruct (fromDict_populated d calib H Hlevel Hdx Hdy Hexact Hsq Hwfv Hfalsy)
    as [nObs [P [Harr Hfix]]].
  pose proof (toDict_populated calib nObs P) as Hexp.
  rewrite Hfix in Hexp.
  split; [exists nObs; exact P|]. split.
  - rewrite Hexp. reflexivity.
  - unfold roundtrip. rewrite Hexp. cbn [outcome snd rbind].
    rewrite (fromDict_mapping_of calib nObs P), Hfix.
    rewrite (as_array_NdArray _ Harr). rewrite set_rawXcorrs_same. reflexivity.
Qed.

(** [fromDict_then_roundtrip] at the mapping of schema version 1.0 with
    one amplifier and two observation pairs. *)
Lemma fromDict_then_roundtrip_witness :
  exists calib,
    fromDict dict_v10 = OK calib
    /\ (exists nObs, populated calib nObs)
    /\ state_after (toDict calib) = calib
    /\ roundtrip calib = OK calib.
Proof.
  destruct (fromDict dict_v10) as [calib|e] eqn:E;
    [|vm_compute in E; discriminate E].
  exists calib. split; [reflexivity|].
  apply (fromDict_then_roundtrip dict_v10 calib E).
  - reflexivity.
  - reflexivity.
  - reflexivity.
  - reflexivity.
  - reflexivity.
  - unfold dict_wf. simpl. repeat constructor. intros [].
  - intros amp v [Heq|[]] Hv. injection Heq as _ <-. discriminate Hv.
Defined.

(** [fromDict] builds [meanXcorrs] over the amplifiers of the persisted
    [rawXcorrs], not over those of the persisted [meanXcorrs]: an import
    succeeds only if every amplifier of [rawXcorrs] has a [meanXcorrs]
    entry, the calibration then holds [meanXcorrs] for exactly the
    amplifiers of [rawXcorrs], in their order, and a persisted
    [meanXcorrs] entry of any other amplifier is dropped. *)
Theorem fromDict_meanXcorrs_follow_rawXcorrs (d : Dictionary)
  (calib : BrighterFatterKernel) :
  fromDict d = OK calib ->
  keys (meanXcorrs calib) = keys (rawXcorrs calib)
  /\ (forall amp, In amp (keys (d_rawXcorrs d)) -> In amp (keys (d_meanXcorrs d)))
  /\ (forall amp, In amp (keys (meanXcorrs calib)) -> In amp (keys (d_rawXcorrs d))).
Proof.
  intros H.
  destruct (fromDict_inv d calib H)
    as [c0 [kl [sl [nObs [side [xs [mxs [aks [dks
        [_ [_ [_ [_ [_ [_ [_ [Exs [Emx [_ [_ ->]]]]]]]]]]]]]]]]]]]].
  cbn [updateMetadata set_metadata set_detKernels set_badAmps set_valid
       set_ampKernels set_meanXcorrs set_noise set_gain set_rawXcorrs
       meanXcorrs rawXcorrs].
  split; [|split].
  - refine (dict_comp_from_keys _ _ _ [] [] _ _ _ Emx Exs). reflexivity.
  - intros amp Hamp.
    destruct (dict_comp_from_ok_inv _ _ _ _ Emx amp Hamp) as [w Hw].
    apply rbind_ok in Hw. destruct Hw as [l [Hl _]].
    unfold getitem in Hl.
    destruct (dict_get (d_meanXcorrs d) amp) as [l'|] eqn:E; [|discriminate Hl].
    exact (dict_get_in_keys _ _ _ E).
  - intros amp Hamp. unfold keys in Hamp. apply in_map_iff in Hamp.
    destruct Hamp as [[k w] [<- Hin]].
    destruct (dict_comp_from_entries _ _ _ _ Emx k w Hin) as [[]|[Hk _]].
    exact Hk.
Qed.

(** ** The tables at another level *)

Lemma level_eqb_other (l : pylevel) :
  l <> LevelStr "AMP" -> level_eqb l "AMP" = false.
Proof.
  intros H. destruct (level_eqb l "AMP") eqn:E; [|reflexivity].
  apply level_eqb_AMP in E. contradiction.
Qed.

Lemma dict_comp_nil {V} (f : string -> result V) : dict_comp f [] = OK [].
Proof. reflexivity. Qed.

(** At any level other than ['AMP'] (['DETECTOR'], or no level), [toTable]
    only refreshes the metadata and writes an amplifier table without
    rows, whatever the per-amplifier attributes hold; the calibration
    [fromTable] builds from its tables has no per-amplifier entry left. *)
Theorem toTable_other_level (self : BrighterFatterKernel) :
  level self <> LevelStr "AMP" ->
  state_after (toTable self) = updateMetadata self
  /\ forall tableList,
       outcome (toTable self) = OK tableList ->
       AMPLIFIER (ampTable tableList) = []
       /\ RAW_MEANS (ampTable tableList) = Some []
       /\ RAW_XCORRS (ampTable tableList) = []
       /\ KERNEL (ampTable tableList) = []
       /\ VALID (ampTable tableList) = []
       /\ forall calib,
            fromTable tableList = OK calib ->
            expIdMask calib = [] /\ rawMeans calib = []
            /\ rawVariances calib = [] /\ rawXcorrs calib = []
            /\ gain calib = [] /\ noise calib = []
            /\ meanXcorrs calib = [] /\ ampKernels calib = []
            /\ valid calib = [] /\ badAmps calib = [].
Proof.
  intros Hlevel. pose proof (level_eqb_other _ Hlevel) as E.
  assert (Hfrom : forall (dk : option DetTable) calib,
            fromTable
              {| ampTable :=
                   {| amp_meta := getMetadata (updateMetadata self);
                      AMPLIFIER := [];
                      EXP_ID_MASK := Some [];
                      RAW_MEANS := Some [];
                      RAW_VARIANCES := Some [];
                      MEANS := None;
                      VARIANCES := None;
                      RAW_XCORRS := [];
                      GAIN := [];
                      NOISE := [];
                      MEAN_XCORRS := [];
                      KERNEL := [];
                      VALID := [] |};
                 detTable := dk |} = OK calib ->
            expIdMask calib = [] /\ rawMeans calib = []
            /\ rawVariances calib = [] /\ rawXcorrs calib = []
            /\ gain calib = [] /\ noise calib = []
            /\ meanXcorrs calib = [] /\ ampKernels calib = []
            /\ valid calib = [] /\ badAmps calib = []).
  { intros dk calib H.
    unfold fromTable, fromTable_inDict in H. cbv zeta in H.
    cbn [ampTable detTable amp_meta AMPLIFIER EXP_ID_MASK RAW_MEANS
         RAW_VARIANCES MEANS VARIANCES RAW_XCORRS GAIN NOISE MEAN_XCORRS KERNEL
         VALID getMetadata updateMetadata set_metadata metadata
         IsrCalib_updateMetadata bfk_VERSION lookup rbind] in H.
    change (PrimFloat.eqb _VERSION 1.0) with false in H.
    change (PrimFloat.eqb _VERSION 1.1) with true in H.
    cbv iota in H. cbn [rbind lookup map] in H.
    change (dict_zip [] (@nil (list bool))) with (@nil (string * list bool)) in H.
    change (dict_zip [] (@nil (list float))) with (@nil (string * list float)) in H.
    change (dict_zip [] (@nil float)) with (@nil (string * float)) in H.
    change (dict_zip [] (@nil pyval)) with (@nil (string * pyval)) in H.
    cbn [filter map] in H.
    unfold fromDict in H. cbv zeta in H.
    cbn [d_metadata IsrCalib_updateMetadata OBSTYPE bfk_VERSION LEVEL KERNEL_DX
         KERNEL_DY lookup rbind md_get d_expIdMask d_rawMeans d_rawVariances
         d_rawXcorrs d_gain d_noise d_meanXcorrs d_ampKernels d_valid
         d_detKernels] in H.
    change (negb (String.eqb _OBSTYPE _OBSTYPE)) with false in H.
    change (PrimFloat.eqb _VERSION 1.0) with false in H.
    change (PrimFloat.eqb _VERSION 1.1) with true in H.
    cbv iota in H.
    cbn [comp_over dict_comp dict_comp_from keys map rbind filter] in H.
    unfold getLengths in H.
    cbn [level shape rawMeans set_rawVariances set_rawMeans set_expIdMask
         set_shape set_level setMetadata set_metadata] in H.
    rewrite E in H. cbv zeta in H. cbn [rbind] in H.
    inv_ok H. injection H as <-.
    repeat split. }
  unfold toTable, mbind, mmodify, mget, mlift, mret.
  change (getLengths (updateMetadata self)) with (getLengths self).
  unfold getLengths. cbv zeta. rewrite E.
  destruct (int_truediv4 _) as [smallLength|e];
    [|cbn [rbind state_after outcome fst snd];
      split; [reflexivity | intros tableList Ht; discriminate Ht]].
  cbn [rbind].
  change (level (updateMetadata self)) with (level self). rewrite E.
  change (detKernels (updateMetadata self)) with (detKernels self).
  destruct (0 <? length (detKernels self))%nat.
  - destruct (mapM _ (keys (detKernels self))) as [kernelList|e];
      cbn [state_after outcome fst snd].
    + split; [reflexivity|]. intros tableList Ht. injection Ht as <-.
      cbn [ampTable AMPLIFIER RAW_MEANS RAW_XCORRS KERNEL VALID map].
      repeat (split; [reflexivity|]). apply Hfrom.
    + split; [reflexivity|]. intros tableList Ht. discriminate Ht.
  - cbn [state_after outcome fst snd].
    split; [reflexivity|]. intros tableList Ht. injection Ht as <-.
    cbn [ampTable AMPLIFIER RAW_MEANS RAW_XCORRS KERNEL VALID map].
    repeat (split; [reflexivity|]). apply Hfrom.
Qed.

(** [toTable_other_level] at three populated amplifiers relabelled as a
    detector-level calibration: the tables are written and read back, and
    the amplifiers are gone. *)
Lemma toTable_other_level_witness :
  exists tableList calib,
    outcome (toTable calib_detector_level) = OK tableList
    /\ fromTable tableList = OK calib
    /\ length (rawMeans calib_detector_level) = 3%nat
    /\ rawMeans calib = []
    /\ ampKernels calib = [].
Proof.
  assert (Hlevel : level calib_detector_level <> LevelStr "AMP")
    by (simpl; discriminate).
  destruct (toTable_other_level calib_detector_level Hlevel) as [_ H].
  destruct (outcome (toTable calib_detector_level)) as [t|e] eqn:Et;
    [|vm_compute in Et; discriminate Et].
  destruct (H t eq_refl) as (_ & _ & _ & _ & _ & Hc).
  destruct (fromTable t) as [calib|e] eqn:Ec.
  - exists t, calib.
    destruct (Hc calib eq_refl) as (_ & Hm & _ & _ & _ & _ & _ & Hk & _).
    repeat split; assumption.
  - exfalso. vm_compute in Et. injection Et as <-.
    vm_compute in Ec. discriminate Ec.
Defined.

(** [fromDict_meanXcorrs_follow_rawXcorrs] at the mapping of schema
    version 1.0 with one amplifier. *)
Lemma fromDict_meanXcorrs_follow_rawXcorrs_witness :
  exists calib,
    fromDict dict_v10 = OK calib
    /\ keys (meanXcorrs calib) = keys (rawXcorrs calib)
    /\ (forall amp, In amp (keys (d_rawXcorrs dict_v10)) ->
                    In amp (keys (d_meanXcorrs dict_v10)))
    /\ (forall amp, In amp (keys (meanXcorrs calib)) ->
                    In amp (keys (d_rawXcorrs dict_v10))).
Proof.
  destruct (fromDict dict_v10) as [calib|e] eqn:E;
    [|vm_compute in E; discriminate E].
  exists calib. split; [reflexivity|].
  exact (fromDict_meanXcorrs_follow_rawXcorrs dict_v10 calib E).
Defined.
